(** * WorkTimeTaskLogger: a shallow embedding of the capture-to-storage
      pipeline and of its daily and weekly aggregation.

    The development follows the TypeScript sources file by file:
    - [JsMap]    : the insertion-ordered [Map] of JavaScript;
    - [JsDate]   : the part of [Date] the program uses;
    - [Types]    : src/types.ts;
    - [Database] : src/storage/database.ts;
    - [Idle]     : src/capture/idle.ts;
    - [Window]   : src/capture/window.ts;
    - [Agent]    : src/agent.ts;
    - [Weekly]   : src/reports/weekly.ts;
    - [Tracker]  : src/index.ts (the capture cycle);
    - [Cli]      : src/index.ts (the exclusion list commands);
    - [Settings] : src/config/settings.ts;
    - [ExportCsv]: src/reports/export.ts (CSV escaping).

    Modelling conventions.
    - A [Date] is its time value in milliseconds, a [Z], read in local time
      of a zone with a constant offset.  The store keeps timestamps as
      ISO-8601 text and compares the text; for four-digit years that order
      is the order of the instants, which is what the model compares.
    - JavaScript numbers that hold seconds, milliseconds and counters are
      integers here ([Z]); hours and confidences are exact rationals ([Q]).
    - A function that may throw returns a [Result]. *)

From Stdlib Require Import ZArith List String Ascii Bool Lia.
From Stdlib Require Import Sorted Permutation QArith.
Import ListNotations.

Local Open Scope Z_scope.

(* ------------------------------------------------------------------ *)
(** ** Results of calls that may throw *)

Inductive Result (A : Type) : Type :=
| Ok (a : A)
| Throw.

Arguments Ok {A} a.
Arguments Throw {A}.

(** [try { body } catch { handler }] *)
Definition tryCatch {A} (body : Result A) (handler : Result A) : Result A :=
  match body with
  | Ok a => Ok a
  | Throw => handler
  end.

(** [a ?? b] on a nullable value *)
Definition nullish {A} (a : option A) (b : A) : A :=
  match a with
  | Some x => x
  | None => b
  end.

(** Truthiness of a nullable string: [null] and the empty string are falsy. *)
Definition truthy (s : option string) : bool :=
  match s with
  | Some (String _ _) => true
  | _ => false
  end.

Definition optStringEqb (a : option string) (b : string) : bool :=
  match a with
  | Some x => String.eqb x b
  | None => false
  end.

(* ------------------------------------------------------------------ *)
(** ** Stable sorting, as [Array.prototype.sort] and [ORDER BY] over an
       index behave: elements that compare equal keep their order. *)

Section StableSort.
Context {A : Type} (le : A -> A -> bool).

Fixpoint insertSorted (x : A) (l : list A) : list A :=
  match l with
  | [] => [x]
  | y :: l' => if le x y then x :: y :: l' else y :: insertSorted x l'
  end.

Definition stableSort (l : list A) : list A :=
  fold_right insertSorted [] l.
End StableSort.

(* ------------------------------------------------------------------ *)
(** ** The JavaScript [Map]: keys in order of first insertion *)

Module JsMap.
Section WithKey.
Context {K V : Type} (eqb : K -> K -> bool).

Definition t := list (K * V).

Definition empty : t := [].

Fixpoint get (k : K) (m : t) : option V :=
  match m with
  | [] => None
  | (k', v) :: m' => if eqb k' k then Some v else get k m'
  end.

(** [set] overwrites in place when the key is present and appends
    otherwise. *)
Fixpoint set (k : K) (v : V) (m : t) : t :=
  match m with
  | [] => [(k, v)]
  | (k', v') :: m' =>
      if eqb k' k then (k', v) :: m' else (k', v') :: set k v m'
  end.

(** [new Map(pairs)] *)
Definition ofList (l : list (K * V)) : t :=
  fold_left (fun m kv => set (fst kv) (snd kv) m) l empty.

(** [Array.from(m.entries())] *)
Definition entries (m : t) : list (K * V) := m.
End WithKey.
End JsMap.

(* ------------------------------------------------------------------ *)
(** ** The part of [Date] the program uses *)

Module JsDate.
Definition msPerDay : Z := 86400000.

Definition Day (t : Z) : Z := t / msPerDay.
Definition TimeWithinDay (t : Z) : Z := t mod msPerDay.

(** [getDay]: 0 is Sunday; day 0 (1970-01-01) was a Thursday. *)
Definition getDay (t : Z) : Z := (Day t + 4) mod 7.

(** Year, month (1..12) and day of month of a day number, proleptic
    Gregorian calendar. *)
Definition civilFromDays (day : Z) : Z * Z * Z :=
  let z := day + 719468 in
  let era := z / 146097 in
  let doe := z - era * 146097 in
  let yoe := (doe - doe / 1460 + doe / 36524 - doe / 146096) / 365 in
  let y := yoe + era * 400 in
  let doy := doe - (365 * yoe + yoe / 4 - yoe / 100) in
  let mp := (5 * doy + 2) / 153 in
  let d := doy - (153 * mp + 2) / 5 + 1 in
  let m := if mp <? 10 then mp + 3 else mp - 9 in
  (if m <=? 2 then y + 1 else y, m, d).

(** [getDate]: the day of the month, 1..31. *)
Definition getDate (t : Z) : Z :=
  let '(_, _, d) := civilFromDays (Day t) in d.

(** Day number of the first day of the month [t] lies in. *)
Definition monthStartDay (t : Z) : Z := Day t - (getDate t - 1).

(** [setDate(n)]: day [n] counted from the first of the current month
    (so [n <= 0] and [n] past the month's end roll over), time of day
    kept. *)
Definition setDate (t : Z) (n : Z) : Z :=
  (monthStartDay t + (n - 1)) * msPerDay + TimeWithinDay t.

(** [setHours(0, 0, 0, 0)] *)
Definition setHoursZero (t : Z) : Z := Day t * msPerDay.

(** [setHours(23, 59, 59, 999)] *)
Definition setHoursEndOfDay (t : Z) : Z := Day t * msPerDay + (msPerDay - 1).
End JsDate.

(* ------------------------------------------------------------------ *)
(** ** src/types.ts *)

Module Types.

Inductive LlmProvider := ClaudeSdk | Proxy.

Record TrackerConfig := mkTrackerConfig {
  captureIntervalMinutes : Z;
  idleThresholdSeconds : Z;
  excludedApps : list string;
  llmProvider : LlmProvider;
  llmProxyUrl : option string
}.

Record TimeEntry := mkTimeEntry {
  id : Z;
  timestamp : Z;
  appName : string;
  windowTitle : string;
  screenshotPath : option string;
  taskDescription : option string;
  projectId : option string;
  manualProjectId : option string;
  durationSeconds : option Z;
  isIdle : bool;
  aiAnalysis : option string
}.

Record WindowInfo := mkWindowInfo {
  wAppName : string;
  wTitle : string;
  wBundleId : option string;
  wPid : Z
}.

Inductive WorkCategory :=
| coding | communication | research | documentation | meeting
| design | admin | break | other.

(** What the [category] field of a [TaskAnalysis] holds at run time.  Its
    declared type is [WorkCategory]; [createFallbackAnalysis] reads it
    from an object literal, and reading a name the literal inherits from
    [Object.prototype] yields the inherited member (a function, or the
    prototype object itself), kept here under the name it was read by. *)
Inductive CategoryValue :=
| IsCategory (c : WorkCategory)
| InheritedMember (name : string).

Coercion IsCategory : WorkCategory >-> CategoryValue.

Record TaskAnalysis := mkTaskAnalysis {
  aTaskDescription : string;
  aSuggestedProjectId : option string;
  aConfidence : Q;
  aCategory : CategoryValue;
  aNotes : option string
}.

Record ProjectTime := mkProjectTime {
  ptProjectId : string;
  ptProjectName : string;
  ptSeconds : Z;
  ptEntries : Z
}.

Record CategoryTime := mkCategoryTime {
  ctCategory : WorkCategory;
  ctSeconds : Z;
  ctEntries : Z
}.

Record AppTime := mkAppTime {
  atAppName : string;
  atSeconds : Z;
  atEntries : Z
}.

Record DailySummary := mkDailySummary {
  date : Z;
  totalTrackedSeconds : Z;
  idleSeconds : Z;
  activeSeconds : Z;
  projectBreakdown : list ProjectTime;
  categoryBreakdown : list CategoryTime;
  topApps : list AppTime
}.

Record WeeklyReport := mkWeeklyReport {
  weekStartDate : Z;
  weekEndDate : Z;
  totalHours : Q;
  dailySummaries : list DailySummary;
  projectTotals : list ProjectTime;
  categoryTotals : list CategoryTime
}.

Definition WorkCategory_eqb (a b : WorkCategory) : bool :=
  match a, b with
  | coding, coding | communication, communication | research, research
  | documentation, documentation | meeting, meeting | design, design
  | admin, admin | break, break | other, other => true
  | _, _ => false
  end.

Record Project := mkProject {
  pId : string;
  pName : string;
  pKeywords : list string;
  pColor : string;
  pHourlyRate : option Q;
  pClient : option string
}.

End Types.
Import Types.

(* ------------------------------------------------------------------ *)
(** ** src/storage/database.ts *)

Module Database.

(** The table [time_entries]: its rows in rowid order and the last
    rowid handed out by AUTOINCREMENT. *)
Record t := mkDb {
  rows : list TimeEntry;
  lastRowid : Z
}.

(** The table right after [initDatabase] on a fresh file. *)
Definition initDatabase : t := mkDb [] 0.

Definition withId (i : Z) (e : TimeEntry) : TimeEntry :=
  mkTimeEntry i (timestamp e) (appName e) (windowTitle e)
    (screenshotPath e) (taskDescription e) (projectId e)
    (manualProjectId e) (durationSeconds e) (isIdle e) (aiAnalysis e).

(** [insertTimeEntry(entry)]: the [id] of the argument is ignored
    ([Omit<TimeEntry, "id">]); the new rowid is returned. *)
Definition insertTimeEntry (entry : TimeEntry) (db : t) : Z * t :=
  let newId := lastRowid db + 1 in
  (newId, mkDb (rows db ++ [withId newId entry]) newId).

(** [SELECT ... ORDER BY timestamp DESC LIMIT 1]: the row with the
    greatest timestamp; among equal timestamps the reverse scan of
    [idx_entries_timestamp] meets the greatest rowid first. *)
Definition lastEntryOf (rs : list TimeEntry) : option TimeEntry :=
  fold_left
    (fun acc r =>
       match acc with
       | None => Some r
       | Some a => if timestamp a <=? timestamp r then Some r else Some a
       end)
    rs None.

Definition setDuration (d : Z) (e : TimeEntry) : TimeEntry :=
  mkTimeEntry (id e) (timestamp e) (appName e) (windowTitle e)
    (screenshotPath e) (taskDescription e) (projectId e)
    (manualProjectId e) (Some d) (isIdle e) (aiAnalysis e).

(** [UPDATE time_entries SET duration_seconds = ? WHERE id = ?] *)
Definition updateDurationWhereId (d : Z) (i : Z) (rs : list TimeEntry)
  : list TimeEntry :=
  map (fun r => if id r =? i then setDuration d r else r) rs.

(** [updatePreviousEntryDuration(currentTimestamp)] *)
Definition updatePreviousEntryDuration (currentTimestamp : Z) (db : t) : t :=
  match lastEntryOf (rows db) with
  | Some lastEntry =>
      let lastTime := timestamp lastEntry in
      let durationSeconds := (currentTimestamp - lastTime) / 1000 in
      mkDb (updateDurationWhereId durationSeconds (id lastEntry) (rows db))
           (lastRowid db)
  | None => db
  end.

(** The [WHERE] clause of [getTimeEntries]. *)
Definition inRange (startDate endDate : Z) (r : TimeEntry) : bool :=
  (startDate <=? timestamp r) && (timestamp r <? endDate).

Definition matchesProject (projectFilter : option string) (r : TimeEntry)
  : bool :=
  match projectFilter with
  | Some p =>
      if truthy (Some p)
      then optStringEqb (projectId r) p || optStringEqb (manualProjectId r) p
      else true
  | None => true
  end.

(** [getTimeEntries(startDate, endDate, projectId?)] *)
Definition getTimeEntries (startDate endDate : Z)
    (projectFilter : option string) (db : t) : list TimeEntry :=
  stableSort (fun a b => timestamp a <=? timestamp b)
    (filter (fun r => inRange startDate endDate r
                      && matchesProject projectFilter r)
            (rows db)).

Record Bucket := mkBucket {
  seconds : Z;
  entries : Z
}.

(** The running totals of the loop of [getDailySummary]. *)
Record Totals := mkTotals {
  accTotal : Z;
  accIdle : Z;
  accActive : Z;
  projectMap : JsMap.t (K := string) (V := Bucket);
  categoryMap : JsMap.t (K := WorkCategory) (V := Bucket);
  appMap : JsMap.t (K := string) (V := Bucket)
}.

Definition bump (k : string) (duration : Z)
    (m : JsMap.t (K := string) (V := Bucket)) : JsMap.t :=
  let data := nullish (JsMap.get String.eqb k m) (mkBucket 0 0) in
  JsMap.set String.eqb k
    (mkBucket (seconds data + duration) (entries data + 1)) m.

(** Effective project of an entry. *)
Definition effectiveProject (e : TimeEntry) : string :=
  nullish (manualProjectId e) (nullish (projectId e) "unassigned"%string).

(** One iteration of [for (const entry of entries)]. *)
Definition summaryStep (acc : Totals) (entry : TimeEntry) : Totals :=
  let duration := nullish (durationSeconds entry) 0 in
  let total := accTotal acc + duration in
  if isIdle entry then
    mkTotals total (accIdle acc + duration) (accActive acc)
      (projectMap acc) (categoryMap acc) (appMap acc)
  else
    mkTotals total (accIdle acc) (accActive acc + duration)
      (bump (effectiveProject entry) duration (projectMap acc))
      (categoryMap acc)
      (bump (appName entry) duration (appMap acc)).

Definition startOfDay (date : Z) : Z := JsDate.setHoursZero date.

Definition endOfDay (date : Z) : Z :=
  let s := startOfDay date in
  JsDate.setDate s (JsDate.getDate s + 1).

(** [getDailySummary(date)] *)
Definition getDailySummary (date : Z) (db : t) : DailySummary :=
  let startOfDay := startOfDay date in
  let endOfDay := endOfDay date in
  let entries := getTimeEntries startOfDay endOfDay None db in
  let acc :=
    fold_left summaryStep entries
      (mkTotals 0 0 0 JsMap.empty JsMap.empty JsMap.empty) in
  let projectBreakdown :=
    map (fun '(id, data) => mkProjectTime id id (seconds data) (Database.entries data))
        (JsMap.entries (projectMap acc)) in
  let categoryBreakdown :=
    map (fun '(category, data) =>
           mkCategoryTime category (seconds data) (Database.entries data))
        (JsMap.entries (categoryMap acc)) in
  let topApps :=
    firstn 10
      (stableSort (fun a b => atSeconds b <=? atSeconds a)
         (map (fun '(appName, data) =>
                 mkAppTime appName (seconds data) (Database.entries data))
              (JsMap.entries (appMap acc)))) in
  mkDailySummary startOfDay (accTotal acc) (accIdle acc) (accActive acc)
    projectBreakdown categoryBreakdown topApps.

Definition setAnalysis (td : string) (pid : option string) (ai : string)
    (e : TimeEntry) : TimeEntry :=
  mkTimeEntry (id e) (timestamp e) (appName e) (windowTitle e)
    (screenshotPath e) (Some td) pid (manualProjectId e)
    (durationSeconds e) (isIdle e) (Some ai).

(** [updateEntryAnalysis(entryId, taskDescription, projectId, aiAnalysis)] *)
Definition updateEntryAnalysis (entryId : Z) (td : string)
    (pid : option string) (ai : string) (db : t) : t :=
  mkDb (map (fun r => if id r =? entryId then setAnalysis td pid ai r else r)
            (rows db))
       (lastRowid db).

(** [getLastEntry()] *)
Definition getLastEntry (db : t) : option TimeEntry := lastEntryOf (rows db).

Definition setManual (p : string) (e : TimeEntry) : TimeEntry :=
  mkTimeEntry (id e) (timestamp e) (appName e) (windowTitle e)
    (screenshotPath e) (taskDescription e) (projectId e) (Some p)
    (durationSeconds e) (isIdle e) (aiAnalysis e).

(** [setManualProject(entryId, projectId)] *)
Definition setManualProject (entryId : Z) (p : string) (db : t) : t :=
  mkDb (map (fun r => if id r =? entryId then setManual p r else r) (rows db))
       (lastRowid db).

(** [getTodayEntries()], with the clock reading [new Date()] gave. *)
Definition getTodayEntries (now : Z) (db : t) : list TimeEntry :=
  let today := JsDate.setHoursZero now in
  let tomorrow := JsDate.setDate today (JsDate.getDate today + 1) in
  getTimeEntries today tomorrow None db.

(** [getTodayEntryCount()]: [COUNT( * )] of the rows from today's
    midnight on. *)
Definition getTodayEntryCount (now : Z) (db : t) : Z :=
  let today := JsDate.setHoursZero now in
  Z.of_nat (List.length (filter (fun r => today <=? timestamp r) (rows db))).

(** The cutoff of [deleteOldEntries]: [now] moved back by
    [retentionDays] days with [setDate]. *)
Definition retentionCutoff (now retentionDays : Z) : Z :=
  JsDate.setDate now (JsDate.getDate now - retentionDays).

(** [deleteOldEntries(retentionDays)]: the number of rows deleted and
    the table left; the AUTOINCREMENT counter is kept. *)
Definition deleteOldEntries (now retentionDays : Z) (db : t) : Z * t :=
  let cutoffDate := retentionCutoff now retentionDays in
  let kept := filter (fun r => negb (timestamp r <? cutoffDate)) (rows db) in
  let deleted := filter (fun r => timestamp r <? cutoffDate) (rows db) in
  (Z.of_nat (List.length deleted), mkDb kept (lastRowid db)).

End Database.

(* ------------------------------------------------------------------ *)
(** ** src/capture/idle.ts *)

Module Idle.

Record IdleState := mkIdleState {
  stIsIdle : bool;
  stIdleSeconds : Z
}.

(** [checkIdleState(config)], given the reading of [getIdleTime()]. *)
Definition checkIdleState (config : TrackerConfig) (idleSeconds : Z)
  : IdleState :=
  mkIdleState (idleThresholdSeconds config <=? idleSeconds) idleSeconds.

(** [checkInterval] of [createIdleWatcher]. *)
Definition checkInterval (config : TrackerConfig) : Z :=
  Z.min (idleThresholdSeconds config * 1000) 30000.

(** One call of the closure [check]: the variable [wasIdle] before the
    call and the probe reading give [wasIdle] after the call and the
    calls of [onIdleChange] made, each with its two arguments. *)
Definition check (config : TrackerConfig) (wasIdle : bool) (reading : Z)
  : bool * list (bool * Z) :=
  let state := checkIdleState config reading in
  if negb (Bool.eqb (stIsIdle state) wasIdle)
  then (stIsIdle state, [(stIsIdle state, stIdleSeconds state)])
  else (wasIdle, []).

(** The checks of a watcher, one per probe reading, in order. *)
Fixpoint runChecks (config : TrackerConfig) (wasIdle : bool)
    (readings : list Z) : bool * list (bool * Z) :=
  match readings with
  | [] => (wasIdle, [])
  | r :: rest =>
      let '(wasIdle', calls) := check config wasIdle r in
      let '(final, calls') := runChecks config wasIdle' rest in
      (final, calls ++ calls')
  end.

(** [createIdleWatcher(config, onIdleChange)] run on a sequence of
    readings: [wasIdle] starts as [false]; the result is the list of
    callback invocations. *)
Definition createIdleWatcher (config : TrackerConfig) (readings : list Z)
  : list (bool * Z) :=
  snd (runChecks config false readings).

End Idle.

(* ------------------------------------------------------------------ *)
(** ** src/capture/window.ts *)

Module Window.

Definition lowerAscii (c : ascii) : ascii :=
  let n := N_of_ascii c in
  if ((65 <=? n) && (n <=? 90))%N then ascii_of_N (n + 32) else c.

(** [toLowerCase], on the ASCII letters. *)
Fixpoint toLowerCase (s : string) : string :=
  match s with
  | EmptyString => EmptyString
  | String c r => String (lowerAscii c) (toLowerCase r)
  end.

(** [hay.includes(needle)] *)
Fixpoint includes (hay needle : string) : bool :=
  String.prefix needle hay
  || match hay with
     | EmptyString => false
     | String _ r => includes r needle
     end.

(** [shouldExcludeWindow(windowInfo, config)] *)
Definition shouldExcludeWindow (windowInfo : WindowInfo)
    (config : TrackerConfig) : bool :=
  let appNameLower := toLowerCase (wAppName windowInfo) in
  existsb (fun excludedApp => includes appNameLower (toLowerCase excludedApp))
          (excludedApps config).

(** [categorizeApp(appName)] *)
Definition categorizeApp (appName : string) : string :=
  let name := toLowerCase appName in
  let has := includes name in
  if has "chrome"%string || has "firefox"%string || has "safari"%string || has "edge"%string
     || has "brave"%string || has "arc"%string
  then "browser"%string
  else if has "code"%string || has "sublime"%string || has "atom"%string || has "vim"%string
          || has "nvim"%string || has "emacs"%string || has "xcode"%string || has "intellij"%string
          || has "webstorm"%string || has "pycharm"%string || has "cursor"%string
  then "editor"%string
  else if has "terminal"%string || has "iterm"%string || has "warp"%string || has "kitty"%string
          || has "alacritty"%string || has "hyper"%string
  then "terminal"%string
  else if has "slack"%string || has "discord"%string || has "teams"%string || has "zoom"%string
          || has "meet"%string || has "mail"%string || has "outlook"%string || has "messages"%string
  then "communication"%string
  else if has "figma"%string || has "sketch"%string || has "photoshop"%string
          || has "illustrator"%string || has "affinity"%string || has "canva"%string
  then "design"%string
  else "other"%string.

End Window.

(* ------------------------------------------------------------------ *)
(** ** src/agent.ts *)

Module Agent.

(** The fields read from the parsed JSON object; a key that is missing
    or [null] is [None]. *)
Record ParsedAnalysis := mkParsed {
  pTaskDescription : option string;
  pSuggestedProjectId : option string;
  pConfidence : option Q;
  pCategory : option string;
  pNotes : option string
}.

(** The external calls: reading the image, the proxy's chat endpoint
    (text or vision model) and the agent SDK.  The prompt sent is a
    function of the window, the app category and the screenshot, which
    are what the calls receive here. *)
Record Backend := mkBackend {
  imageToBase64 : string -> Result string;
  callLLMProxy : bool -> WindowInfo -> string -> option string -> Result string;
  sdkQuery : WindowInfo -> string -> option string -> Result string
}.

Definition categoryName (c : WorkCategory) : string :=
  match c with
  | coding => "coding"
  | communication => "communication"
  | research => "research"
  | documentation => "documentation"
  | meeting => "meeting"
  | design => "design"
  | admin => "admin"
  | break => "break"
  | other => "other"
  end.

Definition validCategories : list WorkCategory :=
  [coding; communication; research; documentation; meeting; design;
   admin; break; other].

(** [validateCategory(category)] *)
Definition validateCategory (category : option string) : WorkCategory :=
  match category with
  | Some c =>
      if truthy (Some c) then
        nullish
          (find (fun k => String.eqb (categoryName k) c) validCategories)
          other
      else other
  | None => other
  end.

(** The own properties of the object literal [categoryMap] of
    [createFallbackAnalysis]. *)
Definition fallbackCategoryMap : list (string * WorkCategory) :=
  [("browser", research); ("editor", coding); ("terminal", coding);
   ("communication", communication); ("design", design);
   ("other", other)]%string.

(** The property names every object literal inherits from
    [Object.prototype]; each of them reads as a function, and [__proto__]
    as the prototype object, so none of them is [undefined] or [null]. *)
Definition objectPrototypeNames : list string :=
  ["constructor"; "__defineGetter__"; "__defineSetter__"; "hasOwnProperty";
   "__lookupGetter__"; "__lookupSetter__"; "isPrototypeOf";
   "propertyIsEnumerable"; "toString"; "valueOf"; "__proto__";
   "toLocaleString"]%string.

(** [categoryMap[appCategory]]: an own property of the literal, else a
    member inherited from [Object.prototype], else [undefined]. *)
Definition categoryMapGet (appCategory : string) : option CategoryValue :=
  match JsMap.get String.eqb appCategory fallbackCategoryMap with
  | Some category => Some (IsCategory category)
  | None =>
      if existsb (String.eqb appCategory) objectPrototypeNames
      then Some (InheritedMember appCategory)
      else None
  end.

(** [createFallbackAnalysis(windowInfo, appCategory)] *)
Definition createFallbackAnalysis (windowInfo : WindowInfo)
    (appCategory : string) : TaskAnalysis :=
  mkTaskAnalysis
    ("Working in " ++ wAppName windowInfo)%string
    None
    (3 # 10)%Q
    (nullish (categoryMapGet appCategory) (IsCategory other))
    (Some "Fallback analysis - AI unavailable"%string).

Fixpoint afterOpenBrace (s : string) : option string :=
  match s with
  | EmptyString => None
  | String c r => if Ascii.eqb c "{" then Some r else afterOpenBrace r
  end.

Fixpoint throughCloseBrace (s : string) : option string :=
  match s with
  | EmptyString => None
  | String c r =>
      if Ascii.eqb c "}" then Some (String c EmptyString)
      else option_map (String c) (throughCloseBrace r)
  end.

(** [result.match(/\{[\s\S]*?\}/)]: from the first opening brace
    through the first closing brace after it. *)
Definition matchJson (result : string) : option string :=
  match afterOpenBrace result with
  | Some r => option_map (String "{") (throughCloseBrace r)
  | None => None
  end.

Section WithJson.
(** [JSON.parse] followed by the reads of the five fields. *)
Variable jsonParse : string -> Result ParsedAnalysis.

(** [parseAnalysisResult(result, windowInfo, appCategory)] *)
Definition parseAnalysisResult (result : string)
    (windowInfo : WindowInfo) (appCategory : string) : TaskAnalysis :=
  match matchJson result with
  | Some jsonMatch =>
      match jsonParse jsonMatch with
      | Ok parsed =>
          mkTaskAnalysis
            (nullish (pTaskDescription parsed) "Unknown activity"%string)
            (pSuggestedProjectId parsed)
            (nullish (pConfidence parsed) (5 # 10)%Q)
            (validateCategory (pCategory parsed))
            (pNotes parsed)
      | Throw => createFallbackAnalysis windowInfo appCategory
      end
  | None => createFallbackAnalysis windowInfo appCategory
  end.

Variable backend : Backend.

(** The vision attempt of [analyzeTaskWithProxy]: the body of its
    inner [try]. *)
Definition visionAttempt (windowInfo : WindowInfo) (appCategory : string)
    (path : string) : Result TaskAnalysis :=
  match imageToBase64 backend path with
  | Ok imageBase64 =>
      match callLLMProxy backend true windowInfo appCategory
              (Some imageBase64) with
      | Ok result => Ok (parseAnalysisResult result windowInfo appCategory)
      | Throw => Throw
      end
  | Throw => Throw
  end.

Definition textAttempt (windowInfo : WindowInfo) (appCategory : string)
  : Result TaskAnalysis :=
  match callLLMProxy backend false windowInfo appCategory None with
  | Ok result => Ok (parseAnalysisResult result windowInfo appCategory)
  | Throw => Throw
  end.

(** [analyzeTaskWithProxy] *)
Definition analyzeTaskWithProxy (windowInfo : WindowInfo)
    (appCategory : string) (screenshotPath : option string)
  : Result TaskAnalysis :=
  match screenshotPath with
  | Some path =>
      if truthy screenshotPath
      then tryCatch (visionAttempt windowInfo appCategory path)
                    (textAttempt windowInfo appCategory)
      else textAttempt windowInfo appCategory
  | None => textAttempt windowInfo appCategory
  end.

(** [analyzeTaskWithClaudeSDK] *)
Definition analyzeTaskWithClaudeSDK (windowInfo : WindowInfo)
    (appCategory : string) (screenshotPath : option string)
  : Result TaskAnalysis :=
  tryCatch
    (match sdkQuery backend windowInfo appCategory screenshotPath with
     | Ok result => Ok (parseAnalysisResult result windowInfo appCategory)
     | Throw => Throw
     end)
    (Ok (createFallbackAnalysis windowInfo appCategory)).

(** [analyzeTask(windowInfo, appCategory, projects, screenshotPath)],
    with the configuration [loadConfig()] returned. *)
Definition analyzeTask (config : TrackerConfig) (windowInfo : WindowInfo)
    (appCategory : string) (screenshotPath : option string)
  : Result TaskAnalysis :=
  match llmProvider config with
  | Proxy =>
      if truthy (llmProxyUrl config) then
        tryCatch
          (analyzeTaskWithProxy windowInfo appCategory screenshotPath)
          (Ok (createFallbackAnalysis windowInfo appCategory))
      else analyzeTaskWithClaudeSDK windowInfo appCategory screenshotPath
  | ClaudeSdk =>
      analyzeTaskWithClaudeSDK windowInfo appCategory screenshotPath
  end.
End WithJson.

(** The chunks of [batchAnalyzeTasks]: [entries.slice(i, i + 3)] for
    [i = 0, 3, 6, ...] below the length. *)
Fixpoint chunksOf3 {A} (entries : list A) : list (list A) :=
  match entries with
  | [] => []
  | a :: rest1 =>
      match rest1 with
      | [] => [[a]]
      | b :: rest2 =>
          match rest2 with
          | [] => [[a; b]]
          | c :: rest3 => [a; b; c] :: chunksOf3 rest3
          end
      end
  end.

Record BatchEntry := mkBatchEntry {
  beId : Z;
  beWindowInfo : WindowInfo;
  beAppCategory : string;
  beScreenshotPath : option string
}.

Section Batch.
Variable jsonParse : string -> Result ParsedAnalysis.
Variable backend : Backend.
Variable config : TrackerConfig.

(** The order in which the calls of a chunk complete: [Promise.all]
    starts them together and each writes its result when it is done. *)
Variable completion : list BatchEntry -> list BatchEntry.

(** One call of a chunk: analyse, then [results.set(entry.id, analysis)];
    a throw rejects the [Promise.all] and with it the batch. *)
Definition batchOne (results : Result (JsMap.t (K := Z) (V := TaskAnalysis)))
    (entry : BatchEntry) : Result (JsMap.t (K := Z) (V := TaskAnalysis)) :=
  match results with
  | Ok m =>
      match analyzeTask jsonParse backend config (beWindowInfo entry)
              (beAppCategory entry) (beScreenshotPath entry) with
      | Ok analysis => Ok (JsMap.set Z.eqb (beId entry) analysis m)
      | Throw => Throw
      end
  | Throw => Throw
  end.

(** [batchAnalyzeTasks(entries, projects)] *)
Definition batchAnalyzeTasks (entries : list BatchEntry)
  : Result (JsMap.t (K := Z) (V := TaskAnalysis)) :=
  fold_left
    (fun results chunk => fold_left batchOne (completion chunk) results)
    (chunksOf3 entries) (Ok JsMap.empty).
End Batch.

End Agent.

(* ------------------------------------------------------------------ *)
(** ** src/reports/weekly.ts *)

Module Weekly.

(** [getWeekStart(date)] *)
Definition getWeekStart (date : Z) : Z :=
  let d := date in
  let day := JsDate.getDay d in
  let diff := JsDate.getDate d - day + (if day =? 0 then -6 else 1) in
  let d := JsDate.setDate d diff in
  JsDate.setHoursZero d.

(** [getWeekEnd(weekStart)] *)
Definition getWeekEnd (weekStart : Z) : Z :=
  let e := weekStart in
  let e := JsDate.setDate e (JsDate.getDate e + 6) in
  JsDate.setHoursEndOfDay e.

(** [seconds / 3600] *)
Definition hoursOf (seconds : Z) : Q := (inject_Z seconds / 3600)%Q.

Record WeekChange := mkWeekChange {
  hoursChange : Q;
  hoursChangePercent : Q;
  projectChanges : JsMap.t (K := string) (V := Q)
}.

(** [calculateWeekChange(currentWeek, previousWeek)] *)
Definition calculateWeekChange (currentWeek previousWeek : WeeklyReport)
  : WeekChange :=
  let hoursChange := (totalHours currentWeek - totalHours previousWeek)%Q in
  let hoursChangePercent :=
    if negb (Qle_bool (totalHours previousWeek) 0)
    then (hoursChange / totalHours previousWeek * 100)%Q
    else 0%Q in
  let prevProjectMap :=
    JsMap.ofList String.eqb
      (map (fun p => (ptProjectId p, hoursOf (ptSeconds p)))
           (projectTotals previousWeek)) in
  let projectChanges :=
    fold_left
      (fun changes project =>
         let prevHours :=
           nullish (JsMap.get String.eqb (ptProjectId project) prevProjectMap)
                   0%Q in
         let currentHours := hoursOf (ptSeconds project) in
         JsMap.set String.eqb (ptProjectId project)
           (currentHours - prevHours)%Q changes)
      (projectTotals currentWeek) JsMap.empty in
  mkWeekChange hoursChange hoursChangePercent projectChanges.

(** The loop [while (currentDate <= weekEnd)] of
    [generateWeeklyReport]; [None] when the fuel runs out before the
    loop ends. *)
Fixpoint dailyLoop (fuel : nat) (currentDate weekEnd : Z) (db : Database.t)
  : option (list DailySummary) :=
  if currentDate <=? weekEnd then
    match fuel with
    | O => None
    | S fuel' =>
        option_map (cons (Database.getDailySummary currentDate db))
          (dailyLoop fuel'
             (JsDate.setDate currentDate (JsDate.getDate currentDate + 1))
             weekEnd db)
    end
  else Some [].

(** [existing.seconds += seconds; existing.entries += entries; set] *)
Definition mergeBucket {K} (eqb : K -> K -> bool) (k : K) (sec ent : Z)
    (m : JsMap.t (K := K) (V := Database.Bucket)) : JsMap.t :=
  let existing := nullish (JsMap.get eqb k m) (Database.mkBucket 0 0) in
  JsMap.set eqb k
    (Database.mkBucket (Database.seconds existing + sec)
                       (Database.entries existing + ent)) m.

Definition projectTotalsMap (days : list DailySummary)
  : JsMap.t (K := string) (V := Database.Bucket) :=
  fold_left
    (fun m day =>
       fold_left
         (fun m project =>
            mergeBucket String.eqb (ptProjectId project) (ptSeconds project)
              (ptEntries project) m)
         (projectBreakdown day) m)
    days JsMap.empty.

Definition categoryTotalsMap (days : list DailySummary)
  : JsMap.t (K := WorkCategory) (V := Database.Bucket) :=
  fold_left
    (fun m day =>
       fold_left
         (fun m category =>
            mergeBucket WorkCategory_eqb (ctCategory category)
              (ctSeconds category) (ctEntries category) m)
         (categoryBreakdown day) m)
    days JsMap.empty.

(** [generateWeeklyReport(weekStartDate?)], with the clock reading, the
    projects of the configuration and the table. *)
Definition generateWeeklyReport (fuel : nat) (weekStartDate : option Z)
    (now : Z) (projects : list Project) (db : Database.t)
  : option WeeklyReport :=
  let weekStart := nullish weekStartDate (getWeekStart now) in
  let weekEnd := getWeekEnd weekStart in
  let projectMap := JsMap.ofList String.eqb (map (fun p => (pId p, p)) projects) in
  match dailyLoop fuel weekStart weekEnd db with
  | None => None
  | Some dailySummaries =>
      let projectTotals :=
        map (fun '(id, data) =>
               mkProjectTime id
                 (nullish (option_map pName (JsMap.get String.eqb id projectMap)) id)
                 (Database.seconds data) (Database.entries data))
            (JsMap.entries (projectTotalsMap dailySummaries)) in
      let categoryTotals :=
        map (fun '(category, data) =>
               mkCategoryTime category (Database.seconds data)
                 (Database.entries data))
            (JsMap.entries (categoryTotalsMap dailySummaries)) in
      let totalSeconds :=
        fold_left (fun sum day => sum + activeSeconds day) dailySummaries 0 in
      Some (mkWeeklyReport weekStart weekEnd
              (inject_Z totalSeconds / 3600)%Q
              dailySummaries
              (stableSort (fun a b => ptSeconds b <=? ptSeconds a) projectTotals)
              (stableSort (fun a b => ctSeconds b <=? ctSeconds a) categoryTotals))
  end.

End Weekly.

(* ------------------------------------------------------------------ *)
(** ** src/index.ts: the capture cycle *)

Module Tracker.

(** What one call of [captureAndAnalyze] reads from outside: the clock
    and the three probes. *)
Record Probes := mkProbes {
  now : Z;
  probeIdleSeconds : Z;
  probeActiveWindow : option WindowInfo;
  probeScreenshot : Result string
}.

(** The store calls a cycle makes, in the order it makes them. *)
Inductive DbOp :=
| OpUpdatePreviousEntryDuration (currentTimestamp : Z)
| OpInsertTimeEntry (entry : TimeEntry).

Definition applyOp (db : Database.t) (op : DbOp) : Database.t :=
  match op with
  | OpUpdatePreviousEntryDuration ts =>
      Database.updatePreviousEntryDuration ts db
  | OpInsertTimeEntry e => snd (Database.insertTimeEntry e db)
  end.

(** The entry literal passed to [insertTimeEntry]. *)
Definition newEntry (now : Z) (windowInfo : WindowInfo)
    (screenshotPath : option string) : TimeEntry :=
  mkTimeEntry 0 now (wAppName windowInfo) (wTitle windowInfo)
    screenshotPath None None None None false None.

(** The body of [captureAndAnalyze(config)] up to the dispatch of the
    analysis, as the sequence of store calls it performs. *)
Definition captureOps (config : TrackerConfig) (p : Probes) : list DbOp :=
  let idleState := Idle.checkIdleState config (probeIdleSeconds p) in
  if Idle.stIsIdle idleState then []
  else
    match probeActiveWindow p with
    | None => []
    | Some windowInfo =>
        if Window.shouldExcludeWindow windowInfo config then []
        else
          let screenshotPath :=
            match probeScreenshot p with
            | Ok filePath => Some filePath
            | Throw => None
            end in
          [OpUpdatePreviousEntryDuration (now p);
           OpInsertTimeEntry (newEntry (now p) windowInfo screenshotPath)]
    end.

Definition captureAndAnalyze (config : TrackerConfig) (p : Probes)
    (db : Database.t) : Database.t :=
  fold_left applyOp (captureOps config p) db.

(** What happens to the store while the tracker runs: a capture cycle,
    or the completion of an analysis dispatched by an earlier cycle,
    which writes [JSON.stringify(analysis)] onto the entry. *)
Inductive Event :=
| Cycle (p : Probes)
| AnalysisDone (entryId : Z) (analysis : TaskAnalysis) (json : string).

Definition step (config : TrackerConfig) (db : Database.t) (ev : Event)
  : Database.t :=
  match ev with
  | Cycle p => captureAndAnalyze config p db
  | AnalysisDone entryId analysis json =>
      Database.updateEntryAnalysis entryId (aTaskDescription analysis)
        (aSuggestedProjectId analysis) json db
  end.

Definition run (config : TrackerConfig) (evs : list Event) : Database.t :=
  fold_left (step config) evs Database.initDatabase.

(** The clock readings of the cycles of a run, in order. *)
Definition cycleTimes (evs : list Event) : list Z :=
  flat_map (fun ev => match ev with
                      | Cycle p => [now p]
                      | AnalysisDone _ _ _ => []
                      end) evs.

End Tracker.

(* ------------------------------------------------------------------ *)
(** ** src/index.ts: the exclusion list of [config exclude] and
       [config include] *)

Module Cli.

(** [config exclude <app>], with [appName] the argument [args[1]]
    ([None] when it is missing): the list handed to [saveConfig], or
    [None] when the command saves nothing, which is the case for a
    missing or empty argument (the usage line) and for a name already
    on the list. *)
Definition configExclude (appName : option string)
    (excludedApps : list string) : option (list string) :=
  match appName with
  | Some name =>
      if negb (truthy appName) then None
      else if negb (existsb (String.eqb name) excludedApps)
           then Some (excludedApps ++ [name])
           else None
  | None => None
  end.

(** [splice(indexOf(appName), 1)]: the first occurrence removed. *)
Fixpoint removeFirst (appName : string) (l : list string) : list string :=
  match l with
  | [] => []
  | x :: rest =>
      if String.eqb x appName then rest else x :: removeFirst appName rest
  end.

(** [config include <app>]: the list handed to [saveConfig], or [None]
    when the command saves nothing (a missing or empty argument, or a
    name that is not on the list). *)
Definition configInclude (appName : option string)
    (excludedApps : list string) : option (list string) :=
  match appName with
  | Some name =>
      if negb (truthy appName) then None
      else if existsb (String.eqb name) excludedApps
           then Some (removeFirst name excludedApps)
           else None
  | None => None
  end.

(** The exclusion list in the configuration file after a command that
    was run on the list [excludedApps]. *)
Definition savedList (saved : option (list string))
    (excludedApps : list string) : list string :=
  nullish saved excludedApps.

Definition withExcludedApps (config : TrackerConfig) (l : list string)
  : TrackerConfig :=
  mkTrackerConfig (captureIntervalMinutes config) (idleThresholdSeconds config)
    l (llmProvider config) (llmProxyUrl config).

End Cli.

(* ------------------------------------------------------------------ *)
(** ** src/config/settings.ts *)

Module Settings.

(** A JavaScript number as [validateConfig] may receive it: a finite
    value (every finite double is a rational), [NaN] (what [parseInt]
    gives the [config set] command for a value that is not numeric), or
    an infinity. *)
Inductive JsNumber :=
| Finite (q : Q)
| NaN
| PosInfinity
| NegInfinity.

(** [a < b] on numbers; a comparison with [NaN] is false. *)
Definition jsLt (a b : JsNumber) : bool :=
  match a, b with
  | NaN, _ | _, NaN => false
  | PosInfinity, _ => false
  | _, NegInfinity => false
  | Finite x, Finite y =>
      match (x ?= y)%Q with
      | Lt => true
      | _ => false
      end
  | Finite _, PosInfinity => true
  | NegInfinity, _ => true
  end.

(** The three fields of a [Partial<TrackerConfig>] that [validateConfig]
    reads; [None] is [undefined]. *)
Record PartialConfig := mkPartialConfig {
  uCaptureIntervalMinutes : option JsNumber;
  uIdleThresholdSeconds : option JsNumber;
  uBlurIntensity : option JsNumber
}.

(** [v !== undefined && (v < lo || v > hi)] *)
Definition outOfRange (v : option JsNumber) (lo hi : Q) : bool :=
  match v with
  | Some x => jsLt x (Finite lo) || jsLt (Finite hi) x
  | None => false
  end.

(** [validateConfig(config)] *)
Definition validateConfig (config : PartialConfig) : list string :=
  (if outOfRange (uCaptureIntervalMinutes config) 1 60
   then ["Capture interval must be between 1 and 60 minutes"%string] else [])
  ++ (if outOfRange (uIdleThresholdSeconds config) 30 3600
      then ["Idle threshold must be between 30 and 3600 seconds"%string]
      else [])
  ++ (if outOfRange (uBlurIntensity config) 0 100
      then ["Blur intensity must be between 0 and 100"%string] else []).

(** [addProject(project)] on the project list of the configuration
    loaded; the list saved, or a throw when the id is taken. *)
Definition addProject (project : Project) (projects : list Project)
  : Result (list Project) :=
  if existsb (fun p => String.eqb (pId p) (pId project)) projects
  then Throw
  else Ok (projects ++ [project]).

(** [removeProject(projectId)]: the list saved. *)
Definition removeProject (projectId : string) (projects : list Project)
  : list Project :=
  filter (fun p => negb (String.eqb (pId p) projectId)) projects.

(** [getProject(projectId)] *)
Definition getProject (projectId : string) (projects : list Project)
  : option Project :=
  find (fun p => String.eqb (pId p) projectId) projects.

End Settings.

(* ------------------------------------------------------------------ *)
(** ** src/reports/export.ts *)

Module ExportCsv.

Definition quote : ascii := ascii_of_nat 34.
Definition comma : ascii := ascii_of_nat 44.
Definition newline : ascii := ascii_of_nat 10.

(** The [replace] of [escapeCSV]: every double quote written twice. *)
Fixpoint doubleQuotes (value : string) : string :=
  match value with
  | EmptyString => EmptyString
  | String c r =>
      if Ascii.eqb c quote
      then String quote (String quote (doubleQuotes r))
      else String c (doubleQuotes r)
  end.

(** [escapeCSV(value)] *)
Definition escapeCSV (value : string) : string :=
  if Window.includes value (String comma EmptyString)
     || Window.includes value (String quote EmptyString)
     || Window.includes value (String newline EmptyString)
  then String quote (doubleQuotes value ++ String quote EmptyString)
  else value.

End ExportCsv.

(* ================================================================== *)
(** * Definitions used to state the properties *)

Import Database.

(** ** Appending a sequence of entries, closing the open duration before
       each append *)

Definition appendClosing (db : Database.t) (e : TimeEntry) : Database.t :=
  snd (insertTimeEntry e (updatePreviousEntryDuration (timestamp e) db)).

Definition appendSequence (es : list TimeEntry) : Database.t :=
  fold_left appendClosing es initDatabase.

(** The rows that follow an open row [x] with id [n] once [es] has been
    appended after it. *)
Fixpoint closeChain (x : TimeEntry) (es : list TimeEntry) (n : Z)
  : list TimeEntry :=
  match es with
  | [] => [x]
  | e :: es' =>
      setDuration ((timestamp e - timestamp x) / 1000) x
      :: closeChain (withId (n + 1) e) es' (n + 1)
  end.

(** ** The open entry *)

Definition isOpen (r : TimeEntry) : bool :=
  match durationSeconds r with
  | None => true
  | Some _ => false
  end.

(** The shape of the table while the tracker runs with a clock that does
    not go back: ids and timestamps are bounded, closed durations are not
    negative, and every row but the last is closed, older than the last
    and at most as recent. *)
Definition Timeline (bound : Z) (db : Database.t) : Prop :=
  Forall (fun r => id r <= lastRowid db
                   /\ timestamp r <= bound
                   /\ (forall d, durationSeconds r = Some d -> 0 <= d))
         (rows db)
  /\ (rows db = []
      \/ exists rs x,
           rows db = rs ++ [x]
           /\ Forall (fun r => isOpen r = false
                               /\ id r < id x
                               /\ timestamp r <= timestamp x) rs).

(** ** Hours of a project in a list of project totals *)

(** The entry a [Map] built from the list keeps for the project: the last
    one with that id (in a weekly report ids are not repeated). *)
Definition lastProject (p : string) (totals : list ProjectTime)
  : option ProjectTime :=
  find (fun q => String.eqb (ptProjectId q) p) (rev totals).

Definition hoursIn (p : string) (totals : list ProjectTime) : option Q :=
  option_map (fun q => Weekly.hoursOf (ptSeconds q)) (lastProject p totals).

(** ** Idle transitions, as the specification words them: a check counts
       when its idle state differs from the idle state of the check
       before it (not idle before the first check). *)
Fixpoint transitions (threshold : Z) (previous : bool) (readings : list Z)
  : list (bool * Z) :=
  match readings with
  | [] => []
  | r :: rest =>
      let current := threshold <=? r in
      (if Bool.eqb current previous then [] else [(current, r)])
      ++ transitions threshold current rest
  end.

(** ** JSON text of a classification payload with the given category *)

Definition quoted (s : string) : string :=
  let dq := String (ascii_of_nat 34) EmptyString in
  (dq ++ s ++ dq)%string.

Definition categoryPayload (category : string) : string :=
  ("{" ++ quoted "category" ++ ":" ++ quoted category ++ "}")%string.

(** ** Sums, buckets and the shape of the store *)

Definition sumZ (l : list Z) : Z := fold_right Z.add 0 l.

(** Duration an entry contributes to a summary. *)
Definition durationOf (e : TimeEntry) : Z := nullish (durationSeconds e) 0.

(** The non-idle entries of a list that fall under key [k] of [key]. *)
Definition bucketOf (key : TimeEntry -> string) (k : string)
    (es : list TimeEntry) : list TimeEntry :=
  filter (fun e => negb (isIdle e) && String.eqb (key e) k) es.

(** The bucket updates the summary loop makes for one of its maps, the
    key being the entry's project or its app. *)
Definition bumpAll (key : TimeEntry -> string) (es : list TimeEntry)
    (m : JsMap.t) : JsMap.t :=
  fold_left (fun m e => if isIdle e then m else bump (key e) (durationOf e) m)
            es m.

(** Ids are distinct, positive and not beyond the AUTOINCREMENT counter. *)
Definition WellFormed (db : Database.t) : Prop :=
  NoDup (map id (rows db))
  /\ 0 <= lastRowid db
  /\ Forall (fun r => 0 < id r <= lastRowid db) (rows db).

(** The calls the program makes on the store. *)
Inductive DbCall :=
| CallInsert (entry : TimeEntry)
| CallUpdatePrevious (currentTimestamp : Z)
| CallUpdateAnalysis (entryId : Z) (td : string) (pid : option string)
    (ai : string)
| CallSetManualProject (entryId : Z) (p : string)
| CallDeleteOld (now retentionDays : Z).

Definition applyCall (db : Database.t) (c : DbCall) : Database.t :=
  match c with
  | CallInsert e => snd (insertTimeEntry e db)
  | CallUpdatePrevious ts => updatePreviousEntryDuration ts db
  | CallUpdateAnalysis i td pid ai => updateEntryAnalysis i td pid ai db
  | CallSetManualProject i p => setManualProject i p db
  | CallDeleteOld now days => snd (deleteOldEntries now days db)
  end.

Definition isInsert (c : DbCall) : bool :=
  match c with
  | CallInsert _ => true
  | _ => false
  end.

(** The fields of an entry an analysis write-back leaves alone. *)
Definition outsideAnalysis (r : TimeEntry)
  : Z * Z * string * string * option string * option string * option Z * bool :=
  (id r, timestamp r, appName r, windowTitle r, screenshotPath r,
   manualProjectId r, durationSeconds r, isIdle r).

(** Two running totals of the summary loop that differ at most in the
    project buckets. *)
Definition sameButProjects (a b : Totals) : Prop :=
  accTotal a = accTotal b /\ accIdle a = accIdle b
  /\ accActive a = accActive b /\ appMap a = appMap b
  /\ categoryMap a = categoryMap b.

(** ** Runs of the tracker *)

(** Whether a cycle passes the three gates of [captureAndAnalyze]: user
    not idle, an active window, app not excluded. *)
Definition cycleRuns (config : TrackerConfig) (p : Tracker.Probes) : bool :=
  negb (idleThresholdSeconds config <=? Tracker.probeIdleSeconds p)
  && match Tracker.probeActiveWindow p with
     | Some w => negb (Window.shouldExcludeWindow w config)
     | None => false
     end.

(** What a capture fixes in an entry for good. *)
Definition captureOf (r : TimeEntry)
  : Z * string * string * option string * bool :=
  (timestamp r, appName r, windowTitle r, screenshotPath r, isIdle r).

(** The captures the cycles of a run make, in order. *)
Definition captured (config : TrackerConfig) (evs : list Tracker.Event)
  : list (Z * string * string * option string * bool) :=
  flat_map
    (fun ev =>
       match ev with
       | Tracker.Cycle p =>
           match Tracker.probeActiveWindow p with
           | Some w =>
               if cycleRuns config p
               then [(Tracker.now p, wAppName w, wTitle w,
                      match Tracker.probeScreenshot p with
                      | Ok filePath => Some filePath
                      | Throw => None
                      end, false)]
               else []
           | None => []
           end
       | Tracker.AnalysisDone _ _ _ => []
       end) evs.

(** The ids [n + 1 .. n + k]. *)
Fixpoint idsFrom (n : Z) (k : nat) : list Z :=
  match k with
  | O => []
  | S k' => (n + 1) :: idsFrom (n + 1) k'
  end.

(** Every row but the last is closed with the whole seconds up to the
    row after it. *)
Fixpoint chained (rs : list TimeEntry) : Prop :=
  match rs with
  | a :: (b :: _) as rest =>
      durationSeconds a = Some ((timestamp b - timestamp a) / 1000)
      /\ chained rest
  | _ => True
  end.

(** ** Strings *)

Fixpoint hasChar (c : ascii) (s : string) : bool :=
  match s with
  | EmptyString => false
  | String x r => Ascii.eqb x c || hasChar c r
  end.

(** [start], [not start], [start], ... of length [n]. *)
Fixpoint alternating (start : bool) (n : nat) : list bool :=
  match n with
  | O => []
  | S n' => start :: alternating (negb start) n'
  end.

(** ** Reading a CSV field back: a field that opens with a double
       quote runs to its closing quote, two quotes in a row standing for
       one; any other field is taken as it is. *)

Fixpoint readQuoted (s : string) : string :=
  match s with
  | EmptyString => EmptyString
  | String c r =>
      if Ascii.eqb c ExportCsv.quote then
        match r with
        | String c2 r2 =>
            if Ascii.eqb c2 ExportCsv.quote
            then String ExportCsv.quote (readQuoted r2)
            else EmptyString
        | EmptyString => EmptyString
        end
      else String c (readQuoted r)
  end.

Definition readCSVField (s : string) : string :=
  match s with
  | String c r => if Ascii.eqb c ExportCsv.quote then readQuoted r else s
  | EmptyString => EmptyString
  end.

(** ** The rows of one project in a week *)

(** The rows of project [id] in the project breakdowns of the days of a
    week, in the order of the days. *)
Definition weekRowsOf (id : string) (days : list DailySummary)
  : list ProjectTime :=
  filter (fun pt => String.eqb (ptProjectId pt) id)
         (List.concat (map projectBreakdown days)).

(** ** Values that pass validation *)

(** A number [validateConfig] lets through for the range [lo..hi]: a
    finite value within the range, or [NaN]. *)
Definition passesRange (lo hi : Q) (v : Settings.JsNumber) : Prop :=
  match v with
  | Settings.Finite q => (lo <= q)%Q /\ (q <= hi)%Q
  | Settings.NaN => True
  | Settings.PosInfinity | Settings.NegInfinity => False
  end.

(** ** The backend path of [analyzeTask] *)

(** The test [config.llmProvider === "proxy" && config.llmProxyUrl]. *)
Definition usesProxy (config : TrackerConfig) : bool :=
  match llmProvider config with
  | Proxy => truthy (llmProxyUrl config)
  | ClaudeSdk => false
  end.

(* ================================================================== *)
(** * Properties *)

(** ** The store: the most recent entry and the duration back-fill *)

Section StoreLemmas.

Lemma lastEntryOf_fold_In (rs : list TimeEntry) (acc : option TimeEntry) a :
  fold_left
    (fun acc r =>
       match acc with
       | None => Some r
       | Some a => if timestamp a <=? timestamp r then Some r else Some a
       end) rs acc = Some a ->
  acc = Some a \/ In a rs.
Proof.
  revert acc. induction rs as [|r rs IH]; intros acc H; simpl in *.
  - now left.
  - apply IH in H. destruct H as [H|H]; [|now right; right].
    destruct acc as [b|].
    + destruct (timestamp b <=? timestamp r); inversion H; subst; auto.
    + inversion H; subst; auto.
Qed.

(** A row appended after rows that are not later than it is the most
    recent entry. *)
Lemma lastEntryOf_snoc (rs : list TimeEntry) (x : TimeEntry) :
  Forall (fun r => timestamp r <= timestamp x) rs ->
  lastEntryOf (rs ++ [x]) = Some x.
Proof.
  intros Hle. unfold lastEntryOf. rewrite fold_left_app. simpl.
  match goal with |- context [fold_left ?f rs None] =>
    destruct (fold_left f rs None) as [a|] eqn:E end; [|reflexivity].
  apply lastEntryOf_fold_In in E. destruct E as [E|E]; [discriminate|].
  rewrite Forall_forall in Hle. apply Hle in E.
  apply Z.leb_le in E. now rewrite E.
Qed.

Lemma lastEntryOf_In (rs : list TimeEntry) a :
  lastEntryOf rs = Some a -> In a rs.
Proof.
  intros H. apply lastEntryOf_fold_In in H.
  destruct H as [H|H]; [discriminate|exact H].
Qed.

Lemma updateDurationWhereId_other d i (rs : list TimeEntry) :
  Forall (fun r => id r <> i) rs -> updateDurationWhereId d i rs = rs.
Proof.
  induction 1 as [|r rs Hr _ IH]; simpl; [reflexivity|].
  apply Z.eqb_neq in Hr. rewrite Hr. now rewrite IH.
Qed.

(** The back-fill on a timeline whose last row is the most recent one
    and has an id of its own rewrites that row and no other. *)
Lemma updatePreviousEntryDuration_snoc now rs x n :
  Forall (fun r => id r < id x /\ timestamp r <= timestamp x) rs ->
  updatePreviousEntryDuration now (mkDb (rs ++ [x]) n)
  = mkDb (rs ++ [setDuration ((now - timestamp x) / 1000) x]) n.
Proof.
  intros H. unfold updatePreviousEntryDuration. simpl.
  rewrite lastEntryOf_snoc.
  2:{ eapply Forall_impl; [|exact H]. simpl. intros; tauto. }
  f_equal. unfold updateDurationWhereId. rewrite map_app. simpl.
  rewrite Z.eqb_refl. f_equal.
  apply updateDurationWhereId_other.
  eapply Forall_impl; [|exact H]. simpl. intros; lia.
Qed.

Lemma updatePreviousEntryDuration_empty now n :
  updatePreviousEntryDuration now (mkDb [] n) = mkDb [] n.
Proof. reflexivity. Qed.

End StoreLemmas.

Lemma appendClosing_chain (es : list TimeEntry) :
  forall rs x n,
    Forall (fun r => id r < id x /\ timestamp r <= timestamp x) rs ->
    id x = n ->
    Sorted Z.lt (map timestamp (x :: es)) ->
    rows (fold_left appendClosing es (mkDb (rs ++ [x]) n))
    = rs ++ closeChain x es n.
Proof.
  induction es as [|e es IH]; intros rs x n Hrs Hid Hs; simpl.
  - reflexivity.
  - unfold appendClosing at 2.
    rewrite updatePreviousEntryDuration_snoc by exact Hrs.
    unfold insertTimeEntry. simpl.
    simpl in Hs. inversion Hs as [|? ? Hs' Hhd]; subst.
    inversion Hhd as [|? ? Hlt]; subst.
    rewrite IH.
    + now rewrite <- app_assoc.
    + apply Forall_app. split.
      * eapply Forall_impl; [|exact Hrs]. simpl. intros; lia.
      * constructor; [simpl; lia|constructor].
    + reflexivity.
    + exact Hs'.
Qed.

Lemma nth_error_closeChain (es : list TimeEntry) :
  forall x n i ei,
    nth_error (x :: es) i = Some ei ->
    exists ri,
      nth_error (closeChain x es n) i = Some ri
      /\ timestamp ri = timestamp ei
      /\ durationSeconds ri
         = match nth_error es i with
           | Some e' => Some ((timestamp e' - timestamp ei) / 1000)
           | None => durationSeconds ei
           end.
Proof.
  induction es as [|e es IH]; intros x n i ei H.
  - destruct i as [|i]; simpl in *.
    + inversion H; subst. eauto.
    + destruct i; discriminate.
  - destruct i as [|i].
    + simpl in *. inversion H; subst. eexists; repeat split.
    + simpl in H. destruct i as [|i].
      * simpl in H. inversion H; subst.
        destruct (IH (withId (n + 1) ei) (n + 1) 0%nat _ eq_refl)
          as (ri & H1 & H2 & H3).
        exists ri. simpl in *. repeat split; assumption.
      * destruct (IH (withId (n + 1) e) (n + 1) (S i) ei H)
          as (ri & H1 & H2 & H3).
        exists ri. simpl in *. repeat split; assumption.
Qed.

Lemma length_closeChain es : forall x n,
  List.length (closeChain x es n) = S (List.length es).
Proof. induction es; intros; simpl; [|rewrite IHes]; reflexivity. Qed.

(** C2.  Appending entries [e1 .. eN] with strictly increasing timestamps
    to an empty store, each append preceded by
    [updatePreviousEntryDuration] at the new entry's timestamp, leaves
    row [i] with duration [floor((t_{i+1} - t_i) / 1000)] for [i < N] and
    the last row with a null duration; on an empty store
    [updatePreviousEntryDuration] changes nothing. *)
Theorem durations_closed_in_order (es : list TimeEntry) :
  Forall (fun e => durationSeconds e = None) es ->
  Sorted Z.lt (map timestamp es) ->
  let rs := rows (appendSequence es) in
  List.length rs = List.length es
  /\ (forall i ei,
        nth_error es i = Some ei ->
        exists ri,
          nth_error rs i = Some ri
          /\ timestamp ri = timestamp ei
          /\ durationSeconds ri
             = match nth_error es (S i) with
               | Some e' => Some ((timestamp e' - timestamp ei) / 1000)
               | None => None
               end)
  /\ (forall now n,
        updatePreviousEntryDuration now (mkDb [] n) = mkDb [] n).
Proof.
  intros Hnull Hs rs. subst rs.
  destruct es as [|e es].
  - simpl. repeat split; intros.
    destruct i; discriminate.
  - assert (E : rows (appendSequence (e :: es)) = closeChain (withId 1 e) es 1).
    { unfold appendSequence. simpl fold_left.
      unfold appendClosing at 2. simpl.
      change (mkDb [withId 1 e] 1) with (mkDb ([] ++ [withId 1 e]) 1).
      rewrite appendClosing_chain; auto. }
    rewrite E. split; [|split].
    + rewrite length_closeChain. reflexivity.
    + intros i ei Hi.
      assert (Hi' : exists ei', nth_error (withId 1 e :: es) i = Some ei'
                /\ timestamp ei' = timestamp ei
                /\ durationSeconds ei' = None).
      { rewrite Forall_forall in Hnull.
        pose proof (Hnull _ (nth_error_In _ _ Hi)) as Hn.
        destruct i; simpl in *.
        - inversion Hi; subst. eexists; repeat split. exact Hn.
        - eauto. }
      destruct Hi' as (ei' & Hi' & Hts & Hd).
      destruct (nth_error_closeChain es (withId 1 e) 1 i ei' Hi')
        as (ri & H1 & H2 & H3).
      exists ri. split; [exact H1|]. split; [congruence|].
      rewrite H3. simpl. rewrite Hts, Hd. reflexivity.
    + reflexivity.
Qed.

(** A run of [durations_closed_in_order] on three entries taken at
    09:00:00.000, 09:30:00.500 and 10:00:00.000. *)
Lemma durations_closed_in_order_witness :
  let e t := mkTimeEntry 0 t "App" "w" None None None None None false None in
  let es := [e 32400000; e 34200500; e 36000000] in
  map durationSeconds (rows (appendSequence es)) = [Some 1800; Some 1799; None]
  /\ List.length (rows (appendSequence es)) = List.length es.
Proof.
  intros e es.
  assert (Hn : Forall (fun e => durationSeconds e = None) es)
    by (repeat constructor).
  assert (Hs : Sorted Z.lt (map timestamp es))
    by (repeat constructor; simpl; lia).
  pose proof (durations_closed_in_order es Hn Hs) as [Hlen _].
  split; [reflexivity|exact Hlen].
Defined.

(** ** The timeline invariant of the capture cycle *)

Section TimelineLemmas.

Variable config : TrackerConfig.

Lemma Timeline_init bound : Timeline bound initDatabase.
Proof. split; [constructor|now left]. Qed.

Lemma Timeline_weaken b b' db : b <= b' -> Timeline b db -> Timeline b' db.
Proof.
  intros Hb [H1 H2]. split; [|exact H2].
  eapply Forall_impl; [|exact H1]. simpl. intros r (?&?&?).
  repeat split; auto; lia.
Qed.

Lemma captureOps_shape (p : Tracker.Probes) :
  Tracker.captureOps config p = []
  \/ exists w s,
       Tracker.captureOps config p
       = [Tracker.OpUpdatePreviousEntryDuration (Tracker.now p);
          Tracker.OpInsertTimeEntry (Tracker.newEntry (Tracker.now p) w s)].
Proof.
  unfold Tracker.captureOps.
  destruct (Idle.stIsIdle _); [now left|].
  destruct (Tracker.probeActiveWindow p) as [w|]; [|now left].
  destruct (Window.shouldExcludeWindow w config); [now left|].
  right. eauto.
Qed.

Lemma Timeline_capture b (p : Tracker.Probes) db :
  b <= Tracker.now p ->
  Timeline b db ->
  Timeline (Tracker.now p) (Tracker.captureAndAnalyze config p db).
Proof.
  intros Hb HT. unfold Tracker.captureAndAnalyze.
  destruct (captureOps_shape p) as [E|(w & s & E)]; rewrite E; simpl.
  - eapply Timeline_weaken; eauto.
  - destruct db as [rws n]. destruct HT as [H1 H2]. simpl in *.
    destruct H2 as [->|(rs & x & -> & Hrs)].
    + unfold updatePreviousEntryDuration, insertTimeEntry. simpl.
      split; simpl.
      * constructor; [|constructor]. simpl.
        repeat split; try lia. discriminate.
      * right. exists [], (withId (n + 1) (Tracker.newEntry (Tracker.now p) w s)).
        split; [reflexivity|constructor].
    + rewrite updatePreviousEntryDuration_snoc.
      2:{ eapply Forall_impl; [|exact Hrs]. simpl. intros; tauto. }
      unfold insertTimeEntry. simpl.
      apply Forall_app in H1. destruct H1 as [H1 Hx].
      inversion Hx as [|? ? (Hx1 & Hx2 & Hx3) _]; subst.
      rewrite Forall_forall in H1, Hrs.
      split; simpl.
      * rewrite !Forall_app. repeat split.
        -- apply Forall_forall. intros r Hr.
           destruct (H1 r Hr) as (?&?&?). repeat split; auto; lia.
        -- constructor; [|constructor]. simpl. repeat split; try lia.
           intros d Hd. inversion Hd; subst. apply Z.div_pos; lia.
        -- constructor; [|constructor]. simpl.
           repeat split; try lia. discriminate.
      * right. eexists _, _. split; [reflexivity|].
        apply Forall_app. split.
        -- apply Forall_forall. intros r Hr.
           destruct (H1 r Hr) as (?&?&?). destruct (Hrs r Hr) as (?&?&?).
           simpl. repeat split; auto; lia.
        -- constructor; [|constructor]. simpl. repeat split; lia.
Qed.

Lemma map_preserves_Timeline b db (f : TimeEntry -> TimeEntry) :
  (forall r, id (f r) = id r /\ timestamp (f r) = timestamp r
             /\ durationSeconds (f r) = durationSeconds r) ->
  Timeline b db ->
  Timeline b (mkDb (map f (rows db)) (lastRowid db)).
Proof.
  intros Hf [H1 H2]. split; simpl.
  - apply Forall_map. eapply Forall_impl; [|exact H1]. simpl.
    intros r (?&?&?). destruct (Hf r) as (-> & -> & ->). auto.
  - destruct H2 as [->|(rs & x & -> & Hrs)]; [now left|].
    right. exists (map f rs), (f x). rewrite map_app. split; [reflexivity|].
    apply Forall_map. eapply Forall_impl; [|exact Hrs]. simpl.
    intros r (?&?&?). unfold isOpen.
    destruct (Hf r) as (-> & -> & ->). destruct (Hf x) as (-> & -> & _).
    auto.
Qed.

Lemma Timeline_analysis b db entryId td pid ai :
  Timeline b db -> Timeline b (updateEntryAnalysis entryId td pid ai db).
Proof.
  intros HT. unfold updateEntryAnalysis.
  apply map_preserves_Timeline; [|exact HT].
  intros r. destruct (id r =? entryId); simpl; auto.
Qed.

Lemma Timeline_run (evs : list Tracker.Event) :
  forall b db,
    Timeline b db ->
    Sorted Z.le (b :: Tracker.cycleTimes evs) ->
    exists b', Timeline b' (fold_left (Tracker.step config) evs db).
Proof.
  induction evs as [|ev evs IH]; intros b db HT Hs; simpl.
  - eauto.
  - destruct ev as [p|entryId analysis json]; simpl in *.
    + inversion Hs as [|? ? Hs' Hhd]; subst.
      inversion Hhd as [|? ? Hle]; subst.
      eapply IH; [|exact Hs'].
      eapply Timeline_capture; eauto.
    + eapply IH; [|exact Hs]. now apply Timeline_analysis.
Qed.

Lemma Timeline_reachable (evs : list Tracker.Event) :
  Sorted Z.le (Tracker.cycleTimes evs) ->
  exists b, Timeline b (Tracker.run config evs).
Proof.
  intros Hs. unfold Tracker.run.
  destruct (Tracker.cycleTimes evs) as [|t ts] eqn:E.
  - apply (Timeline_run evs 0); [apply Timeline_init|].
    rewrite E. repeat constructor.
  - apply (Timeline_run evs t); [apply Timeline_init|].
    rewrite E. constructor; [exact Hs|constructor; lia].
Qed.

(** What the invariant says about open entries. *)
Lemma Timeline_open b db :
  Timeline b db ->
  (List.length (filter isOpen (rows db)) <= 1)%nat
  /\ (forall r, In r (rows db) -> durationSeconds r = None ->
                lastEntryOf (rows db) = Some r
                /\ forall r', In r' (rows db) -> timestamp r' <= timestamp r).
Proof.
  intros [_ [E|(rs & x & E & Hrs)]]; rewrite E.
  - simpl. split; [lia|]. intros r [].
  - assert (Hf : filter isOpen rs = []).
    { clear E. induction Hrs as [|r rs (Hr & _) _ IH]; simpl; [reflexivity|].
      now rewrite Hr. }
    split.
    + rewrite filter_app, Hf. simpl. destruct (isOpen x); simpl; lia.
    + intros r Hin Hnone.
      assert (r = x) as ->.
      { apply in_app_or in Hin. destruct Hin as [Hin|[Hin|[]]]; [|auto].
        rewrite Forall_forall in Hrs. destruct (Hrs r Hin) as (Ho & _).
        unfold isOpen in Ho. rewrite Hnone in Ho. discriminate. }
      split.
      * apply lastEntryOf_snoc.
        eapply Forall_impl; [|exact Hrs]. simpl. intros; tauto.
      * intros r' Hin'. apply in_app_or in Hin'.
        destruct Hin' as [Hin'|[<-|[]]]; [|lia].
        rewrite Forall_forall in Hrs. destruct (Hrs r' Hin') as (_ & _ & ?).
        assumption.
Qed.

End TimelineLemmas.


(** C3.  In every store reached from the empty one by capture cycles
    whose clock readings do not decrease (and by the analysis write-backs
    they dispatch), at most one entry has a null duration, and it is the
    most recent entry: the one [ORDER BY timestamp DESC LIMIT 1] returns,
    with no entry later than it.  A cycle either touches the store not at
    all or performs the back-fill first and the insert of the new, open
    entry second. *)
Theorem single_open_entry (config : TrackerConfig) (evs : list Tracker.Event) :
  Sorted Z.le (Tracker.cycleTimes evs) ->
  let db := Tracker.run config evs in
  (List.length (filter isOpen (rows db)) <= 1)%nat
  /\ (forall r, In r (rows db) -> durationSeconds r = None ->
                lastEntryOf (rows db) = Some r
                /\ forall r', In r' (rows db) -> timestamp r' <= timestamp r)
  /\ (forall p,
        Tracker.captureOps config p = []
        \/ exists e,
             Tracker.captureOps config p
             = [Tracker.OpUpdatePreviousEntryDuration (Tracker.now p);
                Tracker.OpInsertTimeEntry e]
             /\ timestamp e = Tracker.now p
             /\ durationSeconds e = None).
Proof.
  intros Hs db.
  destruct (Timeline_reachable config evs Hs) as [b HT].
  destruct (Timeline_open b _ HT) as [H1 H2].
  split; [exact H1|]. split; [exact H2|].
  intros p. destruct (captureOps_shape config p) as [E|(w & s & E)].
  - now left.
  - right. eexists. split; [exact E|]. split; reflexivity.
Qed.

(** Three cycles at 09:00, 09:05 (user idle, skipped) and 09:10, with the
    first analysis written back in between. *)
Lemma single_open_entry_witness :
  let config := mkTrackerConfig 5 300 [] Proxy None in
  let w := mkWindowInfo "Code" "index.ts" None 1 in
  let evs :=
    [Tracker.Cycle (Tracker.mkProbes 32400000 0 (Some w) Throw);
     Tracker.AnalysisDone 1
       (mkTaskAnalysis "Writing code" None (9 # 10) coding None) "{}";
     Tracker.Cycle (Tracker.mkProbes 32700000 400 (Some w) Throw);
     Tracker.Cycle (Tracker.mkProbes 33000000 12 (Some w) (Ok "s.png"%string))] in
  Sorted Z.le (Tracker.cycleTimes evs)
  /\ map durationSeconds (rows (Tracker.run config evs)) = [Some 600; None]
  /\ (List.length (filter isOpen (rows (Tracker.run config evs))) <= 1)%nat.
Proof.
  intros config w evs.
  assert (Hs : Sorted Z.le (Tracker.cycleTimes evs))
    by (repeat constructor; simpl; lia).
  split; [exact Hs|]. split; [reflexivity|].
  exact (proj1 (single_open_entry config evs Hs)).
Defined.

(** C4, as the code has it.  While the clock readings of the cycles do
    not decrease, every non-null duration in the store is at least 0.
    [updatePreviousEntryDuration] itself does not clamp: it stores
    [floor((now - t) / 1000)] on the most recent entry, which is negative
    as soon as [now] is earlier than that entry's timestamp [t]. *)
Theorem durations_nonnegative_when_clock_monotone
    (config : TrackerConfig) (evs : list Tracker.Event) :
  Sorted Z.le (Tracker.cycleTimes evs) ->
  (forall r d, In r (rows (Tracker.run config evs)) ->
               durationSeconds r = Some d -> 0 <= d)
  /\ (forall db lastEntry now,
        lastEntryOf (rows db) = Some lastEntry ->
        In (setDuration ((now - timestamp lastEntry) / 1000) lastEntry)
           (rows (updatePreviousEntryDuration now db))
        /\ (now < timestamp lastEntry ->
            (now - timestamp lastEntry) / 1000 < 0)).
Proof.
  intros Hs. split.
  - destruct (Timeline_reachable config evs Hs) as [b [H _]].
    rewrite Forall_forall in H. intros r d Hin Hd.
    destruct (H r Hin) as (_ & _ & Hnn). eauto.
  - intros db lastEntry now Hlast. split.
    + unfold updatePreviousEntryDuration. rewrite Hlast. simpl.
      unfold updateDurationWhereId.
      apply lastEntryOf_In in Hlast.
      apply in_map_iff. exists lastEntry. rewrite Z.eqb_refl. auto.
    + intros Hlt. apply Z.div_lt_upper_bound; lia.
Qed.

Lemma durations_nonnegative_when_clock_monotone_witness :
  let config := mkTrackerConfig 5 300 [] Proxy None in
  let w := mkWindowInfo "Code" "index.ts" None 1 in
  let evs :=
    [Tracker.Cycle (Tracker.mkProbes 32400000 0 (Some w) Throw);
     Tracker.Cycle (Tracker.mkProbes 32400999 0 (Some w) Throw);
     Tracker.Cycle (Tracker.mkProbes 33000000 0 (Some w) Throw)] in
  Sorted Z.le (Tracker.cycleTimes evs)
  /\ map durationSeconds (rows (Tracker.run config evs))
     = [Some 0; Some 599; None]
  /\ (forall r d, In r (rows (Tracker.run config evs)) ->
                  durationSeconds r = Some d -> 0 <= d).
Proof.
  intros config w evs.
  assert (Hs : Sorted Z.le (Tracker.cycleTimes evs))
    by (repeat constructor; simpl; lia).
  split; [exact Hs|]. split; [reflexivity|].
  exact (proj1 (durations_nonnegative_when_clock_monotone config evs Hs)).
Defined.

(** C4 fails as stated: a cycle at 00:00:05.000 followed by a cycle whose
    clock reads 00:00:00.000 (the clock was set back) stores -5 as the
    first entry's duration, and the daily summary adds it to its totals
    as it is. *)
Lemma negative_duration_is_stored :
  let config := mkTrackerConfig 5 300 [] Proxy None in
  let w := mkWindowInfo "Code" "index.ts" None 1 in
  let db :=
    Tracker.run config
      [Tracker.Cycle (Tracker.mkProbes 5000 0 (Some w) Throw);
       Tracker.Cycle (Tracker.mkProbes 0 0 (Some w) Throw)] in
  ~ (forall r d, In r (rows db) -> durationSeconds r = Some d -> 0 <= d)
  /\ map durationSeconds (rows db) = [Some (-5); None]
  /\ activeSeconds (getDailySummary 0 db) = -5
  /\ totalTrackedSeconds (getDailySummary 0 db) = -5.
Proof.
  intros config w db. split; [|repeat split].
  intros H.
  specialize (H (mkTimeEntry 1 5000 "Code" "index.ts" None None None None
                   (Some (-5)) false None) (-5)).
  simpl in H. assert (0 <= -5) by (apply H; auto). lia.
Qed.

(** ** Sorting *)

Section StableSortLemmas.

Context {A : Type} (le : A -> A -> bool).

Lemma insertSorted_perm x (l : list A) :
  Permutation (insertSorted le x l) (x :: l).
Proof.
  induction l as [|y l IH]; simpl; [reflexivity|].
  destruct (le x y); [reflexivity|].
  rewrite IH. apply perm_swap.
Qed.

Lemma stableSort_perm (l : list A) : Permutation (stableSort le l) l.
Proof.
  induction l as [|x l IH]; simpl; [reflexivity|].
  rewrite insertSorted_perm. now constructor.
Qed.

Hypothesis le_total : forall a b, le a b = true \/ le b a = true.

Lemma insertSorted_sorted x (l : list A) :
  Sorted (fun a b => le a b = true) l ->
  Sorted (fun a b => le a b = true) (insertSorted le x l).
Proof.
  induction 1 as [|y l Hs IH Hhd]; simpl.
  - repeat constructor.
  - destruct (le x y) eqn:E.
    + repeat constructor; assumption.
    + constructor; [exact IH|].
      destruct l as [|z l]; simpl.
      * constructor. destruct (le_total x y); congruence.
      * inversion Hhd; subst. destruct (le x z); constructor; auto.
        destruct (le_total x y); congruence.
Qed.

Lemma stableSort_sorted (l : list A) :
  Sorted (fun a b => le a b = true) (stableSort le l).
Proof.
  induction l as [|x l IH]; simpl; [constructor|].
  now apply insertSorted_sorted.
Qed.

End StableSortLemmas.

Lemma getTimeEntries_In startDate endDate projectFilter db r :
  In r (getTimeEntries startDate endDate projectFilter db)
  <-> In r (rows db)
      /\ inRange startDate endDate r && matchesProject projectFilter r = true.
Proof.
  unfold getTimeEntries. split; intros H.
  - eapply Permutation_in in H; [|apply stableSort_perm].
    apply filter_In in H. exact H.
  - eapply Permutation_in; [symmetry; apply stableSort_perm|].
    apply filter_In. exact H.
Qed.

(** ** The daily summary *)

Lemma summary_of_active_entries (es : list TimeEntry) :
  Forall (fun r => isIdle r = false) es ->
  forall acc,
    accIdle (fold_left summaryStep es acc) = accIdle acc
    /\ accActive (fold_left summaryStep es acc) - accActive acc
       = accTotal (fold_left summaryStep es acc) - accTotal acc.
Proof.
  induction 1 as [|e es He _ IH]; intros acc; simpl.
  - split; [reflexivity|lia].
  - destruct (IH (summaryStep acc e)) as [H1 H2].
    assert (Hstep : accIdle (summaryStep acc e) = accIdle acc
                    /\ accActive (summaryStep acc e) - accActive acc
                       = accTotal (summaryStep acc e) - accTotal acc).
    { unfold summaryStep. rewrite He. simpl. split; lia. }
    destruct Hstep as [H3 H4]. split; lia.
Qed.

Lemma categoryMap_never_set (es : list TimeEntry) :
  forall acc,
    categoryMap (fold_left summaryStep es acc) = categoryMap acc.
Proof.
  induction es as [|e es IH]; intros acc; simpl; [reflexivity|].
  rewrite IH. unfold summaryStep. destruct (isIdle e); reflexivity.
Qed.

Lemma run_entries_not_idle (config : TrackerConfig) (evs : list Tracker.Event) :
  forall db,
    Forall (fun r => isIdle r = false) (rows db) ->
    Forall (fun r => isIdle r = false)
           (rows (fold_left (Tracker.step config) evs db)).
Proof.
  induction evs as [|ev evs IH]; intros db H; simpl; [exact H|].
  apply IH. destruct ev as [p|entryId analysis json]; simpl.
  - unfold Tracker.captureAndAnalyze.
    destruct (captureOps_shape config p) as [E|(w & s & E)]; rewrite E; simpl.
    + exact H.
    + apply Forall_app. split; [|repeat constructor].
      unfold updatePreviousEntryDuration.
      destruct (lastEntryOf (rows db)) as [lastEntry|]; [|exact H]. simpl.
      apply Forall_map. eapply Forall_impl; [|exact H]. simpl.
      intros r Hr. destruct (id r =? id lastEntry); simpl; exact Hr.
  - apply Forall_map. eapply Forall_impl; [|exact H]. simpl.
    intros r Hr. destruct (id r =? entryId); simpl; exact Hr.
Qed.

(** C10.  Every entry a capture cycle inserts has [isIdle = false], so in
    a store filled by the tracker alone every entry is non-idle, and every
    daily summary has [idleSeconds = 0] and
    [activeSeconds = totalTrackedSeconds]. *)
Theorem capture_entries_never_idle
    (config : TrackerConfig) (evs : list Tracker.Event) (date : Z) :
  let db := Tracker.run config evs in
  (forall p e, In (Tracker.OpInsertTimeEntry e) (Tracker.captureOps config p) ->
               isIdle e = false)
  /\ Forall (fun r => isIdle r = false) (rows db)
  /\ idleSeconds (getDailySummary date db) = 0
  /\ activeSeconds (getDailySummary date db)
     = totalTrackedSeconds (getDailySummary date db).
Proof.
  intros db.
  assert (Hrows : Forall (fun r => isIdle r = false) (rows db)).
  { apply run_entries_not_idle. constructor. }
  split; [|split; [exact Hrows|]].
  - intros p e Hin.
    destruct (captureOps_shape config p) as [E|(w & s & E)];
      rewrite E in Hin; simpl in Hin.
    + contradiction.
    + destruct Hin as [Hin|[Hin|[]]]; [discriminate|].
      inversion Hin; subst. reflexivity.
  - assert (Hes : Forall (fun r => isIdle r = false)
                    (getTimeEntries (startOfDay date) (endOfDay date) None db)).
    { apply Forall_forall. intros r Hr.
      apply getTimeEntries_In in Hr. destruct Hr as [Hr _].
      rewrite Forall_forall in Hrows. auto. }
    destruct (summary_of_active_entries _ Hes
                (mkTotals 0 0 0 JsMap.empty JsMap.empty JsMap.empty))
      as [H1 H2].
    unfold getDailySummary. simpl in *. split; [exact H1|lia].
Qed.

(** C1, what the code does.  The loop of [getDailySummary] never writes
    to [categoryMap], so the category breakdown is empty whatever the
    entries hold; on the three classified entries of the repository's
    test "categoryBreakdown is populated from aiAnalysis" (3600 s and
    1800 s of coding, 1800 s of communication) the summary has no
    category row, where the test expects two. *)
Theorem category_breakdown_is_always_empty :
  (forall date db, categoryBreakdown (getDailySummary date db) = [])
  /\ let e t app d json :=
       mkTimeEntry 0 t app "w" None (Some "task"%string)
         (Some "test-project"%string) None (Some d) false (Some json) in
     let db :=
       snd (insertTimeEntry
              (e 50400000 "VS Code"%string 1800 (categoryPayload "coding"))
         (snd (insertTimeEntry
              (e 46800000 "Slack"%string 1800 (categoryPayload "communication"))
         (snd (insertTimeEntry
              (e 43200000 "VS Code"%string 3600 (categoryPayload "coding"))
              initDatabase))))) in
     activeSeconds (getDailySummary 43200000 db) = 7200
     /\ categoryBreakdown (getDailySummary 43200000 db) = [].
Proof.
  split.
  - intros date db. unfold getDailySummary. simpl.
    rewrite categoryMap_never_set. reflexivity.
  - split; reflexivity.
Qed.

(** ** Range queries with a project filter *)

Lemma Sorted_by_timestamp (l : list TimeEntry) :
  Sorted (fun a b => (timestamp a <=? timestamp b) = true) l ->
  StronglySorted (fun a b => timestamp a <= timestamp b) l.
Proof.
  intros H. apply Sorted_StronglySorted.
  - intros a b c; lia.
  - induction H as [|a l Hs IH Hhd]; constructor; auto.
    destruct Hhd; constructor. now apply Z.leb_le.
Qed.

(** C5, as the code has it.  With a non-empty project filter,
    [getTimeEntries] returns, in ascending order of timestamp, exactly the
    rows with [start <= timestamp < end] whose [projectId] equals the
    filter or whose [manualProjectId] equals the filter. *)
Theorem getTimeEntries_project_filter
    (startDate endDate : Z) (p : string) (db : Database.t) :
  p <> EmptyString ->
  let result := getTimeEntries startDate endDate (Some p) db in
  StronglySorted (fun a b => timestamp a <= timestamp b) result
  /\ Permutation result
       (filter (fun r => (startDate <=? timestamp r)
                         && (timestamp r <? endDate)
                         && (optStringEqb (projectId r) p
                             || optStringEqb (manualProjectId r) p))
               (rows db))
  /\ (forall r,
        In r result
        <-> In r (rows db)
            /\ startDate <= timestamp r < endDate
            /\ (projectId r = Some p \/ manualProjectId r = Some p)).
Proof.
  intros Hp result. subst result.
  assert (Ht : truthy (Some p) = true) by (destruct p; [contradiction|reflexivity]).
  assert (Hopt : forall o, optStringEqb o p = true <-> o = Some p).
  { intros [x|]; simpl; [|split; discriminate].
    rewrite String.eqb_eq. split; congruence. }
  split; [|split].
  - apply Sorted_by_timestamp. unfold getTimeEntries.
    apply stableSort_sorted. intros a b.
    destruct (Z.le_ge_cases (timestamp a) (timestamp b)) as [H|H];
      [left|right]; apply Z.leb_le; lia.
  - unfold getTimeEntries. rewrite stableSort_perm.
    erewrite filter_ext; [reflexivity|].
    intros r. unfold inRange, matchesProject. rewrite Ht. reflexivity.
  - intros r. rewrite getTimeEntries_In.
    unfold inRange, matchesProject. rewrite Ht.
    rewrite !andb_true_iff, orb_true_iff, Z.leb_le, Z.ltb_lt, !Hopt.
    tauto.
Qed.

Lemma getTimeEntries_project_filter_witness :
  let e i t pid mid :=
    mkTimeEntry i t "App" "w" None None pid mid None false None in
  let a := Some "alpha"%string in
  let b := Some "beta"%string in
  let db := mkDb [e 1 300 a None; e 2 100 b a; e 3 200 b None; e 4 900 a None] 4 in
  map id (getTimeEntries 0 500 (Some "alpha"%string) db) = [2; 1]
  /\ StronglySorted (fun x y => timestamp x <= timestamp y)
       (getTimeEntries 0 500 (Some "alpha"%string) db).
Proof.
  intros e a b db. split; [reflexivity|].
  refine (proj1 (getTimeEntries_project_filter 0 500 "alpha" db _)).
  discriminate.
Defined.

(** C5 fails as stated: an entry classified as "alpha" and manually
    reassigned to "beta" has effective project "beta", yet the filter
    "alpha" returns it; and an entry with neither id has effective project
    "unassigned", yet the filter "unassigned" does not return it. *)
Lemma filter_is_not_on_effective_project :
  let r1 := mkTimeEntry 1 5 "App" "w" None None
              (Some "alpha"%string) (Some "beta"%string) None false None in
  let r2 := mkTimeEntry 1 5 "App" "w" None None None None None false None in
  (getTimeEntries 0 10 (Some "alpha"%string) (mkDb [r1] 1) = [r1]
   /\ effectiveProject r1 = "beta"%string)
  /\ (getTimeEntries 0 10 (Some "unassigned"%string) (mkDb [r2] 1) = []
      /\ effectiveProject r2 = "unassigned"%string).
Proof. repeat split. Qed.

(** ** Week-over-week change *)

Section JsMapLemmas.

Context {V : Type}.

Lemma JsMap_get_set (k k' : string) (v : V) (m : JsMap.t) :
  JsMap.get String.eqb k (JsMap.set String.eqb k' v m)
  = if String.eqb k' k then Some v else JsMap.get String.eqb k m.
Proof.
  induction m as [|[k0 v0] m IH]; simpl.
  - reflexivity.
  - destruct (String.eqb k0 k') eqn:E0; simpl.
    + apply String.eqb_eq in E0. subst k0.
      destruct (String.eqb k' k); reflexivity.
    + rewrite IH. destruct (String.eqb k' k) eqn:E1; [|reflexivity].
      destruct (String.eqb k0 k) eqn:E2; [|reflexivity].
      apply String.eqb_eq in E1, E2. subst.
      rewrite String.eqb_refl in E0. discriminate.
Qed.

Lemma find_snoc {X} (f : X -> bool) (l : list X) (x : X) :
  find f (l ++ [x])
  = match find f l with
    | Some y => Some y
    | None => if f x then Some x else None
    end.
Proof.
  induction l as [|y l IH]; simpl; [reflexivity|].
  destruct (f y); [reflexivity|exact IH].
Qed.

(** A sequence of [set] calls leaves, under each key, the value of the
    last call for that key. *)
Lemma JsMap_get_fold {X} (key : X -> string) (val : X -> V) (l : list X) :
  forall (m : JsMap.t) (k : string),
    JsMap.get String.eqb k
      (fold_left (fun m x => JsMap.set String.eqb (key x) (val x) m) l m)
    = match find (fun x => String.eqb (key x) k) (rev l) with
      | Some x => Some (val x)
      | None => JsMap.get String.eqb k m
      end.
Proof.
  induction l as [|x l IH]; intros m k; simpl; [reflexivity|].
  rewrite IH, find_snoc, JsMap_get_set.
  destruct (find _ (rev l)); [reflexivity|].
  destruct (String.eqb (key x) k); reflexivity.
Qed.

End JsMapLemmas.

Lemma prevProjectMap_get (p : string) (totals : list ProjectTime) :
  JsMap.get String.eqb p
    (JsMap.ofList String.eqb
       (map (fun q => (ptProjectId q, Weekly.hoursOf (ptSeconds q))) totals))
  = hoursIn p totals.
Proof.
  unfold JsMap.ofList, hoursIn, lastProject.
  rewrite (JsMap_get_fold fst snd). simpl.
  rewrite <- map_rev.
  induction (rev totals) as [|q l IH]; simpl; [reflexivity|].
  destruct (String.eqb (ptProjectId q) p); [reflexivity|exact IH].
Qed.

(** C7, as the code has it.  [calculateWeekChange] gives a change to the
    projects of the current report and to no other: a project of the
    current week maps to its current hours minus its previous hours, 0
    standing for a project the previous week lacks; a project that only
    the previous week has is absent from the map. *)
Theorem projectChanges_of_current_projects
    (currentWeek previousWeek : WeeklyReport) (p : string) :
  JsMap.get String.eqb p
    (Weekly.projectChanges (Weekly.calculateWeekChange currentWeek previousWeek))
  = match hoursIn p (projectTotals currentWeek) with
    | Some currentHours =>
        Some (currentHours
              - nullish (hoursIn p (projectTotals previousWeek)) 0)%Q
    | None => None
    end.
Proof.
  unfold Weekly.calculateWeekChange. simpl.
  rewrite (JsMap_get_fold ptProjectId
             (fun project =>
                (Weekly.hoursOf (ptSeconds project)
                 - nullish
                     (JsMap.get String.eqb (ptProjectId project)
                        (JsMap.ofList String.eqb
                           (map (fun q => (ptProjectId q,
                                           Weekly.hoursOf (ptSeconds q)))
                                (projectTotals previousWeek)))) 0)%Q)).
  unfold hoursIn at 1. unfold lastProject.
  destruct (find _ (rev (projectTotals currentWeek))) as [q|] eqn:E;
    simpl; [|reflexivity].
  apply find_some in E. destruct E as [_ E].
  apply String.eqb_eq in E. rewrite E, prevProjectMap_get. reflexivity.
Qed.

(** C7 fails as stated: with "proj-1" at one hour in the previous week
    and no project in the current week, the map of changes has no entry
    for "proj-1" (the claim wants -1 hour); a project of both weeks is
    there. *)
Lemma dropped_project_has_no_change :
  let report hours projects :=
    mkWeeklyReport 0 0 hours [] projects [] in
  let p1 s := mkProjectTime "proj-1"%string "proj-1"%string s 1 in
  let change := Weekly.calculateWeekChange (report 0%Q [])
                                           (report 1%Q [p1 3600]) in
  JsMap.get String.eqb "proj-1"%string (Weekly.projectChanges change) = None
  /\ Weekly.projectChanges change = []
  /\ hoursIn "proj-1"%string [p1 3600] = Some (3600 / 3600)%Q
  /\ JsMap.get String.eqb "proj-1"%string
       (Weekly.projectChanges
          (Weekly.calculateWeekChange (report 2%Q [p1 7200])
                                      (report 1%Q [p1 3600])))
     = Some (7200 / 3600 - 3600 / 3600)%Q.
Proof. repeat split. Qed.

(** ** The start of the week *)

Lemma getWeekStart_eq (d : Z) :
  Weekly.getWeekStart d
  = (JsDate.Day d - (JsDate.getDay d + 6) mod 7) * JsDate.msPerDay.
Proof.
  unfold Weekly.getWeekStart, JsDate.setHoursZero, JsDate.setDate,
    JsDate.monthStartDay, JsDate.getDay, JsDate.Day, JsDate.TimeWithinDay,
    JsDate.msPerDay.
  generalize (JsDate.getDate d). intros g.
  destruct (Z.eqb_spec ((d / 86400000 + 4) mod 7) 0) as [E|E];
    Z.to_euclidean_division_equations; lia.
Qed.

(** C8.  [getWeekStart d] is the Monday 00:00:00.000 of the
    Monday-to-Sunday week of [d]: it falls on a Monday at midnight, at
    most six days before [d]; [getWeekStart] is idempotent, and every
    date of that week, whatever month its Monday is in, has the same week
    start. *)
Theorem getWeekStart_constant_on_week (d : Z) :
  let w := Weekly.getWeekStart d in
  JsDate.getDay w = 1
  /\ JsDate.TimeWithinDay w = 0
  /\ w <= d < w + 7 * JsDate.msPerDay
  /\ Weekly.getWeekStart w = w
  /\ (forall d', w <= d' < w + 7 * JsDate.msPerDay ->
                 Weekly.getWeekStart d' = w).
Proof.
  intros w. subst w.
  assert (Hsame : forall d',
             Weekly.getWeekStart d <= d'
               < Weekly.getWeekStart d + 7 * JsDate.msPerDay ->
             Weekly.getWeekStart d' = Weekly.getWeekStart d).
  { intros d'. rewrite !getWeekStart_eq.
    unfold JsDate.getDay, JsDate.Day, JsDate.msPerDay.
    intros H. Z.to_euclidean_division_equations. lia. }
  assert (Hrange : Weekly.getWeekStart d <= d
                   < Weekly.getWeekStart d + 7 * JsDate.msPerDay).
  { rewrite getWeekStart_eq.
    unfold JsDate.getDay, JsDate.Day, JsDate.msPerDay.
    Z.to_euclidean_division_equations. lia. }
  split; [|split; [|split; [exact Hrange|split; [|exact Hsame]]]].
  - rewrite getWeekStart_eq.
    unfold JsDate.getDay, JsDate.Day, JsDate.msPerDay.
    Z.to_euclidean_division_equations. lia.
  - rewrite getWeekStart_eq.
    unfold JsDate.TimeWithinDay, JsDate.msPerDay.
    Z.to_euclidean_division_equations. lia.
  - apply Hsame.
    unfold JsDate.msPerDay in *. lia.
Qed.

(** Sunday 2025-06-01 12:00 and Tuesday 2025-05-27 08:00 lie in the week
    of Monday 2025-05-26, which starts in the month before. *)
Lemma getWeekStart_constant_on_week_witness :
  let sunday := 20240 * JsDate.msPerDay + 43200000 in
  let tuesday := 20235 * JsDate.msPerDay + 28800000 in
  JsDate.civilFromDays (JsDate.Day sunday) = (2025, 6, 1)
  /\ JsDate.civilFromDays (JsDate.Day (Weekly.getWeekStart sunday)) = (2025, 5, 26)
  /\ Weekly.getWeekStart tuesday = Weekly.getWeekStart sunday.
Proof.
  intros sunday tuesday.
  split; [reflexivity|]. split; [reflexivity|].
  refine (proj2 (proj2 (proj2 (proj2
            (getWeekStart_constant_on_week sunday)))) tuesday _).
  vm_compute. split; [discriminate|reflexivity].
Defined.

(** ** The idle watcher *)

Lemma runChecks_transitions (config : TrackerConfig) (readings : list Z) :
  forall wasIdle,
    snd (Idle.runChecks config wasIdle readings)
    = transitions (idleThresholdSeconds config) wasIdle readings.
Proof.
  induction readings as [|r rest IH]; intros wasIdle; simpl; [reflexivity|].
  unfold Idle.check, Idle.checkIdleState. simpl.
  destruct (Bool.eqb (idleThresholdSeconds config <=? r) wasIdle) eqn:E; simpl.
  - apply Bool.eqb_prop in E. subst wasIdle.
    specialize (IH (idleThresholdSeconds config <=? r)).
    destruct (Idle.runChecks config _ rest). simpl in *. exact IH.
  - specialize (IH (idleThresholdSeconds config <=? r)).
    destruct (Idle.runChecks config _ rest). simpl in *. now rewrite IH.
Qed.

(** C9.  On any sequence of probe readings the watcher, started not idle,
    calls back exactly at the checks whose idle state
    [idleSeconds >= threshold] differs from that of the check before, with
    the new state and the reading, and at no other check: the number of
    calls is the number of transitions.  With threshold 300 the readings
    0, 0, 400, 400, 0 give two calls, [(true, 400)] then [(false, 0)]. *)
Theorem idle_watcher_fires_on_transitions
    (config : TrackerConfig) (readings : list Z) :
  Idle.createIdleWatcher config readings
  = transitions (idleThresholdSeconds config) false readings
  /\ (idleThresholdSeconds config = 300 ->
      Idle.createIdleWatcher config [0; 0; 400; 400; 0]
      = [(true, 400); (false, 0)]).
Proof.
  split.
  - apply runChecks_transitions.
  - intros H. unfold Idle.createIdleWatcher. rewrite runChecks_transitions, H.
    reflexivity.
Qed.

Lemma idle_watcher_fires_on_transitions_witness :
  let config := mkTrackerConfig 5 300 [] Proxy None in
  idleThresholdSeconds config = 300
  /\ Idle.createIdleWatcher config [0; 0; 400; 400; 0]
     = [(true, 400); (false, 0)].
Proof.
  intros config. split; [reflexivity|].
  exact (proj2 (idle_watcher_fires_on_transitions config []) eq_refl).
Defined.

(** ** The classification fallback *)

(** With a backend whose every call throws (the proxy's chat endpoint for
    the text and the vision model, and the agent SDK), [analyzeTask]
    returns normally and returns the fallback analysis. *)
Lemma analyzeTask_failing_backend
    (jsonParse : string -> Result Agent.ParsedAnalysis)
    (backend : Agent.Backend) (config : TrackerConfig)
    (windowInfo : WindowInfo) (appCategory : string)
    (screenshotPath : option string) :
  (forall vision w c image,
      Agent.callLLMProxy backend vision w c image = Throw) ->
  (forall w c s, Agent.sdkQuery backend w c s = Throw) ->
  Agent.analyzeTask jsonParse backend config windowInfo appCategory
    screenshotPath
  = Ok (Agent.createFallbackAnalysis windowInfo appCategory).
Proof.
  intros Hproxy Hsdk.
  assert (Hsdkpath :
            Agent.analyzeTaskWithClaudeSDK jsonParse backend windowInfo
              appCategory screenshotPath
            = Ok (Agent.createFallbackAnalysis windowInfo appCategory)).
  { unfold Agent.analyzeTaskWithClaudeSDK. rewrite Hsdk. reflexivity. }
  assert (Hproxypath :
            Agent.analyzeTaskWithProxy jsonParse backend windowInfo
              appCategory screenshotPath = Throw).
  { unfold Agent.analyzeTaskWithProxy, Agent.visionAttempt, Agent.textAttempt.
    destruct screenshotPath as [path|]; [|simpl; now rewrite Hproxy].
    destruct (truthy (Some path)); [|simpl; now rewrite Hproxy].
    destruct (Agent.imageToBase64 backend path);
      simpl; rewrite ?Hproxy; simpl; rewrite ?Hproxy; reflexivity. }
  unfold Agent.analyzeTask.
  destruct (llmProvider config); [exact Hsdkpath|].
  destruct (truthy (llmProxyUrl config)); [|exact Hsdkpath].
  rewrite Hproxypath. reflexivity.
Qed.

(** The category of the fallback analysis, case by case: the six keys of
    the table, then the names inherited from [Object.prototype], then
    everything else. *)
Lemma createFallbackAnalysis_category
    (windowInfo : WindowInfo) (appCategory : string) :
  aCategory (Agent.createFallbackAnalysis windowInfo appCategory)
  = if String.eqb appCategory "browser" then IsCategory research
    else if String.eqb appCategory "editor" then IsCategory coding
    else if String.eqb appCategory "terminal" then IsCategory coding
    else if String.eqb appCategory "communication"
         then IsCategory communication
    else if String.eqb appCategory "design" then IsCategory design
    else if existsb (String.eqb appCategory) Agent.objectPrototypeNames
         then InheritedMember appCategory
    else IsCategory other.
Proof.
  unfold Agent.createFallbackAnalysis, Agent.categoryMapGet,
    Agent.fallbackCategoryMap.
  cbn [aCategory JsMap.get].
  rewrite !(String.eqb_sym _ appCategory).
  repeat match goal with
         | |- context [String.eqb appCategory ?k] =>
             let E := fresh "E" in
             destruct (String.eqb appCategory k) eqn:E;
             [apply String.eqb_eq in E; subst appCategory; reflexivity
             |clear E]
         end.
  cbn [nullish].
  destruct (existsb _ _); reflexivity.
Qed.



(* ================================================================== *)
(** * Further properties of the store and of the daily summary *)

Lemma summary_totals_split (es : list TimeEntry) :
  forall acc,
    accTotal (fold_left summaryStep es acc)
      - accIdle (fold_left summaryStep es acc)
      - accActive (fold_left summaryStep es acc)
    = accTotal acc - accIdle acc - accActive acc.
Proof.
  induction es as [|e es IH]; intros acc; simpl; [reflexivity|].
  rewrite IH. unfold summaryStep. destruct (isIdle e); simpl; lia.
Qed.

(** X1.  In every daily summary the tracked total is the idle seconds
    plus the active seconds. *)
Theorem daily_total_is_idle_plus_active (date : Z) (db : Database.t) :
  totalTrackedSeconds (getDailySummary date db)
  = idleSeconds (getDailySummary date db)
    + activeSeconds (getDailySummary date db).
Proof.
  unfold getDailySummary. simpl.
  pose proof (summary_totals_split
                (getTimeEntries (startOfDay date) (endOfDay date) None db)
                (mkTotals 0 0 0 JsMap.empty JsMap.empty JsMap.empty)) as H.
  simpl in H. lia.
Qed.

(** ** Buckets *)

Section BucketLemmas.

Variable key : TimeEntry -> string.

Lemma bump_get k k' d (m : JsMap.t (K := string) (V := Bucket)) :
  JsMap.get String.eqb k (bump k' d m)
  = if String.eqb k' k
    then Some (mkBucket
                 (seconds (nullish (JsMap.get String.eqb k' m) (mkBucket 0 0)) + d)
                 (entries (nullish (JsMap.get String.eqb k' m) (mkBucket 0 0)) + 1))
    else JsMap.get String.eqb k m.
Proof. unfold bump. apply JsMap_get_set. Qed.

Lemma bumpAll_get k (es : list TimeEntry) :
  forall m,
    JsMap.get String.eqb k (bumpAll key es m)
    = match bucketOf key k es with
      | [] => JsMap.get String.eqb k m
      | sel =>
          let b := nullish (JsMap.get String.eqb k m) (mkBucket 0 0) in
          Some (mkBucket (seconds b + sumZ (map durationOf sel))
                         (entries b + Z.of_nat (List.length sel)))
      end.
Proof.
  induction es as [|e es IH]; intros m; simpl; [reflexivity|].
  unfold bumpAll in *. simpl. rewrite IH. clear IH.
  unfold bucketOf. simpl.
  destruct (isIdle e); simpl; [reflexivity|].
  rewrite bump_get.
  destruct (String.eqb (key e) k) eqn:E; simpl.
  - apply String.eqb_eq in E. subst k.
    destruct (filter _ es) as [|x sel]; simpl.
    + f_equal. f_equal; lia.
    + f_equal. f_equal; lia.
  - reflexivity.
Qed.

End BucketLemmas.

Lemma JsMap_set_keys {V} k (v : V) (m : JsMap.t) :
  map fst (JsMap.set String.eqb k v m)
  = if existsb (String.eqb k) (map fst m)
    then map fst m else map fst m ++ [k].
Proof.
  induction m as [|[k0 v0] m IH]; simpl; [reflexivity|].
  rewrite (String.eqb_sym k k0).
  destruct (String.eqb k0 k); simpl; [reflexivity|].
  rewrite IH. destruct (existsb _ _); reflexivity.
Qed.

Lemma JsMap_set_NoDup {V} k (v : V) (m : JsMap.t) :
  NoDup (map fst m) -> NoDup (map fst (JsMap.set String.eqb k v m)).
Proof.
  intros H. rewrite JsMap_set_keys.
  destruct (existsb (String.eqb k) (map fst m)) eqn:E; [exact H|].
  apply NoDup_app; [exact H|repeat constructor; auto|].
  intros x Hx [Hk|[]]. subst x.
  assert (existsb (String.eqb k) (map fst m) = true).
  { apply existsb_exists. exists k. split; [exact Hx|apply String.eqb_refl]. }
  congruence.
Qed.

Lemma JsMap_get_In {V} k (b : V) (m : JsMap.t) :
  NoDup (map fst m) -> In (k, b) m -> JsMap.get String.eqb k m = Some b.
Proof.
  induction m as [|[k0 v0] m IH]; simpl; intros Hnd Hin; [contradiction|].
  inversion Hnd as [|? ? Hnot Hnd']; subst.
  destruct Hin as [Hin|Hin].
  - inversion Hin; subst. now rewrite String.eqb_refl.
  - destruct (String.eqb k0 k) eqn:E; [|auto].
    apply String.eqb_eq in E. subst k0. exfalso. apply Hnot.
    apply in_map_iff. exists (k, b). auto.
Qed.

Lemma JsMap_get_Some_In {V} k (b : V) (m : JsMap.t) :
  JsMap.get String.eqb k m = Some b -> In (k, b) m.
Proof.
  induction m as [|[k0 v0] m IH]; simpl; intros H; [discriminate|].
  destruct (String.eqb k0 k) eqn:E; [|auto].
  apply String.eqb_eq in E. inversion H; subst. auto.
Qed.

Lemma bumpAll_NoDup key (es : list TimeEntry) :
  forall m, NoDup (map fst m) -> NoDup (map fst (bumpAll key es m)).
Proof.
  induction es as [|e es IH]; intros m H; simpl; [exact H|].
  unfold bumpAll in *. simpl. apply IH.
  destruct (isIdle e); [exact H|]. now apply JsMap_set_NoDup.
Qed.

Lemma summary_projectMap (es : list TimeEntry) :
  forall acc,
    projectMap (fold_left summaryStep es acc)
    = bumpAll effectiveProject es (projectMap acc).
Proof.
  induction es as [|e es IH]; intros acc; simpl; [reflexivity|].
  rewrite IH. unfold bumpAll. simpl. f_equal.
  unfold summaryStep, durationOf. destruct (isIdle e); reflexivity.
Qed.

Lemma summary_appMap (es : list TimeEntry) :
  forall acc,
    appMap (fold_left summaryStep es acc)
    = bumpAll appName es (appMap acc).
Proof.
  induction es as [|e es IH]; intros acc; simpl; [reflexivity|].
  rewrite IH. unfold bumpAll. simpl. f_equal.
  unfold summaryStep, durationOf. destruct (isIdle e); reflexivity.
Qed.

Lemma JsMap_set_sum k (v : Bucket) (m : JsMap.t) :
  sumZ (map (fun kb => seconds (snd kb)) (JsMap.set String.eqb k v m))
  = sumZ (map (fun kb => seconds (snd kb)) m)
    - seconds (nullish (JsMap.get String.eqb k m) (mkBucket 0 0))
    + seconds v.
Proof.
  induction m as [|[k0 v0] m IH]; simpl; [lia|].
  destruct (String.eqb k0 k); simpl; [lia|]. rewrite IH. lia.
Qed.

Lemma summary_project_seconds (es : list TimeEntry) :
  forall acc,
    sumZ (map (fun kb => seconds (snd kb))
              (projectMap (fold_left summaryStep es acc)))
      - accActive (fold_left summaryStep es acc)
    = sumZ (map (fun kb => seconds (snd kb)) (projectMap acc))
      - accActive acc.
Proof.
  induction es as [|e es IH]; intros acc; simpl; [reflexivity|].
  rewrite IH. unfold summaryStep. destruct (isIdle e); simpl; [reflexivity|].
  unfold bump. rewrite JsMap_set_sum. simpl. lia.
Qed.

Lemma bucket_of_entry key (es : list TimeEntry) e :
  In e es -> isIdle e = false -> bucketOf key (key e) es <> [].
Proof.
  intros Hin Hidle Hnil.
  assert (H : In e (bucketOf key (key e) es)).
  { apply filter_In. split; [exact Hin|].
    now rewrite Hidle, String.eqb_refl. }
  rewrite Hnil in H. contradiction.
Qed.

(** What a bucket of the summary loop holds: the map has a key exactly
    for the keys of the non-idle entries, with their summed durations
    and their number. *)
Lemma bumpAll_entries key (es : list TimeEntry) k b :
  In (k, b) (bumpAll key es JsMap.empty) ->
  bucketOf key k es <> []
  /\ seconds b = sumZ (map durationOf (bucketOf key k es))
  /\ entries b = Z.of_nat (List.length (bucketOf key k es)).
Proof.
  intros Hin.
  apply JsMap_get_In in Hin; [|apply bumpAll_NoDup; constructor].
  rewrite bumpAll_get in Hin. simpl in Hin.
  destruct (bucketOf key k es) as [|x sel]; [discriminate|].
  inversion Hin; subst. simpl. repeat split; try lia. discriminate.
Qed.

Lemma bumpAll_has_key key (es : list TimeEntry) e :
  In e es -> isIdle e = false ->
  In (key e) (map fst (bumpAll key es JsMap.empty)).
Proof.
  intros Hin Hidle.
  pose proof (bucket_of_entry key es e Hin Hidle) as Hne.
  pose proof (bumpAll_get key (key e) es JsMap.empty) as Hget.
  destruct (bucketOf key (key e) es) as [|x sel]; [congruence|].
  apply JsMap_get_Some_In in Hget.
  apply in_map_iff. eexists. split; [|exact Hget]. reflexivity.
Qed.

(** X2.  The project breakdown of a daily summary partitions the day's
    active time by effective project: project ids are not repeated, every
    non-idle entry of the day has a row, each row carries the summed
    durations and the number of the non-idle entries of its project (at
    least one), its name is its id, and the rows' seconds add up to
    [activeSeconds]. *)
Theorem project_breakdown_partitions_active_time (date : Z) (db : Database.t) :
  let s := getDailySummary date db in
  let es := getTimeEntries (startOfDay date) (endOfDay date) None db in
  NoDup (map ptProjectId (projectBreakdown s))
  /\ (forall pt, In pt (projectBreakdown s) ->
        let sel := bucketOf effectiveProject (ptProjectId pt) es in
        ptProjectName pt = ptProjectId pt
        /\ sel <> []
        /\ ptSeconds pt = sumZ (map durationOf sel)
        /\ ptEntries pt = Z.of_nat (List.length sel))
  /\ (forall e, In e es -> isIdle e = false ->
        In (effectiveProject e) (map ptProjectId (projectBreakdown s)))
  /\ sumZ (map ptSeconds (projectBreakdown s)) = activeSeconds s.
Proof.
  intros s es. subst s. unfold getDailySummary. simpl. fold es.
  rewrite summary_projectMap. simpl.
  assert (Hids : forall m : JsMap.t (K := string) (V := Bucket),
             map ptProjectId
               (map (fun '(id, data) =>
                       mkProjectTime id id (seconds data) (entries data))
                    (JsMap.entries m))
             = map fst m).
  { intros m. unfold JsMap.entries. rewrite map_map.
    apply map_ext. intros [k b]. reflexivity. }
  rewrite Hids. repeat split.
  - apply bumpAll_NoDup. constructor.
  - apply in_map_iff in H. destruct H as ([k b] & <- & _). reflexivity.
  - apply in_map_iff in H. destruct H as ([k b] & <- & Hin). simpl.
    apply (bumpAll_entries _ _ _ _ Hin).
  - apply in_map_iff in H. destruct H as ([k b] & <- & Hin). simpl.
    apply (bumpAll_entries _ _ _ _ Hin).
  - apply in_map_iff in H. destruct H as ([k b] & <- & Hin). simpl.
    apply (bumpAll_entries _ _ _ _ Hin).
  - intros e Hin Hidle. now apply bumpAll_has_key.
  - pose proof (summary_project_seconds es
                  (mkTotals 0 0 0 JsMap.empty JsMap.empty JsMap.empty)) as H.
    rewrite summary_projectMap in H. simpl in H.
    assert (Hsum : forall m : JsMap.t (K := string) (V := Bucket),
               sumZ (map ptSeconds
                       (map (fun '(id, data) =>
                               mkProjectTime id id (seconds data) (entries data))
                            m))
               = sumZ (map (fun kb => seconds (snd kb)) m)).
    { induction m as [|[k b] m IHm]; simpl; [reflexivity|]. now rewrite IHm. }
    unfold JsMap.entries. rewrite Hsum. lia.
Qed.

Lemma Sorted_firstn {A} (R : A -> A -> Prop) (l : list A) :
  Sorted R l -> forall n, Sorted R (firstn n l).
Proof.
  induction 1 as [|a l Hs IH Hhd]; intros n.
  - rewrite firstn_nil. constructor.
  - destruct n as [|n]; simpl; [constructor|].
    constructor; [apply IH|].
    destruct Hhd; destruct n; simpl; constructor. assumption.
Qed.

Lemma firstn_incl {A} (n : nat) (l : list A) x :
  In x (firstn n l) -> In x l.
Proof.
  intros H. rewrite <- (firstn_skipn n l). apply in_or_app. now left.
Qed.

Lemma topApps_eq (date : Z) (db : Database.t) :
  topApps (getDailySummary date db)
  = firstn 10
      (stableSort (fun a b => atSeconds b <=? atSeconds a)
         (map (fun '(appName, data) =>
                 mkAppTime appName (seconds data) (entries data))
              (bumpAll appName
                 (getTimeEntries (startOfDay date) (endOfDay date) None db)
                 JsMap.empty))).
Proof.
  unfold getDailySummary. cbv zeta. cbn [topApps].
  rewrite summary_appMap. reflexivity.
Qed.

(** X3.  [topApps] has at most ten rows, in descending order of seconds,
    and each row carries the summed durations and the number of the
    day's non-idle entries of its app. *)
Theorem top_apps_are_ten_largest_first (date : Z) (db : Database.t) :
  let s := getDailySummary date db in
  let es := getTimeEntries (startOfDay date) (endOfDay date) None db in
  (List.length (topApps s) <= 10)%nat
  /\ Sorted (fun a b => atSeconds b <= atSeconds a) (topApps s)
  /\ (forall a, In a (topApps s) ->
        let sel := bucketOf appName (atAppName a) es in
        sel <> []
        /\ atSeconds a = sumZ (map durationOf sel)
        /\ atEntries a = Z.of_nat (List.length sel)).
Proof.
  intros s es. subst s. rewrite topApps_eq. fold es. split; [|split].
  - apply firstn_le_length.
  - apply Sorted_firstn.
    assert (Hs := stableSort_sorted (fun a b => atSeconds b <=? atSeconds a)).
    match goal with |- Sorted _ (stableSort _ ?l) => specialize (Hs (fun a b =>
      match Z.le_ge_cases (atSeconds b) (atSeconds a) with
      | or_introl H => or_introl (proj2 (Z.leb_le _ _) H)
      | or_intror H => or_intror (proj2 (Z.leb_le _ _) (Z.ge_le _ _ (Z.le_ge _ _ H)))
      end) l) end.
    induction Hs as [|a l Hs' IH Hhd]; constructor; auto.
    destruct Hhd; constructor. now apply Z.leb_le.
  - intros a Hin. apply firstn_incl in Hin.
    eapply Permutation_in in Hin; [|apply stableSort_perm].
    apply in_map_iff in Hin. destruct Hin as ([k b] & <- & Hin). simpl.
    apply (bumpAll_entries _ _ _ _ Hin).
Qed.

(** ** The day a summary covers *)

Lemma endOfDay_eq (date : Z) :
  endOfDay date = startOfDay date + JsDate.msPerDay.
Proof.
  unfold endOfDay, startOfDay, JsDate.setDate, JsDate.monthStartDay,
    JsDate.setHoursZero, JsDate.TimeWithinDay, JsDate.Day, JsDate.msPerDay.
  generalize (JsDate.getDate (date / 86400000 * 86400000)). intros g.
  Z.to_euclidean_division_equations. lia.
Qed.

(** X4.  The window of a daily summary is the calendar day of its
    argument: it starts at that day's midnight, ends 24 hours later
    (also across the end of a month), contains the argument, and the
    entries summarised are exactly the stored entries whose timestamp
    falls on that day; two dates of one day give the same summary. *)
Theorem daily_summary_covers_the_day (date : Z) (db : Database.t) :
  startOfDay date <= date < endOfDay date
  /\ endOfDay date = startOfDay date + JsDate.msPerDay
  /\ Types.date (getDailySummary date db) = JsDate.Day date * JsDate.msPerDay
  /\ (forall e,
        In e (getTimeEntries (startOfDay date) (endOfDay date) None db)
        <-> In e (rows db) /\ JsDate.Day (timestamp e) = JsDate.Day date)
  /\ (forall date', JsDate.Day date' = JsDate.Day date ->
        getDailySummary date' db = getDailySummary date db).
Proof.
  split; [|split; [|split; [|split]]].
  - rewrite endOfDay_eq.
    unfold startOfDay, JsDate.setHoursZero, JsDate.Day, JsDate.msPerDay.
    Z.to_euclidean_division_equations. lia.
  - apply endOfDay_eq.
  - reflexivity.
  - intros e. rewrite getTimeEntries_In.
    unfold inRange, matchesProject. rewrite endOfDay_eq.
    rewrite andb_true_r, andb_true_iff, Z.leb_le, Z.ltb_lt.
    unfold startOfDay, JsDate.setHoursZero, JsDate.Day, JsDate.msPerDay.
    split; intros [H1 H2]; (split; [exact H1|]);
      Z.to_euclidean_division_equations; lia.
  - intros date' Hd. unfold getDailySummary, endOfDay, startOfDay,
      JsDate.setHoursZero. rewrite Hd. reflexivity.
Qed.

(** X5.  Without a project filter, and with the empty string as filter,
    [getTimeEntries] returns in ascending order of timestamp exactly the
    rows with [start <= timestamp < end]: a row at [start] is in, a row
    at [end] is out, and an interval with [end <= start] is empty. *)
Theorem getTimeEntries_half_open_range (startDate endDate : Z) (db : Database.t) :
  let result := getTimeEntries startDate endDate None db in
  getTimeEntries startDate endDate (Some EmptyString) db = result
  /\ StronglySorted (fun a b => timestamp a <= timestamp b) result
  /\ Permutation result
       (filter (fun r => (startDate <=? timestamp r)
                         && (timestamp r <? endDate)) (rows db))
  /\ (forall r, In r result
                <-> In r (rows db) /\ startDate <= timestamp r < endDate)
  /\ (endDate <= startDate -> result = []).
Proof.
  intros result. subst result.
  assert (Hperm : Permutation (getTimeEntries startDate endDate None db)
            (filter (fun r => (startDate <=? timestamp r)
                              && (timestamp r <? endDate)) (rows db))).
  { unfold getTimeEntries. rewrite stableSort_perm.
    erewrite filter_ext; [reflexivity|].
    intros r. unfold inRange, matchesProject. now rewrite andb_true_r. }
  assert (Hin : forall r, In r (getTimeEntries startDate endDate None db)
                <-> In r (rows db) /\ startDate <= timestamp r < endDate).
  { intros r. rewrite getTimeEntries_In.
    unfold inRange, matchesProject.
    rewrite andb_true_r, andb_true_iff, Z.leb_le, Z.ltb_lt. tauto. }
  split; [reflexivity|]. split; [|split; [exact Hperm|split; [exact Hin|]]].
  - apply Sorted_by_timestamp. unfold getTimeEntries.
    apply stableSort_sorted. intros a b.
    destruct (Z.le_ge_cases (timestamp a) (timestamp b)) as [H|H];
      [left|right]; apply Z.leb_le; lia.
  - intros Hle.
    destruct (getTimeEntries startDate endDate None db) as [|r l] eqn:E;
      [reflexivity|].
    assert (H : In r (r :: l)) by (now left).
    apply Hin in H. lia.
Qed.

Lemma getTimeEntries_half_open_range_witness :
  let e i t := mkTimeEntry i t "App" "w" None None None None None false None in
  let db := mkDb [e 1 100; e 2 200; e 3 300] 3 in
  map id (getTimeEntries 100 300 None db) = [1; 2]
  /\ getTimeEntries 300 100 None db = [].
Proof.
  intros e db. split; [reflexivity|].
  refine (proj2 (proj2 (proj2 (proj2
            (getTimeEntries_half_open_range 300 100 db)))) _). lia.
Defined.

(** ** Ids *)

Lemma map_id_preserved (f : TimeEntry -> TimeEntry) (rs : list TimeEntry) :
  (forall r, id (f r) = id r) -> map id (map f rs) = map id rs.
Proof.
  intros Hf. rewrite map_map. apply map_ext. exact Hf.
Qed.

Lemma WellFormed_map (f : TimeEntry -> TimeEntry) (db : Database.t) :
  (forall r, id (f r) = id r) ->
  WellFormed db -> WellFormed (mkDb (map f (rows db)) (lastRowid db)).
Proof.
  intros Hf (H1 & H0 & H2). split; [|split]; simpl.
  - now rewrite map_id_preserved.
  - exact H0.
  - apply Forall_map. eapply Forall_impl; [|exact H2]. simpl.
    intros r Hr. now rewrite Hf.
Qed.

Lemma NoDup_map_filter {A B} (g : A -> B) (f : A -> bool) (l : list A) :
  NoDup (map g l) -> NoDup (map g (filter f l)).
Proof.
  induction l as [|a l IH]; simpl; intros H; [constructor|].
  inversion H as [|? ? Hnot Hnd]; subst.
  destruct (f a); simpl; [|auto].
  constructor; [|auto]. intros Hin. apply Hnot.
  apply in_map_iff in Hin. destruct Hin as (x & Hx & Hin).
  apply filter_In in Hin. apply in_map_iff. exists x. tauto.
Qed.

Lemma WellFormed_applyCall (db : Database.t) (c : DbCall) :
  WellFormed db ->
  WellFormed (applyCall db c)
  /\ lastRowid (applyCall db c)
     = lastRowid db + (if isInsert c then 1 else 0).
Proof.
  intros HW. destruct c as [e|ts|i td pid ai|i p|now days]; simpl.
  - destruct HW as (H1 & H0 & H2). split; [|reflexivity].
    split; [|split]; simpl.
    + rewrite map_app. simpl.
      apply NoDup_app; [exact H1|repeat constructor; auto|].
      intros x Hx [Hk|[]]. subst x.
      apply in_map_iff in Hx. destruct Hx as (r & Hr & Hin).
      rewrite Forall_forall in H2. specialize (H2 r Hin). lia.
    + lia.
    + apply Forall_app. split.
      * eapply Forall_impl; [|exact H2]. simpl. intros; lia.
      * constructor; [simpl; lia|constructor].
  - unfold updatePreviousEntryDuration.
    destruct (lastEntryOf (rows db)) as [lastEntry|];
      [|split; [exact HW|lia]].
    split; [|simpl; lia].
    apply WellFormed_map; [|exact HW].
    intros r. destruct (id r =? id lastEntry); reflexivity.
  - split; [|simpl; lia]. apply WellFormed_map; [|exact HW].
    intros r. destruct (id r =? i); reflexivity.
  - split; [|simpl; lia]. apply WellFormed_map; [|exact HW].
    intros r. destruct (id r =? i); reflexivity.
  - split; [|simpl; lia]. destruct HW as (H1 & H0 & H2).
    split; [|split]; simpl.
    + now apply NoDup_map_filter.
    + exact H0.
    + apply Forall_forall. intros r Hr. apply filter_In in Hr.
      rewrite Forall_forall in H2. now apply H2.
Qed.

Lemma WellFormed_calls (calls : list DbCall) :
  forall db,
    WellFormed db ->
    WellFormed (fold_left applyCall calls db)
    /\ lastRowid (fold_left applyCall calls db)
       = lastRowid db + Z.of_nat (List.length (filter isInsert calls)).
Proof.
  induction calls as [|c calls IH]; intros db HW; simpl.
  - split; [exact HW|lia].
  - destruct (WellFormed_applyCall db c HW) as [HW' Hl].
    destruct (IH _ HW') as [HW'' Hl']. split; [exact HW''|].
    rewrite Hl', Hl. destruct (isInsert c); simpl; lia.
Qed.

(** X6.  Whatever sequence of inserts, back-fills, analysis write-backs,
    manual assignments and retention sweeps is applied to a fresh table,
    the ids of its rows stay distinct, the AUTOINCREMENT counter is the
    number of inserts made so far, and the next insert returns an id
    greater than every id in the table: the sweep does not free ids for
    reuse. *)
Theorem ids_are_never_reused (calls : list DbCall) (e : TimeEntry) :
  let db := fold_left applyCall calls initDatabase in
  NoDup (map id (rows db))
  /\ lastRowid db = Z.of_nat (List.length (filter isInsert calls))
  /\ fst (insertTimeEntry e db) = lastRowid db + 1
  /\ Forall (fun r => 0 < id r < fst (insertTimeEntry e db)) (rows db).
Proof.
  intros db.
  assert (H0 : WellFormed initDatabase).
  { split; [constructor|split; [simpl; lia|constructor]]. }
  destruct (WellFormed_calls calls _ H0) as [(H1 & H2 & H3) Hl].
  fold db in H1, H2, H3, Hl. simpl in Hl.
  split; [exact H1|]. split; [exact Hl|]. split; [reflexivity|].
  simpl. eapply Forall_impl; [|exact H3]. simpl. intros; lia.
Qed.

(** ** Write-backs *)

(** X7.  [updateEntryAnalysis] on an id the table does not hold changes
    nothing; on any id it leaves the number and order of the rows and, in
    every row, the id, timestamp, app, title, screenshot, manual project,
    duration and idle flag as they were, and the rows with that id then
    carry the description, project and payload given. *)
Theorem analysis_writeback_is_local
    (entryId : Z) (td : string) (pid : option string) (ai : string)
    (db : Database.t) :
  let db' := updateEntryAnalysis entryId td pid ai db in
  (~ In entryId (map id (rows db)) -> db' = db)
  /\ lastRowid db' = lastRowid db
  /\ map outsideAnalysis (rows db') = map outsideAnalysis (rows db)
  /\ (forall r, In r (rows db') -> id r = entryId ->
        taskDescription r = Some td /\ projectId r = pid
        /\ aiAnalysis r = Some ai)
  /\ (forall r, In r (rows db') -> id r <> entryId -> In r (rows db)).
Proof.
  intros db'. subst db'. unfold updateEntryAnalysis. simpl.
  split; [|split; [reflexivity|split; [|split]]].
  - intros Hnot. destruct db as [rs n]. simpl in *. f_equal.
    induction rs as [|r rs IH]; simpl; [reflexivity|].
    simpl in Hnot. destruct (Z.eqb_spec (id r) entryId) as [E|E].
    + exfalso. apply Hnot. now left.
    + f_equal. apply IH. intros H. apply Hnot. now right.
  - rewrite map_map. apply map_ext. intros r.
    destruct (id r =? entryId); reflexivity.
  - intros r Hin Hid. apply in_map_iff in Hin.
    destruct Hin as (r0 & <- & _).
    destruct (Z.eqb_spec (id r0) entryId) as [E|E]; [now simpl|].
    contradiction.
  - intros r Hin Hid. apply in_map_iff in Hin.
    destruct Hin as (r0 & <- & Hin).
    destruct (Z.eqb_spec (id r0) entryId) as [E|E]; [|exact Hin].
    simpl in Hid. contradiction.
Qed.

Lemma analysis_writeback_is_local_witness :
  let e i := mkTimeEntry i (i * 1000) "App" "w" None None None None None false None in
  let db := mkDb [e 1; e 2] 2 in
  updateEntryAnalysis 7 "task" None "{}" db = db.
Proof.
  intros e db.
  refine (proj1 (analysis_writeback_is_local 7 "task" None "{}" db) _).
  simpl. intros [H|[H|[]]]; discriminate.
Defined.

(** ** The most recent entry *)

Lemma lastEntryOf_fold_max (rs : list TimeEntry) :
  forall acc a,
    fold_left
      (fun acc r =>
         match acc with
         | None => Some r
         | Some a => if timestamp a <=? timestamp r then Some r else Some a
         end) rs acc = Some a ->
    (forall b, acc = Some b -> timestamp b <= timestamp a)
    /\ (forall r, In r rs -> timestamp r <= timestamp a).
Proof.
  induction rs as [|r rs IH]; intros acc a H; simpl in *.
  - split; [|intros r []]. intros b Hb. rewrite Hb in H.
    inversion H; subst. lia.
  - apply IH in H. destruct H as [H1 H2]. split.
    + intros b ->. destruct (Z.leb_spec (timestamp b) (timestamp r)).
      * specialize (H1 r eq_refl). lia.
      * exact (H1 b eq_refl).
    + intros r' [<-|Hin]; [|auto].
      destruct acc as [b|]; [|exact (H1 r eq_refl)].
      destruct (Z.leb_spec (timestamp b) (timestamp r)).
      * exact (H1 r eq_refl).
      * specialize (H1 b eq_refl). lia.
Qed.

Lemma lastEntryOf_map (f : TimeEntry -> TimeEntry) (rs : list TimeEntry) :
  (forall r, timestamp (f r) = timestamp r) ->
  lastEntryOf (map f rs) = option_map f (lastEntryOf rs).
Proof.
  intros Hf. unfold lastEntryOf.
  change (@None TimeEntry) with (option_map f None) at 1.
  generalize (@None TimeEntry). induction rs as [|r rs IH]; intros acc; simpl.
  - reflexivity.
  - rewrite <- IH. f_equal. destruct acc as [a|]; simpl; [|reflexivity].
    rewrite !Hf. destruct (timestamp a <=? timestamp r); reflexivity.
Qed.

Lemma lastEntryOf_fold_Some (rs : list TimeEntry) :
  forall a,
    fold_left
      (fun acc r =>
         match acc with
         | None => Some r
         | Some a => if timestamp a <=? timestamp r then Some r else Some a
         end) rs (Some a) <> None.
Proof.
  induction rs as [|r rs IH]; intros a; simpl; [discriminate|].
  destruct (timestamp a <=? timestamp r); apply IH.
Qed.

(** X8.  [getLastEntry] returns nothing exactly on an empty table;
    otherwise it returns a stored row that no row is later than, and it
    is the row [updatePreviousEntryDuration] closes. *)
Theorem getLastEntry_is_latest (db : Database.t) :
  (getLastEntry db = None <-> rows db = [])
  /\ (forall e, getLastEntry db = Some e ->
        In e (rows db)
        /\ (forall r, In r (rows db) -> timestamp r <= timestamp e)
        /\ forall now,
             getLastEntry (updatePreviousEntryDuration now db)
             = Some (setDuration ((now - timestamp e) / 1000) e)).
Proof.
  unfold getLastEntry. split.
  - split; [|intros ->; reflexivity].
    destruct (rows db) as [|r rs]; [reflexivity|].
    unfold lastEntryOf. simpl. intros H. exfalso.
    exact (lastEntryOf_fold_Some rs r H).
  - intros e He. split; [now apply lastEntryOf_In|]. split.
    + apply (lastEntryOf_fold_max _ _ _ He).
    + intros now. unfold updatePreviousEntryDuration. rewrite He. simpl.
      unfold updateDurationWhereId. rewrite lastEntryOf_map.
      * rewrite He. simpl. now rewrite Z.eqb_refl.
      * intros r. destruct (id r =? id e); reflexivity.
Qed.

Lemma getLastEntry_is_latest_witness :
  let e i t := mkTimeEntry i t "App" "w" None None None None None false None in
  let db := mkDb [e 1 100; e 2 300; e 3 200] 3 in
  getLastEntry db = Some (e 2 300)
  /\ forall r, In r (rows db) -> timestamp r <= 300.
Proof.
  intros e db. split; [reflexivity|].
  exact (proj1 (proj2 (proj2 (getLastEntry_is_latest db) (e 2 300) eq_refl))).
Defined.

(** X9.  A second back-fill overwrites the first: closing at [now1] and
    then at [now2] leaves the table as closing at [now2] alone does, so
    repeating the call with the same clock reading changes nothing.  The
    back-fill never changes the number of rows, their ids or their
    timestamps. *)
Theorem backfill_overwrites (now1 now2 : Z) (db : Database.t) :
  updatePreviousEntryDuration now2 (updatePreviousEntryDuration now1 db)
  = updatePreviousEntryDuration now2 db
  /\ map (fun r => (id r, timestamp r))
         (rows (updatePreviousEntryDuration now1 db))
     = map (fun r => (id r, timestamp r)) (rows db)
  /\ lastRowid (updatePreviousEntryDuration now1 db) = lastRowid db.
Proof.
  unfold updatePreviousEntryDuration.
  destruct (lastEntryOf (rows db)) as [e|] eqn:He; simpl.
  - unfold updateDurationWhereId. rewrite lastEntryOf_map.
    2:{ intros r. destruct (id r =? id e); reflexivity. }
    rewrite He. simpl. rewrite Z.eqb_refl. simpl.
    split; [|split; [|reflexivity]].
    + f_equal. rewrite map_map. apply map_ext. intros r.
      destruct (id r =? id e) eqn:E; simpl; rewrite E; reflexivity.
    + rewrite map_map. apply map_ext. intros r.
      destruct (id r =? id e); reflexivity.
  - rewrite He. auto.
Qed.

(** ** The retention sweep *)

Lemma retentionCutoff_eq (now retentionDays : Z) :
  retentionCutoff now retentionDays = now - retentionDays * JsDate.msPerDay.
Proof.
  unfold retentionCutoff, JsDate.setDate, JsDate.monthStartDay,
    JsDate.TimeWithinDay, JsDate.Day, JsDate.msPerDay.
  generalize (JsDate.getDate now). intros g.
  Z.to_euclidean_division_equations. lia.
Qed.

Lemma filter_split_length {A} (f : A -> bool) (l : list A) :
  (List.length (filter f l) + List.length (filter (fun x => negb (f x)) l)
   = List.length l)%nat.
Proof.
  induction l as [|a l IH]; simpl; [reflexivity|].
  destruct (f a); simpl; lia.
Qed.

(** X10.  [deleteOldEntries] removes exactly the rows older than
    [retentionDays] times 24 hours before now, whatever the day of the
    month, keeps the others in their order, returns the number of rows
    removed, and leaves the AUTOINCREMENT counter as it was. *)
Theorem retention_sweep_removes_old_rows
    (now retentionDays : Z) (db : Database.t) :
  let cutoff := now - retentionDays * JsDate.msPerDay in
  let result := deleteOldEntries now retentionDays db in
  rows (snd result) = filter (fun r => cutoff <=? timestamp r) (rows db)
  /\ (forall r, In r (rows (snd result))
                <-> In r (rows db) /\ cutoff <= timestamp r)
  /\ fst result
     = Z.of_nat (List.length (rows db))
       - Z.of_nat (List.length (rows (snd result)))
  /\ lastRowid (snd result) = lastRowid db.
Proof.
  intros cutoff result. subst cutoff result.
  unfold deleteOldEntries. rewrite retentionCutoff_eq. simpl.
  set (c := now - retentionDays * JsDate.msPerDay).
  assert (E : filter (fun r => negb (timestamp r <? c)) (rows db)
              = filter (fun r => c <=? timestamp r) (rows db)).
  { apply filter_ext. intros r.
    destruct (Z.ltb_spec (timestamp r) c), (Z.leb_spec c (timestamp r));
      simpl; try reflexivity; lia. }
  split; [exact E|]. split; [|split; [|reflexivity]].
  - intros r. rewrite E, filter_In, Z.leb_le. tauto.
  - pose proof (filter_split_length (fun r => timestamp r <? c) (rows db)).
    lia.
Qed.

(** ** Write-backs and the daily summary *)

Lemma filter_map_commute {A} (f : A -> A) (p : A -> bool) (l : list A) :
  (forall x, p (f x) = p x) -> filter p (map f l) = map f (filter p l).
Proof.
  intros H. induction l as [|a l IH]; simpl; [reflexivity|].
  rewrite H. destruct (p a); simpl; now rewrite IH.
Qed.

Lemma stableSort_map {A} (f : A -> A) (le : A -> A -> bool) (l : list A) :
  (forall a b, le (f a) (f b) = le a b) ->
  stableSort le (map f l) = map f (stableSort le l).
Proof.
  intros H. induction l as [|x l IH]; simpl; [reflexivity|].
  rewrite IH. generalize (stableSort le l). intros s.
  induction s as [|y s IHs]; simpl; [reflexivity|].
  rewrite H. destruct (le x y); simpl; [reflexivity|]. now rewrite IHs.
Qed.

Lemma getTimeEntries_map (f : TimeEntry -> TimeEntry) startDate endDate db :
  (forall r, timestamp (f r) = timestamp r) ->
  getTimeEntries startDate endDate None (mkDb (map f (rows db)) (lastRowid db))
  = map f (getTimeEntries startDate endDate None db).
Proof.
  intros Hf. unfold getTimeEntries. simpl.
  rewrite filter_map_commute.
  - apply stableSort_map. intros a b. now rewrite !Hf.
  - intros r. unfold inRange. now rewrite Hf.
Qed.

Lemma summary_map_sameButProjects (f : TimeEntry -> TimeEntry)
    (es : list TimeEntry) :
  (forall r, durationSeconds (f r) = durationSeconds r
             /\ isIdle (f r) = isIdle r /\ appName (f r) = appName r) ->
  forall a b,
    sameButProjects a b ->
    sameButProjects (fold_left summaryStep (map f es) a)
                    (fold_left summaryStep es b).
Proof.
  intros Hf. induction es as [|e es IH]; intros a b Hab; simpl; [exact Hab|].
  apply IH. destruct Hab as (H1 & H2 & H3 & H4 & H5).
  destruct (Hf e) as (Hd & Hi & Ha).
  unfold summaryStep, sameButProjects. rewrite Hd, Hi, Ha.
  destruct (isIdle e); simpl; repeat split; congruence.
Qed.

Lemma summary_unchanged_by_map (f : TimeEntry -> TimeEntry) date db :
  (forall r, timestamp (f r) = timestamp r
             /\ durationSeconds (f r) = durationSeconds r
             /\ isIdle (f r) = isIdle r /\ appName (f r) = appName r) ->
  let s := getDailySummary date db in
  let s' := getDailySummary date (mkDb (map f (rows db)) (lastRowid db)) in
  totalTrackedSeconds s' = totalTrackedSeconds s
  /\ idleSeconds s' = idleSeconds s
  /\ activeSeconds s' = activeSeconds s
  /\ topApps s' = topApps s.
Proof.
  intros Hf s s'. subst s s'.
  assert (Hsame :
    sameButProjects
      (fold_left summaryStep
         (getTimeEntries (startOfDay date) (endOfDay date) None
            (mkDb (map f (rows db)) (lastRowid db)))
         (mkTotals 0 0 0 JsMap.empty JsMap.empty JsMap.empty))
      (fold_left summaryStep
         (getTimeEntries (startOfDay date) (endOfDay date) None db)
         (mkTotals 0 0 0 JsMap.empty JsMap.empty JsMap.empty))).
  { rewrite getTimeEntries_map by (intros r; apply Hf).
    apply summary_map_sameButProjects.
    - intros r. destruct (Hf r) as (_ & ? & ? & ?). auto.
    - repeat split. }
  destruct Hsame as (H1 & H2 & H3 & H4 & H5).
  unfold getDailySummary. cbv zeta.
  cbn [totalTrackedSeconds idleSeconds activeSeconds topApps].
  rewrite H1, H2, H3, H4. repeat split.
Qed.

(** X11.  Neither the analysis write-back nor a manual project
    assignment changes the time a daily summary reports: total, idle and
    active seconds and the top apps are what they were before the
    write. *)
Theorem writebacks_keep_time_totals
    (date entryId : Z) (td p : string) (pid : option string) (ai : string)
    (db : Database.t) :
  let s := getDailySummary date db in
  let s1 := getDailySummary date (updateEntryAnalysis entryId td pid ai db) in
  let s2 := getDailySummary date (setManualProject entryId p db) in
  (totalTrackedSeconds s1 = totalTrackedSeconds s
   /\ idleSeconds s1 = idleSeconds s
   /\ activeSeconds s1 = activeSeconds s
   /\ topApps s1 = topApps s)
  /\ (totalTrackedSeconds s2 = totalTrackedSeconds s
      /\ idleSeconds s2 = idleSeconds s
      /\ activeSeconds s2 = activeSeconds s
      /\ topApps s2 = topApps s).
Proof.
  intros s s1 s2. subst s s1 s2. split.
  - apply (summary_unchanged_by_map
             (fun r => if id r =? entryId then setAnalysis td pid ai r else r)).
    intros r. destruct (id r =? entryId); simpl; auto.
  - apply (summary_unchanged_by_map
             (fun r => if id r =? entryId then setManual p r else r)).
    intros r. destruct (id r =? entryId); simpl; auto.
Qed.

(** X12.  After [setManualProject(id, p)] the entry's effective project
    is [p], the one its time is bucketed under, and it stays [p] when the
    classifier's result for that entry is written back afterwards; rows
    with another id are not touched. *)
Theorem manual_project_takes_precedence
    (entryId : Z) (p td : string) (pid : option string) (ai : string)
    (db : Database.t) :
  let db1 := setManualProject entryId p db in
  let db2 := updateEntryAnalysis entryId td pid ai db1 in
  (forall r, In r (rows db1) -> id r = entryId -> effectiveProject r = p)
  /\ (forall r, In r (rows db2) -> id r = entryId -> effectiveProject r = p)
  /\ (forall r, In r (rows db1) -> id r <> entryId -> In r (rows db))
  /\ map id (rows db2) = map id (rows db).
Proof.
  intros db1 db2. subst db1 db2.
  unfold setManualProject, updateEntryAnalysis. simpl.
  split; [|split; [|split]].
  - intros r Hin Hid. apply in_map_iff in Hin. destruct Hin as (r0 & <- & _).
    destruct (Z.eqb_spec (id r0) entryId); [reflexivity|contradiction].
  - intros r Hin Hid. apply in_map_iff in Hin. destruct Hin as (r1 & <- & Hin).
    apply in_map_iff in Hin. destruct Hin as (r0 & <- & _).
    destruct (Z.eqb_spec (id r0) entryId) as [E|E]; simpl in *.
    + rewrite E, Z.eqb_refl. reflexivity.
    + apply Z.eqb_neq in E. rewrite E in *. apply Z.eqb_neq in E.
      contradiction.
  - intros r Hin Hid. apply in_map_iff in Hin. destruct Hin as (r0 & <- & Hin).
    destruct (Z.eqb_spec (id r0) entryId); [|exact Hin].
    simpl in Hid. contradiction.
  - rewrite !map_map. apply map_ext. intros r.
    destruct (id r =? entryId) eqn:E; simpl; rewrite E; reflexivity.
Qed.

Lemma manual_project_takes_precedence_witness :
  let e := mkTimeEntry 1 1000 "App" "w" None None (Some "alpha"%string) None
             None false None in
  let db := mkDb [e] 1 in
  map effectiveProject
      (rows (updateEntryAnalysis 1 "task" (Some "gamma"%string) "{}"
               (setManualProject 1 "beta" db)))
  = ["beta"%string]
  /\ forall r, In r (rows (setManualProject 1 "beta" db)) -> id r = 1 ->
               effectiveProject r = "beta"%string.
Proof.
  intros e db. split; [reflexivity|].
  exact (proj1 (manual_project_takes_precedence 1 "beta" "task"
                  (Some "gamma"%string) "{}" db)).
Defined.

(* ================================================================== *)
(** * Further properties of the capture cycle *)

Lemma captureOps_cycleRuns (config : TrackerConfig) (p : Tracker.Probes) :
  Tracker.captureOps config p
  = match Tracker.probeActiveWindow p with
    | Some w =>
        if cycleRuns config p
        then [Tracker.OpUpdatePreviousEntryDuration (Tracker.now p);
              Tracker.OpInsertTimeEntry
                (Tracker.newEntry (Tracker.now p) w
                   match Tracker.probeScreenshot p with
                   | Ok filePath => Some filePath
                   | Throw => None
                   end)]
        else []
    | None => []
    end.
Proof.
  unfold Tracker.captureOps, cycleRuns, Idle.checkIdleState. simpl.
  destruct (idleThresholdSeconds config <=? Tracker.probeIdleSeconds p); simpl.
  - destruct (Tracker.probeActiveWindow p); reflexivity.
  - destruct (Tracker.probeActiveWindow p) as [w|]; [|reflexivity].
    destruct (Window.shouldExcludeWindow w config); reflexivity.
Qed.

Lemma updatePrevious_as_map (now : Z) (db : Database.t) :
  exists g,
    (forall r, id (g r) = id r /\ captureOf (g r) = captureOf r)
    /\ rows (updatePreviousEntryDuration now db) = map g (rows db)
    /\ lastRowid (updatePreviousEntryDuration now db) = lastRowid db.
Proof.
  unfold updatePreviousEntryDuration.
  destruct (lastEntryOf (rows db)) as [e|].
  - eexists (fun r => if id r =? id e then setDuration _ r else r).
    split; [|split; reflexivity].
    intros r. destruct (id r =? id e); split; reflexivity.
  - exists (fun r => r). split; [auto|]. split; [|reflexivity].
    now rewrite map_id.
Qed.

Lemma idsFrom_length n k : List.length (idsFrom n k) = k.
Proof. revert n. induction k; intros n; simpl; [|rewrite IHk]; reflexivity. Qed.

Lemma run_is_a_log (config : TrackerConfig) (evs : list Tracker.Event) :
  forall db,
    let db' := fold_left (Tracker.step config) evs db in
    map captureOf (rows db') = map captureOf (rows db) ++ captured config evs
    /\ map id (rows db')
       = map id (rows db)
         ++ idsFrom (lastRowid db) (List.length (captured config evs))
    /\ lastRowid db'
       = lastRowid db + Z.of_nat (List.length (captured config evs)).
Proof.
  induction evs as [|ev evs IH]; intros db; simpl.
  - rewrite !app_nil_r. repeat split. lia.
  - destruct (IH (Tracker.step config db ev)) as (H1 & H2 & H3).
    rewrite H1, H2, H3. clear IH H1 H2 H3.
    destruct ev as [p|entryId analysis json]; simpl.
    + unfold Tracker.captureAndAnalyze. rewrite captureOps_cycleRuns.
      destruct (Tracker.probeActiveWindow p) as [w|];
        [|simpl; repeat split; lia].
      destruct (cycleRuns config p); [|simpl; repeat split; lia].
      simpl.
      destruct (updatePrevious_as_map (Tracker.now p) db) as (g & Hg & Hr & Hl).
      rewrite Hr, Hl, !map_app. simpl.
      assert (E1 : map captureOf (map g (rows db)) = map captureOf (rows db)).
      { rewrite map_map. apply map_ext. intros r. apply Hg. }
      assert (E2 : map id (map g (rows db)) = map id (rows db)).
      { rewrite map_map. apply map_ext. intros r. apply Hg. }
      rewrite E1, E2, <- !app_assoc. simpl. repeat split. lia.
    + assert (E1 : forall r : TimeEntry,
                 captureOf (if id r =? entryId
                            then setAnalysis (aTaskDescription analysis)
                                   (aSuggestedProjectId analysis) json r
                            else r) = captureOf r
                 /\ id (if id r =? entryId
                        then setAnalysis (aTaskDescription analysis)
                               (aSuggestedProjectId analysis) json r
                        else r) = id r).
      { intros r. destruct (id r =? entryId); split; reflexivity. }
      rewrite !map_map.
      rewrite (map_ext _ captureOf) by (intros r; apply E1).
      rewrite (map_ext _ id) by (intros r; apply E1).
      repeat split.
Qed.

(** X13.  The table a run of the tracker leaves is a log of the cycles
    that passed the gates (user not idle, a window, app not excluded):
    one row per such cycle, in the order of the cycles, holding the
    cycle's clock reading, the window's app and title, the screenshot
    path (none when the capture failed) and [isIdle = false], with ids
    1, 2, 3, ...; no later cycle or write-back changes these fields,
    reorders the rows or removes one. *)
Theorem run_appends_one_row_per_capture
    (config : TrackerConfig) (evs : list Tracker.Event) :
  let db := Tracker.run config evs in
  map captureOf (rows db) = captured config evs
  /\ map id (rows db) = idsFrom 0 (List.length (captured config evs))
  /\ lastRowid db = Z.of_nat (List.length (rows db))
  /\ forall more,
       firstn (List.length (rows db))
              (map captureOf (rows (Tracker.run config (evs ++ more))))
       = map captureOf (rows db).
Proof.
  intros db. subst db. unfold Tracker.run.
  destruct (run_is_a_log config evs initDatabase) as (H1 & H2 & H3).
  simpl in H1, H2, H3.
  split; [exact H1|]. split; [exact H2|]. split.
  - rewrite H3. f_equal. rewrite <- (length_map captureOf), H1. reflexivity.
  - intros more. rewrite fold_left_app.
    destruct (run_is_a_log config more
                (fold_left (Tracker.step config) evs initDatabase))
      as (H4 & _).
    rewrite H4. rewrite <- (length_map captureOf).
    rewrite firstn_app, firstn_all, Nat.sub_diag. simpl.
    now rewrite app_nil_r.
Qed.

Lemma chained_close (rs : list TimeEntry) (x y : TimeEntry) :
  chained (rs ++ [x]) ->
  chained (rs ++ [setDuration ((timestamp y - timestamp x) / 1000) x; y]).
Proof.
  induction rs as [|a rs IH]; intros H.
  - simpl. auto.
  - destruct rs as [|b rs].
    + simpl in *. destruct H as [Ha _]. auto.
    + simpl in H. destruct H as [Ha Hrest].
      change (chained (a :: b :: (rs ++ [setDuration
                ((timestamp y - timestamp x) / 1000) x; y]))).
      simpl. split; [exact Ha|]. apply IH. exact Hrest.
Qed.

Lemma chained_map (f : TimeEntry -> TimeEntry) (rs : list TimeEntry) :
  (forall r, timestamp (f r) = timestamp r
             /\ durationSeconds (f r) = durationSeconds r) ->
  chained rs -> chained (map f rs).
Proof.
  intros Hf. induction rs as [|a rs IH]; intros H; simpl; [exact I|].
  destruct rs as [|b rs]; simpl in *; [exact I|].
  destruct H as [Ha Hrest]. split; [|apply IH; exact Hrest].
  destruct (Hf a) as [-> ->]. destruct (Hf b) as [-> _]. exact Ha.
Qed.

Lemma chained_nth (rs : list TimeEntry) :
  chained rs ->
  forall i a b,
    nth_error rs i = Some a -> nth_error rs (S i) = Some b ->
    durationSeconds a = Some ((timestamp b - timestamp a) / 1000).
Proof.
  induction rs as [|x rs IH]; intros H i a b Ha Hb.
  - destruct i; discriminate.
  - destruct rs as [|y rs]; [destruct i; simpl in Hb; try discriminate;
                              destruct i; discriminate|].
    destruct H as [Hx Hrest]. destruct i as [|i].
    + simpl in Ha, Hb. inversion Ha; inversion Hb; subst. exact Hx.
    + apply (IH Hrest i a b); assumption.
Qed.

Section ChainLemmas.

Variable config : TrackerConfig.

Lemma capture_keeps_chain b (p : Tracker.Probes) db :
  Timeline b db -> chained (rows db) ->
  chained (rows (Tracker.captureAndAnalyze config p db)).
Proof.
  intros HT Hc. unfold Tracker.captureAndAnalyze.
  destruct (captureOps_shape config p) as [E|(w & s & E)]; rewrite E; simpl.
  - exact Hc.
  - destruct db as [rws n]. destruct HT as [_ H2]. simpl in *.
    destruct H2 as [->|(rs & x & -> & Hrs)].
    + simpl. exact I.
    + rewrite updatePreviousEntryDuration_snoc.
      2:{ eapply Forall_impl; [|exact Hrs]. simpl. intros; tauto. }
      simpl. rewrite <- app_assoc. simpl.
      apply (chained_close rs x
               (withId (n + 1) (Tracker.newEntry (Tracker.now p) w s))).
      exact Hc.
Qed.

Lemma run_keeps_chain (evs : list Tracker.Event) :
  forall b db,
    Timeline b db -> chained (rows db) ->
    Sorted Z.le (b :: Tracker.cycleTimes evs) ->
    chained (rows (fold_left (Tracker.step config) evs db)).
Proof.
  induction evs as [|ev evs IH]; intros b db HT Hc Hs; simpl; [exact Hc|].
  destruct ev as [p|entryId analysis json]; simpl in *.
  - inversion Hs as [|? ? Hs' Hhd]; subst.
    inversion Hhd as [|? ? Hle]; subst.
    apply (IH (Tracker.now p)); [|now apply (capture_keeps_chain b)|exact Hs'].
    eapply Timeline_capture; eauto.
  - apply (IH b); [now apply Timeline_analysis| |exact Hs].
    apply chained_map; [|exact Hc].
    intros r. destruct (id r =? entryId); split; reflexivity.
Qed.

End ChainLemmas.

(** X14.  While the clock readings of the cycles do not decrease, every
    entry but the last is closed with the whole seconds between its own
    timestamp and the timestamp of the entry stored after it, so the
    time of cycles skipped in between (user idle, no window, excluded
    app) is charged to the entry captured before them. *)
Theorem durations_span_to_next_capture
    (config : TrackerConfig) (evs : list Tracker.Event) :
  Sorted Z.le (Tracker.cycleTimes evs) ->
  forall i a b,
    nth_error (rows (Tracker.run config evs)) i = Some a ->
    nth_error (rows (Tracker.run config evs)) (S i) = Some b ->
    durationSeconds a = Some ((timestamp b - timestamp a) / 1000).
Proof.
  intros Hs. apply chained_nth. unfold Tracker.run.
  destruct (Tracker.cycleTimes evs) as [|t ts] eqn:E.
  - apply (run_keeps_chain config evs 0);
      [apply Timeline_init|exact I|rewrite E; repeat constructor].
  - apply (run_keeps_chain config evs t);
      [apply Timeline_init|exact I|].
    rewrite E. constructor; [exact Hs|constructor; lia].
Qed.

(** Captures at 09:00 and 09:30 with two idle cycles in between: the
    first entry is charged the full half hour. *)
Lemma durations_span_to_next_capture_witness :
  let config := mkTrackerConfig 5 300 [] Proxy None in
  let w := mkWindowInfo "Code" "index.ts" None 1 in
  let evs :=
    [Tracker.Cycle (Tracker.mkProbes 32400000 0 (Some w) Throw);
     Tracker.Cycle (Tracker.mkProbes 33000000 600 (Some w) Throw);
     Tracker.Cycle (Tracker.mkProbes 33600000 1200 (Some w) Throw);
     Tracker.Cycle (Tracker.mkProbes 34200000 0 (Some w) Throw)] in
  Sorted Z.le (Tracker.cycleTimes evs)
  /\ map durationSeconds (rows (Tracker.run config evs)) = [Some 1800; None]
  /\ forall a b,
       nth_error (rows (Tracker.run config evs)) 0 = Some a ->
       nth_error (rows (Tracker.run config evs)) 1 = Some b ->
       durationSeconds a = Some ((timestamp b - timestamp a) / 1000).
Proof.
  intros config w evs.
  assert (Hs : Sorted Z.le (Tracker.cycleTimes evs))
    by (repeat constructor; simpl; lia).
  split; [exact Hs|]. split; [reflexivity|].
  exact (durations_span_to_next_capture config evs Hs 0%nat).
Defined.

(* ================================================================== *)
(** * Further properties of the idle watcher, the window gate and the
      classifier *)

Lemma transitions_alternate (threshold : Z) (readings : list Z) :
  forall previous,
    map fst (transitions threshold previous readings)
    = alternating (negb previous)
        (List.length (transitions threshold previous readings)).
Proof.
  induction readings as [|r rest IH]; intros previous; simpl; [reflexivity|].
  destruct (Bool.eqb (threshold <=? r) previous) eqn:E; simpl.
  - apply Bool.eqb_prop in E. rewrite E. apply IH.
  - rewrite IH.
    assert (Hp : previous = negb (threshold <=? r))
      by (destruct (threshold <=? r), previous; simpl in *; congruence).
    rewrite Hp, Bool.negb_involutive. reflexivity.
Qed.

Lemma transitions_bounded (threshold : Z) (readings : list Z) :
  forall previous,
    (List.length (transitions threshold previous readings)
     <= List.length readings)%nat
    /\ Forall (fun call => fst call = (threshold <=? snd call)
                           /\ In (snd call) readings)
              (transitions threshold previous readings).
Proof.
  induction readings as [|r rest IH]; intros previous; simpl.
  - split; [lia|constructor].
  - destruct (IH (threshold <=? r)) as [H1 H2].
    assert (H2' : Forall (fun call => fst call = (threshold <=? snd call)
                                      /\ (r = snd call \/ In (snd call) rest))
                         (transitions threshold (threshold <=? r) rest)).
    { eapply Forall_impl; [|exact H2]. simpl. tauto. }
    destruct (Bool.eqb (threshold <=? r) previous); simpl.
    + split; [lia|exact H2'].
    + split; [lia|]. constructor; [simpl; auto|exact H2'].
Qed.

(** X15.  The callbacks of the idle watcher alternate, beginning with
    "idle": the first call reports [true], the second [false], and so
    on; each call carries a reading of the probe that is on the reported
    side of the threshold, and there are never more calls than
    checks. *)
Theorem idle_callbacks_alternate (config : TrackerConfig) (readings : list Z) :
  let calls := Idle.createIdleWatcher config readings in
  map fst calls = alternating true (List.length calls)
  /\ (List.length calls <= List.length readings)%nat
  /\ Forall (fun call =>
               fst call = (idleThresholdSeconds config <=? snd call)
               /\ In (snd call) readings) calls.
Proof.
  intros calls. subst calls. unfold Idle.createIdleWatcher.
  rewrite runChecks_transitions.
  split; [apply (transitions_alternate _ _ false)|].
  apply transitions_bounded.
Qed.

(** ** Substrings *)

Lemma prefix_spec (a b : string) :
  String.prefix a b = true <-> exists post, b = (a ++ post)%string.
Proof.
  revert b. induction a as [|c a IH]; intros b.
  - split; [intros _; exists b; reflexivity|].
    intros _. destruct b; reflexivity.
  - destruct b as [|d b]; simpl;
      [split; [discriminate|intros [? ?]; discriminate]|].
    destruct (Ascii.ascii_dec c d) as [->|Hne].
    + rewrite IH. split; intros [post H]; exists post; congruence.
    + split; [discriminate|]. intros [post H]. congruence.
Qed.

Lemma includes_spec (hay needle : string) :
  Window.includes hay needle = true
  <-> exists pre post, hay = (pre ++ needle ++ post)%string.
Proof.
  induction hay as [|c hay IH].
  - cbn [Window.includes]. rewrite orb_false_r, prefix_spec. split.
    + intros [post H]. exists EmptyString, post. exact H.
    + intros (pre & post & H). destruct pre; [eauto|discriminate].
  - cbn [Window.includes]. rewrite orb_true_iff, prefix_spec, IH. split.
    + intros [[post H]|(pre & post & H)].
      * exists EmptyString, post. exact H.
      * exists (String c pre), post. simpl. congruence.
    + intros (pre & post & H). destruct pre as [|d pre]; simpl in H.
      * left. eauto.
      * right. exists pre, post. congruence.
Qed.

Lemma lowerAscii_idem (c : ascii) :
  Window.lowerAscii (Window.lowerAscii c) = Window.lowerAscii c.
Proof.
  destruct c as [[] [] [] [] [] [] [] []]; reflexivity.
Qed.

Lemma toLowerCase_idem (s : string) :
  Window.toLowerCase (Window.toLowerCase s) = Window.toLowerCase s.
Proof.
  induction s as [|c s IH]; simpl; [reflexivity|].
  now rewrite lowerAscii_idem, IH.
Qed.

(** X16.  A window is excluded exactly when, letters compared without
    regard to (ASCII) case, its app name contains one of the entries of
    the exclusion list as a substring.  So an empty list excludes
    nothing, an entry that is the empty string excludes every window,
    and the answer does not change when the app name is lower-cased. *)
Theorem exclusion_is_caseless_substring_match
    (w : WindowInfo) (config : TrackerConfig) :
  (Window.shouldExcludeWindow w config = true
   <-> exists ex pre post,
         In ex (excludedApps config)
         /\ Window.toLowerCase (wAppName w)
            = (pre ++ Window.toLowerCase ex ++ post)%string)
  /\ (excludedApps config = [] -> Window.shouldExcludeWindow w config = false)
  /\ (In EmptyString (excludedApps config) ->
      Window.shouldExcludeWindow w config = true)
  /\ Window.shouldExcludeWindow
       (mkWindowInfo (Window.toLowerCase (wAppName w)) (wTitle w)
          (wBundleId w) (wPid w)) config
     = Window.shouldExcludeWindow w config.
Proof.
  assert (Hiff : Window.shouldExcludeWindow w config = true
            <-> exists ex pre post,
                  In ex (excludedApps config)
                  /\ Window.toLowerCase (wAppName w)
                     = (pre ++ Window.toLowerCase ex ++ post)%string).
  { unfold Window.shouldExcludeWindow. rewrite existsb_exists. split.
    - intros (ex & Hin & H). apply includes_spec in H.
      destruct H as (pre & post & H). eauto.
    - intros (ex & pre & post & Hin & H). exists ex. split; [exact Hin|].
      apply includes_spec. eauto. }
  split; [exact Hiff|]. split; [|split].
  - intros E. unfold Window.shouldExcludeWindow. now rewrite E.
  - intros Hin. apply Hiff.
    exists EmptyString, EmptyString, (Window.toLowerCase (wAppName w)).
    split; [exact Hin|reflexivity].
  - unfold Window.shouldExcludeWindow. simpl. now rewrite toLowerCase_idem.
Qed.

Lemma exclusion_is_caseless_substring_match_witness :
  let config := mkTrackerConfig 5 300 ["1Password"%string] Proxy None in
  let w := mkWindowInfo "1PASSWORD 7" "Vault" None 1 in
  Window.shouldExcludeWindow w config = true
  /\ Window.shouldExcludeWindow w (Cli.withExcludedApps config []) = false.
Proof.
  intros config w. split; [reflexivity|].
  exact (proj1 (proj2 (exclusion_is_caseless_substring_match w
           (Cli.withExcludedApps config []))) eq_refl).
Defined.

(** X17.  [categorizeApp] answers with one of the six keys of the
    fallback table, whatever the app name, and does not depend on the
    (ASCII) case of the name; so the fallback analysis of a captured
    window always finds its category in the table, and that category is
    research, coding, communication, design or other. *)
Theorem categorizeApp_is_a_table_key (appName : string) (w : WindowInfo) :
  let c := Window.categorizeApp appName in
  In c ["browser"; "editor"; "terminal"; "communication"; "design";
        "other"]%string
  /\ Window.categorizeApp (Window.toLowerCase appName) = c
  /\ (exists category,
        JsMap.get String.eqb c Agent.fallbackCategoryMap = Some category
        /\ aCategory (Agent.createFallbackAnalysis w c) = category
        /\ In category [research; coding; communication; design; other]).
Proof.
  intros c. subst c. split; [|split].
  - unfold Window.categorizeApp.
    repeat match goal with
           | |- context [if ?b then _ else _] => destruct b
           end; simpl; auto 10.
  - unfold Window.categorizeApp. now rewrite toLowerCase_idem.
  - unfold Window.categorizeApp.
    repeat match goal with
           | |- context [if ?b then _ else _] => destruct b
           end; eexists; (split; [reflexivity|split; [reflexivity|]]);
      simpl; auto 10.
Qed.

(** ** The exclusion list *)

Lemma removeFirst_absent (a : string) (l : list string) :
  ~ In a l -> Cli.removeFirst a l = l.
Proof.
  induction l as [|x l IH]; simpl; intros H; [reflexivity|].
  destruct (String.eqb_spec x a) as [E|E]; [exfalso; auto|].
  f_equal. apply IH. tauto.
Qed.

Lemma removeFirst_snoc (a : string) (l : list string) :
  ~ In a l -> Cli.removeFirst a (l ++ [a]) = l.
Proof.
  induction l as [|x l IH]; simpl; intros H.
  - now rewrite String.eqb_refl.
  - destruct (String.eqb_spec x a) as [E|E]; [exfalso; auto|].
    f_equal. apply IH. tauto.
Qed.

Lemma removeFirst_NoDup (a : string) (l : list string) :
  NoDup l -> NoDup (Cli.removeFirst a l) /\ ~ In a (Cli.removeFirst a l)
             /\ forall x, In x (Cli.removeFirst a l) -> In x l.
Proof.
  induction 1 as [|x l Hx Hnd IH]; simpl.
  - repeat split; [constructor|tauto|tauto].
  - destruct (String.eqb_spec x a) as [E|E].
    + subst. repeat split; auto.
    + destruct IH as (I1 & I2 & I3). repeat split.
      * constructor; [|exact I1]. intros Hin. apply Hx. auto.
      * intros [H|H]; [congruence|auto].
      * intros y [H|H]; auto.
Qed.

(** X18.  For a non-empty name [a], after [config exclude a] the saved
    exclusion list holds [a], once (a list without repetitions stays
    so), and a tracker that runs with the saved configuration makes no
    store call at all in a cycle whose active window's app name
    contains [a], in any (ASCII) case.  [config include a] removes [a]:
    after excluding a name that was not listed, including it gives back
    the old list, and on a list without repetitions the name is gone.
    With a missing or empty name both commands save nothing. *)
Theorem config_exclude_takes_effect
    (a : string) (config : TrackerConfig) (p : Tracker.Probes) (w : WindowInfo) :
  a <> EmptyString ->
  let l := excludedApps config in
  let excluded := Cli.savedList (Cli.configExclude (Some a) l) l in
  let config' := Cli.withExcludedApps config excluded in
  In a excluded
  /\ (NoDup l -> NoDup excluded)
  /\ (Tracker.probeActiveWindow p = Some w ->
      Window.includes (Window.toLowerCase (wAppName w)) (Window.toLowerCase a)
      = true ->
      Tracker.captureOps config' p = [])
  /\ (~ In a l ->
      Cli.savedList (Cli.configInclude (Some a) excluded) excluded = l)
  /\ (NoDup l ->
      ~ In a (Cli.savedList (Cli.configInclude (Some a) l) l))
  /\ Cli.configExclude None l = None
  /\ Cli.configExclude (Some EmptyString) l = None
  /\ Cli.configInclude None l = None
  /\ Cli.configInclude (Some EmptyString) l = None.
Proof.
  intros Ha l excluded config'.
  assert (Htruthy : truthy (Some a) = true).
  { destruct a; [congruence|reflexivity]. }
  assert (Hex_iff : forall k, existsb (String.eqb a) k = true <-> In a k).
  { intros k. rewrite existsb_exists. split.
    - intros (x & Hin & Hx). apply String.eqb_eq in Hx. now subst x.
    - intros Hin. exists a. split; [exact Hin|apply String.eqb_refl]. }
  assert (Hgate : forall k,
             In a k ->
             Tracker.probeActiveWindow p = Some w ->
             Window.includes (Window.toLowerCase (wAppName w))
               (Window.toLowerCase a) = true ->
             Tracker.captureOps (Cli.withExcludedApps config k) p = []).
  { intros k Hin Hw Hinc. unfold Tracker.captureOps. rewrite Hw.
    destruct (Idle.stIsIdle _); [reflexivity|].
    assert (Hex : Window.shouldExcludeWindow w (Cli.withExcludedApps config k)
                  = true).
    { unfold Window.shouldExcludeWindow. apply existsb_exists.
      exists a. split; [exact Hin|exact Hinc]. }
    now rewrite Hex. }
  assert (Hincl : forall k,
             NoDup k -> ~ In a (Cli.savedList (Cli.configInclude (Some a) k) k)).
  { intros k Hnd. unfold Cli.configInclude, Cli.savedList.
    rewrite Htruthy. cbn [negb].
    destruct (existsb (String.eqb a) k) eqn:E; cbn [nullish].
    - apply (removeFirst_NoDup a _ Hnd).
    - intros Hin. apply Hex_iff in Hin. congruence. }
  assert (Hexcl : excluded = if existsb (String.eqb a) l then l else l ++ [a]).
  { subst excluded. unfold Cli.configExclude, Cli.savedList.
    rewrite Htruthy. cbn [negb].
    destruct (existsb (String.eqb a) l); reflexivity. }
  assert (Hin : In a excluded).
  { rewrite Hexcl. destruct (existsb (String.eqb a) l) eqn:E.
    - now apply Hex_iff.
    - apply in_or_app; right; now left. }
  split; [exact Hin|]. split; [|split; [|split; [|split]]].
  - intros Hnd. rewrite Hexcl.
    destruct (existsb (String.eqb a) l) eqn:E; [exact Hnd|].
    apply NoDup_app; [exact Hnd|repeat constructor; auto|].
    intros x Hx [Hk|[]]. subst x. apply Hex_iff in Hx. congruence.
  - intros Hw Hinc. subst config'. now apply Hgate.
  - intros Hnot. unfold Cli.configInclude, Cli.savedList.
    rewrite Htruthy. cbn [negb].
    rewrite (proj2 (Hex_iff excluded) Hin). cbn [nullish].
    rewrite Hexcl.
    destruct (existsb (String.eqb a) l) eqn:E;
      [apply Hex_iff in E; contradiction|].
    now apply removeFirst_snoc.
  - apply Hincl.
  - repeat split.
Qed.

Lemma config_exclude_takes_effect_witness :
  let config := mkTrackerConfig 5 300 ["Finder"%string] Proxy None in
  let w := mkWindowInfo "Slack Helper" "general" None 1 in
  let p := Tracker.mkProbes 1000 0 (Some w) Throw in
  Cli.configExclude (Some "slack"%string) (excludedApps config)
  = Some ["Finder"; "slack"]%string
  /\ Tracker.captureOps
       (Cli.withExcludedApps config ["Finder"; "slack"]%string) p = []
  /\ Cli.configInclude (Some "slack"%string) ["Finder"; "slack"]%string
     = Some (excludedApps config).
Proof.
  intros config w p. split; [reflexivity|].
  assert (Hne : "slack"%string <> EmptyString) by discriminate.
  pose proof (config_exclude_takes_effect "slack" config p w Hne)
    as (_ & _ & H3 & _).
  split.
  - apply H3; reflexivity.
  - reflexivity.
Defined.

(** ** The classifier *)

Lemma analyzeTask_result
    (jsonParse : string -> Result Agent.ParsedAnalysis)
    (backend : Agent.Backend) (config : TrackerConfig)
    (windowInfo : WindowInfo) (appCategory : string)
    (screenshotPath : option string) :
  exists analysis,
    Agent.analyzeTask jsonParse backend config windowInfo appCategory
      screenshotPath = Ok analysis
    /\ (analysis = Agent.createFallbackAnalysis windowInfo appCategory
        \/ exists text,
             analysis = Agent.parseAnalysisResult jsonParse text windowInfo
                          appCategory).
Proof.
  assert (Hsdk : exists analysis,
            Agent.analyzeTaskWithClaudeSDK jsonParse backend windowInfo
              appCategory screenshotPath = Ok analysis
            /\ (analysis = Agent.createFallbackAnalysis windowInfo appCategory
                \/ exists text,
                     analysis = Agent.parseAnalysisResult jsonParse text
                                  windowInfo appCategory)).
  { unfold Agent.analyzeTaskWithClaudeSDK.
    destruct (Agent.sdkQuery backend windowInfo appCategory screenshotPath);
      simpl; eauto. }
  assert (Htext : Agent.textAttempt jsonParse backend windowInfo appCategory
                  = Throw
                  \/ exists text,
                       Agent.textAttempt jsonParse backend windowInfo
                         appCategory
                       = Ok (Agent.parseAnalysisResult jsonParse text
                               windowInfo appCategory)).
  { unfold Agent.textAttempt.
    destruct (Agent.callLLMProxy backend false windowInfo appCategory None);
      eauto. }
  assert (Hproxy : Agent.analyzeTaskWithProxy jsonParse backend windowInfo
                     appCategory screenshotPath = Throw
                   \/ exists text,
                        Agent.analyzeTaskWithProxy jsonParse backend
                          windowInfo appCategory screenshotPath
                        = Ok (Agent.parseAnalysisResult jsonParse text
                                windowInfo appCategory)).
  { unfold Agent.analyzeTaskWithProxy.
    destruct screenshotPath as [path|]; [|exact Htext].
    destruct (truthy (Some path)); [|exact Htext].
    unfold Agent.visionAttempt.
    destruct (Agent.imageToBase64 backend path) as [img|]; simpl;
      [|exact Htext].
    destruct (Agent.callLLMProxy backend true windowInfo appCategory
                (Some img)); simpl; [eauto|exact Htext]. }
  unfold Agent.analyzeTask.
  destruct (llmProvider config); [exact Hsdk|].
  destruct (truthy (llmProxyUrl config)); [|exact Hsdk].
  destruct Hproxy as [->|[text ->]]; simpl; eauto.
Qed.

(** X19.  [analyzeTask] never throws, whatever the backend and the JSON
    parser do: it returns an analysis.  That analysis is the parse of a
    text the backend returned for this window: on the proxy path the
    answer of the text call, or the answer of the vision call made with
    the image read from the screenshot path; on the SDK path the answer
    of the SDK.  It is the fallback analysis when the last call of the
    path (the text call, or the SDK) threw.  On the proxy path an answer
    of the vision call is the one that is parsed. *)
Theorem analyzeTask_never_throws
    (jsonParse : string -> Result Agent.ParsedAnalysis)
    (backend : Agent.Backend) (config : TrackerConfig)
    (windowInfo : WindowInfo) (appCategory : string)
    (screenshotPath : option string) :
  (exists analysis,
      Agent.analyzeTask jsonParse backend config windowInfo appCategory
        screenshotPath = Ok analysis
      /\ ((exists text,
              analysis = Agent.parseAnalysisResult jsonParse text windowInfo
                           appCategory
              /\ if usesProxy config
                 then Agent.callLLMProxy backend false windowInfo
                        appCategory None = Ok text
                      \/ (exists path img,
                             screenshotPath = Some path
                             /\ Agent.imageToBase64 backend path = Ok img
                             /\ Agent.callLLMProxy backend true windowInfo
                                  appCategory (Some img) = Ok text)
                 else Agent.sdkQuery backend windowInfo appCategory
                        screenshotPath = Ok text)
          \/ (analysis = Agent.createFallbackAnalysis windowInfo appCategory
              /\ if usesProxy config
                 then Agent.callLLMProxy backend false windowInfo
                        appCategory None = Throw
                 else Agent.sdkQuery backend windowInfo appCategory
                        screenshotPath = Throw)))
  /\ (forall path img text,
         usesProxy config = true ->
         screenshotPath = Some path ->
         path <> EmptyString ->
         Agent.imageToBase64 backend path = Ok img ->
         Agent.callLLMProxy backend true windowInfo appCategory (Some img)
         = Ok text ->
         Agent.analyzeTask jsonParse backend config windowInfo appCategory
           screenshotPath
         = Ok (Agent.parseAnalysisResult jsonParse text windowInfo
                 appCategory)).
Proof.
  assert (Hsdk : usesProxy config = false ->
            Agent.analyzeTask jsonParse backend config windowInfo appCategory
              screenshotPath
            = Agent.analyzeTaskWithClaudeSDK jsonParse backend windowInfo
                appCategory screenshotPath).
  { unfold usesProxy, Agent.analyzeTask.
    destruct (llmProvider config); [reflexivity|].
    destruct (truthy (llmProxyUrl config)); [discriminate|reflexivity]. }
  assert (Hproxy : usesProxy config = true ->
            Agent.analyzeTask jsonParse backend config windowInfo appCategory
              screenshotPath
            = tryCatch
                (Agent.analyzeTaskWithProxy jsonParse backend windowInfo
                   appCategory screenshotPath)
                (Ok (Agent.createFallbackAnalysis windowInfo appCategory))).
  { unfold usesProxy, Agent.analyzeTask.
    destruct (llmProvider config); [discriminate|].
    destruct (truthy (llmProxyUrl config)); [reflexivity|discriminate]. }
  destruct (usesProxy config) eqn:Hp.
  - rewrite (Hproxy eq_refl). clear Hsdk Hproxy.
    assert (Htext :
              exists analysis,
                tryCatch
                  (Agent.textAttempt jsonParse backend windowInfo appCategory)
                  (Ok (Agent.createFallbackAnalysis windowInfo appCategory))
                = Ok analysis
                /\ ((exists text,
                        analysis = Agent.parseAnalysisResult jsonParse text
                                     windowInfo appCategory
                        /\ (Agent.callLLMProxy backend false windowInfo
                              appCategory None = Ok text
                            \/ (exists path img,
                                   screenshotPath = Some path
                                   /\ Agent.imageToBase64 backend path = Ok img
                                   /\ Agent.callLLMProxy backend true
                                        windowInfo appCategory (Some img)
                                      = Ok text)))
                    \/ (analysis
                        = Agent.createFallbackAnalysis windowInfo appCategory
                        /\ Agent.callLLMProxy backend false windowInfo
                             appCategory None = Throw))).
    { unfold Agent.textAttempt.
      destruct (Agent.callLLMProxy backend false windowInfo appCategory None)
        as [text|]; simpl; eexists; (split; [reflexivity|]).
      - left. exists text. split; [reflexivity|now left].
      - right. split; reflexivity. }
    unfold Agent.analyzeTaskWithProxy.
    destruct screenshotPath as [path|].
    + destruct path as [|ch path'].
      * simpl. split; [exact Htext|]. intros path img text _ Hs Hne.
        injection Hs as <-. congruence.
      * cbn [truthy]. unfold Agent.visionAttempt.
        destruct (Agent.imageToBase64 backend (String ch path'))
          as [img|] eqn:Himg.
        -- destruct (Agent.callLLMProxy backend true windowInfo appCategory
                       (Some img)) as [vtext|] eqn:Hv.
           ++ simpl. split.
              ** eexists. split; [reflexivity|]. left. exists vtext.
                 split; [reflexivity|]. right.
                 exists (String ch path'), img. auto.
              ** intros path img' text _ Hs _ Hi Hc.
                 injection Hs as <-. rewrite Himg in Hi.
                 injection Hi as <-. rewrite Hv in Hc.
                 injection Hc as <-. reflexivity.
           ++ cbn [tryCatch]. split; [exact Htext|].
              intros path img' text _ Hs _ Hi Hc.
              injection Hs as <-. rewrite Himg in Hi.
              injection Hi as <-. rewrite Hv in Hc. discriminate.
        -- cbn [tryCatch]. split; [exact Htext|].
           intros path img text _ Hs _ Hi.
           injection Hs as <-. rewrite Himg in Hi. discriminate.
    + split; [exact Htext|]. intros path img text _ Hs. discriminate.
  - rewrite (Hsdk eq_refl). split; [|intros; discriminate].
    unfold Agent.analyzeTaskWithClaudeSDK.
    destruct (Agent.sdkQuery backend windowInfo appCategory screenshotPath)
      as [text|]; simpl; eexists; (split; [reflexivity|]).
    + left. exists text. split; reflexivity.
    + right. split; reflexivity.
Qed.

(** A proxy that answers the vision call: the analysis is the parse of
    that answer. *)
Lemma analyzeTask_never_throws_witness :
  let parsed :=
    Agent.mkParsed (Some "Writing code"%string) None None
      (Some "coding"%string) None in
  let backend :=
    Agent.mkBackend (fun _ => Ok "data"%string)
                    (fun vision _ _ _ =>
                       if vision then Ok "{vision}"%string else Throw)
                    (fun _ _ _ => Throw) in
  let config :=
    mkTrackerConfig 5 300 [] Proxy (Some "https://proxy.example"%string) in
  let w := mkWindowInfo "Code" "index.ts" None 1 in
  Agent.analyzeTask (fun _ => Ok parsed) backend config w "editor"
    (Some "shot.png"%string)
  = Ok (mkTaskAnalysis "Writing code" None (5 # 10)%Q coding None).
Proof.
  intros parsed backend config w.
  apply (proj2 (analyzeTask_never_throws (fun _ => Ok parsed) backend config
                  w "editor" (Some "shot.png"%string))
           "shot.png"%string "data"%string "{vision}"%string);
    try reflexivity.
  discriminate.
Defined.

(** X20.  [validateCategory] recognises exactly the nine category names:
    the name of a category gives that category back, and a missing value
    or any other string, the empty one included, gives "other". *)
Theorem validateCategory_recognises_names :
  (forall c, Agent.validateCategory (Some (Agent.categoryName c)) = c)
  /\ (forall s, (forall c, Agent.categoryName c <> s) ->
                Agent.validateCategory (Some s) = other)
  /\ Agent.validateCategory None = other
  /\ (forall c c', Agent.categoryName c = Agent.categoryName c' -> c = c').
Proof.
  split; [|split; [|split]].
  - intros c. destruct c; reflexivity.
  - intros s Hs. unfold Agent.validateCategory.
    destruct (truthy (Some s)); [|reflexivity].
    destruct (find (fun k => String.eqb (Agent.categoryName k) s)
                   Agent.validCategories) as [k|] eqn:E; [|reflexivity].
    apply find_some in E. destruct E as [_ E].
    apply String.eqb_eq in E. exfalso. exact (Hs k E).
  - reflexivity.
  - intros c c' H. destruct c, c'; try reflexivity; discriminate.
Qed.

Lemma validateCategory_recognises_names_witness :
  Agent.validateCategory (Some "meeting"%string) = meeting
  /\ Agent.validateCategory (Some "Coding"%string) = other.
Proof.
  split.
  - exact (proj1 validateCategory_recognises_names meeting).
  - apply (proj1 (proj2 validateCategory_recognises_names)).
    intros c. destruct c; discriminate.
Defined.

(** ** The JSON object found in a response *)

Lemma afterOpenBrace_spec (s : string) :
  match Agent.afterOpenBrace s with
  | Some r => exists pre, s = (pre ++ String "{" r)%string
                          /\ hasChar "{" pre = false
  | None => hasChar "{" s = false
  end.
Proof.
  induction s as [|c s IH]; simpl; [reflexivity|].
  destruct (Ascii.eqb_spec c "{") as [->|Hne]; simpl.
  - exists EmptyString. split; reflexivity.
  - destruct (Agent.afterOpenBrace s) as [r|].
    + destruct IH as (pre & -> & Hpre). exists (String c pre).
      split; [reflexivity|]. simpl. rewrite Hpre.
      destruct (Ascii.eqb_spec c "{"); [contradiction|reflexivity].
    + exact IH.
Qed.

Lemma throughCloseBrace_spec (s : string) :
  match Agent.throughCloseBrace s with
  | Some m => exists body post,
                s = (body ++ String "}" post)%string
                /\ m = (body ++ "}")%string
                /\ hasChar "}" body = false
  | None => hasChar "}" s = false
  end.
Proof.
  induction s as [|c s IH]; simpl; [reflexivity|].
  destruct (Ascii.eqb_spec c "}") as [->|Hne]; simpl.
  - exists EmptyString, s. repeat split.
  - destruct (Agent.throughCloseBrace s) as [m|]; simpl.
    + destruct IH as (body & post & -> & -> & Hb).
      exists (String c body), post. repeat split. simpl. rewrite Hb.
      destruct (Ascii.eqb_spec c "}"); [contradiction|reflexivity].
    + exact IH.
Qed.

(** X21.  The text taken from a response for [JSON.parse] runs from the
    first opening brace of the response through the first closing brace
    after it, so it holds no closing brace before its last character (an
    object with a nested object is cut at the inner brace); nothing is
    taken exactly when the response has no opening brace or no closing
    brace after the first opening one. *)
Theorem matchJson_first_brace_pair (result : string) :
  match Agent.matchJson result with
  | Some m =>
      exists pre body post,
        result = (pre ++ "{" ++ body ++ "}" ++ post)%string
        /\ m = ("{" ++ body ++ "}")%string
        /\ hasChar "{" pre = false
        /\ hasChar "}" body = false
  | None =>
      hasChar "{" result = false
      \/ exists pre rest,
           result = (pre ++ "{" ++ rest)%string
           /\ hasChar "{" pre = false
           /\ hasChar "}" rest = false
  end.
Proof.
  unfold Agent.matchJson.
  pose proof (afterOpenBrace_spec result) as H1.
  destruct (Agent.afterOpenBrace result) as [r|]; [|now left].
  destruct H1 as (pre & -> & Hpre).
  pose proof (throughCloseBrace_spec r) as H2.
  destruct (Agent.throughCloseBrace r) as [m|]; simpl.
  - destruct H2 as (body & post & -> & -> & Hb).
    exists pre, body, post. repeat split; assumption.
  - right. exists pre, r. repeat split; assumption.
Qed.

(** ** Batches *)

Lemma chunksOf3_spec {A} (n : nat) :
  forall l : list A,
    (List.length l <= n)%nat ->
    List.concat (Agent.chunksOf3 l) = l
    /\ Forall (fun c => (1 <= List.length c <= 3)%nat) (Agent.chunksOf3 l)
    /\ (List.length (Agent.chunksOf3 l) = (List.length l + 2) / 3)%nat.
Proof.
  induction n as [|n IH]; intros l Hl.
  - destruct l; [|simpl in Hl; lia]. simpl. repeat split. constructor.
  - destruct l as [|a [|b [|c l]]].
    + simpl. repeat split. constructor.
    + simpl. repeat split. repeat constructor.
    + simpl. repeat split. repeat constructor.
    + destruct (IH l) as (H1 & H2 & H3); [simpl in Hl; lia|].
      cbn [Agent.chunksOf3 List.concat app]. rewrite H1.
      split; [reflexivity|]. split.
      * constructor; [simpl; lia|exact H2].
      * cbn [List.length]. rewrite H3.
        replace (S (S (S (List.length l))) + 2)%nat
          with (List.length l + 2 + 1 * 3)%nat by lia.
        rewrite Nat.div_add by lia. lia.
Qed.

Lemma JsMapZ_get_set {V} (k k' : Z) (v : V) (m : JsMap.t) :
  JsMap.get Z.eqb k (JsMap.set Z.eqb k' v m)
  = if Z.eqb k' k then Some v else JsMap.get Z.eqb k m.
Proof.
  induction m as [|[k0 v0] m IH]; simpl.
  - reflexivity.
  - destruct (Z.eqb_spec k0 k') as [E0|E0]; simpl.
    + subst k0. destruct (k' =? k); reflexivity.
    + rewrite IH. destruct (Z.eqb_spec k' k) as [E1|E1]; [|reflexivity].
      destruct (Z.eqb_spec k0 k) as [E2|E2]; [|reflexivity].
      congruence.
Qed.

Section BatchLemmas.

Variable jsonParse : string -> Result Agent.ParsedAnalysis.
Variable backend : Agent.Backend.
Variable config : TrackerConfig.

Lemma batch_fold (es : list Agent.BatchEntry) :
  forall m0,
    exists m,
      fold_left (Agent.batchOne jsonParse backend config) es (Ok m0) = Ok m
      /\ (forall k, ~ In k (map Agent.beId es) ->
                    JsMap.get Z.eqb k m = JsMap.get Z.eqb k m0)
      /\ (forall e, In e es ->
            exists e',
              In e' es /\ Agent.beId e' = Agent.beId e
              /\ option_map Ok (JsMap.get Z.eqb (Agent.beId e) m)
                 = Some (Agent.analyzeTask jsonParse backend config
                           (Agent.beWindowInfo e') (Agent.beAppCategory e')
                           (Agent.beScreenshotPath e'))).
Proof.
  induction es as [|x es IH]; intros m0; simpl.
  - exists m0. repeat split. intros e [].
  - destruct (analyzeTask_result jsonParse backend config
                (Agent.beWindowInfo x) (Agent.beAppCategory x)
                (Agent.beScreenshotPath x)) as (a & Ha & _).
    rewrite Ha.
    destruct (IH (JsMap.set Z.eqb (Agent.beId x) a m0)) as (m & Hm & H1 & H2).
    exists m. split; [exact Hm|]. split.
    + intros k Hk. rewrite H1 by tauto. rewrite JsMapZ_get_set.
      destruct (Z.eqb_spec (Agent.beId x) k); [exfalso; auto|reflexivity].
    + intros e [<-|Hin].
      * destruct (in_dec Z.eq_dec (Agent.beId x) (map Agent.beId es))
          as [Hlater|Hnot].
        -- apply in_map_iff in Hlater. destruct Hlater as (y & Hy & Hyin).
           destruct (H2 y Hyin) as (e' & He' & Hid & Hget).
           exists e'. split; [now right|]. split; [congruence|].
           rewrite <- Hy. exact Hget.
        -- exists x. split; [now left|]. split; [reflexivity|].
           rewrite H1 by exact Hnot. rewrite JsMapZ_get_set, Z.eqb_refl.
           simpl. now rewrite Ha.
      * destruct (H2 e Hin) as (e' & He' & Hid & Hget).
        exists e'. split; [now right|]. split; assumption.
Qed.

End BatchLemmas.



(* ================================================================== *)
(** * Further properties of the weekly report *)

Lemma getWeekEnd_eq (d : Z) :
  Weekly.getWeekEnd d = (JsDate.Day d + 7) * JsDate.msPerDay - 1.
Proof.
  unfold Weekly.getWeekEnd, JsDate.setHoursEndOfDay, JsDate.setDate,
    JsDate.monthStartDay, JsDate.TimeWithinDay, JsDate.Day, JsDate.msPerDay.
  generalize (JsDate.getDate d). intros g.
  Z.to_euclidean_division_equations. lia.
Qed.

(** X23.  [getWeekEnd] of a date is the last millisecond of the sixth
    day after the date's day (also across the end of a month); for the
    week start of a date [d] it is a Sunday, 23:59:59.999, seven days
    less one millisecond after the week start, and [d] lies between the
    two. *)
Theorem getWeekEnd_closes_the_week (d : Z) :
  let w := Weekly.getWeekStart d in
  Weekly.getWeekEnd d = (JsDate.Day d + 7) * JsDate.msPerDay - 1
  /\ Weekly.getWeekEnd w = w + 7 * JsDate.msPerDay - 1
  /\ JsDate.getDay (Weekly.getWeekEnd w) = 0
  /\ JsDate.TimeWithinDay (Weekly.getWeekEnd w) = JsDate.msPerDay - 1
  /\ w <= d <= Weekly.getWeekEnd w.
Proof.
  intros w. subst w. rewrite !getWeekEnd_eq, getWeekStart_eq.
  unfold JsDate.getDay, JsDate.TimeWithinDay, JsDate.Day, JsDate.msPerDay.
  repeat split; Z.to_euclidean_division_equations; lia.
Qed.

Lemma next_day_eq (t : Z) :
  JsDate.setDate t (JsDate.getDate t + 1) = t + JsDate.msPerDay.
Proof.
  unfold JsDate.setDate, JsDate.monthStartDay, JsDate.TimeWithinDay,
    JsDate.Day, JsDate.msPerDay.
  generalize (JsDate.getDate t). intros g.
  Z.to_euclidean_division_equations. lia.
Qed.

Lemma dailyLoop_spec (db : Database.t) (endDay : Z) (n : nat) :
  forall fuel cur,
    Z.of_nat n = endDay - JsDate.Day cur + 1 ->
    Weekly.dailyLoop fuel cur ((endDay + 1) * JsDate.msPerDay - 1) db
    = if (n <=? fuel)%nat
      then Some (map (fun i => getDailySummary
                                 (cur + Z.of_nat i * JsDate.msPerDay) db)
                     (seq 0 n))
      else None.
Proof.
  induction n as [|n IH]; intros fuel cur Hn.
  - assert (Hgt : (cur <=? (endDay + 1) * JsDate.msPerDay - 1) = false).
    { apply Z.leb_gt. revert Hn. unfold JsDate.Day, JsDate.msPerDay.
      intros Hn. Z.to_euclidean_division_equations. lia. }
    destruct fuel; simpl; rewrite Hgt; reflexivity.
  - assert (Hle : (cur <=? (endDay + 1) * JsDate.msPerDay - 1) = true).
    { apply Z.leb_le. revert Hn. unfold JsDate.Day, JsDate.msPerDay.
      intros Hn. Z.to_euclidean_division_equations. lia. }
    destruct fuel as [|fuel]; simpl Weekly.dailyLoop; rewrite Hle;
      [reflexivity|].
    rewrite next_day_eq. rewrite IH.
    + change (S n <=? S fuel)%nat with (n <=? fuel)%nat.
      destruct (n <=? fuel)%nat; [|reflexivity].
      simpl. f_equal. f_equal; [f_equal; lia|].
      rewrite <- seq_shift, map_map. apply map_ext. intros i.
      f_equal. lia.
    + revert Hn. unfold JsDate.Day, JsDate.msPerDay. intros Hn.
      Z.to_euclidean_division_equations. lia.
Qed.

Lemma weekly_loop (fuel : nat) (ws : Z) (db : Database.t) :
  Weekly.dailyLoop fuel ws (Weekly.getWeekEnd ws) db
  = if (7 <=? fuel)%nat
    then Some (map (fun i => getDailySummary
                               (ws + Z.of_nat i * JsDate.msPerDay) db)
                   (seq 0 7))
    else None.
Proof.
  rewrite getWeekEnd_eq.
  replace ((JsDate.Day ws + 7) * JsDate.msPerDay - 1)
    with ((JsDate.Day ws + 6 + 1) * JsDate.msPerDay - 1) by lia.
  apply (dailyLoop_spec db (JsDate.Day ws + 6) 7). lia.
Qed.

(** X24.  Given a start date, [generateWeeklyReport] ends its loop after
    seven rounds: with fuel for seven rounds it returns a report, with
    less it does not finish.  The report holds seven daily summaries,
    for the calendar day of the start date and the six days after it,
    its [weekStartDate] is the date as given (it is not moved to a
    Monday) and its [weekEndDate] the last millisecond of the seventh
    day; without a start date the week of the clock reading is taken. *)
Theorem weekly_report_covers_seven_days
    (fuel : nat) (ws now : Z) (projects : list Project) (db : Database.t) :
  ((7 <= fuel)%nat ->
   exists r,
     Weekly.generateWeeklyReport fuel (Some ws) now projects db = Some r
     /\ weekStartDate r = ws
     /\ weekEndDate r = (JsDate.Day ws + 7) * JsDate.msPerDay - 1
     /\ dailySummaries r
        = map (fun i => getDailySummary (ws + i * JsDate.msPerDay) db)
              [0; 1; 2; 3; 4; 5; 6]
     /\ map date (dailySummaries r)
        = map (fun i => (JsDate.Day ws + i) * JsDate.msPerDay)
              [0; 1; 2; 3; 4; 5; 6])
  /\ ((fuel < 7)%nat ->
      Weekly.generateWeeklyReport fuel (Some ws) now projects db = None)
  /\ Weekly.generateWeeklyReport fuel None now projects db
     = Weekly.generateWeeklyReport fuel (Some (Weekly.getWeekStart now)) now
         projects db.
Proof.
  split; [|split; [|reflexivity]].
  - intros Hf. unfold Weekly.generateWeeklyReport. simpl nullish.
    rewrite weekly_loop.
    destruct (Nat.leb_spec 7 fuel) as [_|H]; [|lia].
    eexists. split; [reflexivity|]. cbn [weekStartDate weekEndDate dailySummaries].
    split; [reflexivity|]. split; [apply getWeekEnd_eq|]. split.
    + reflexivity.
    + cbn [seq map]. unfold getDailySummary. cbn [date map].
      unfold startOfDay, JsDate.setHoursZero, JsDate.Day, JsDate.msPerDay.
      assert (H : forall i, (ws + i * 86400000) / 86400000 * 86400000
                            = (ws / 86400000 + i) * 86400000)
        by (intros i; Z.to_euclidean_division_equations; lia).
      cbn [Z.of_nat Pos.of_succ_nat Pos.succ]. rewrite !H. reflexivity.
  - intros Hf. unfold Weekly.generateWeeklyReport. simpl nullish.
    rewrite weekly_loop.
    destruct (Nat.leb_spec 7 fuel) as [H|_]; [lia|reflexivity].
Qed.

Lemma weekly_report_covers_seven_days_witness :
  let e i t d := mkTimeEntry i t "App" "w" None None None None (Some d)
                   false None in
  let wednesday := 20103 * JsDate.msPerDay + 43200000 in
  let db := mkDb [e 1 (20103 * JsDate.msPerDay + 100) 600;
                  e 2 (20105 * JsDate.msPerDay + 100) 1200] 2 in
  option_map (fun r => map activeSeconds (dailySummaries r))
    (Weekly.generateWeeklyReport 7 (Some wednesday) 0 [] db)
  = Some [600; 0; 1200; 0; 0; 0; 0]
  /\ exists r,
       Weekly.generateWeeklyReport 7 (Some wednesday) 0 [] db = Some r
       /\ weekStartDate r = wednesday.
Proof.
  intros e wednesday db. split; [reflexivity|].
  destruct (proj1 (weekly_report_covers_seven_days 7 wednesday 0 [] db)
              (le_n 7)) as (r & H1 & H2 & _).
  exists r. split; assumption.
Defined.

Lemma projectBreakdown_sum (date : Z) (db : Database.t) :
  sumZ (map ptSeconds (projectBreakdown (getDailySummary date db)))
  = activeSeconds (getDailySummary date db).
Proof.
  unfold getDailySummary. cbv zeta. cbn [projectBreakdown activeSeconds].
  pose proof (summary_project_seconds
                (getTimeEntries (startOfDay date) (endOfDay date) None db)
                (mkTotals 0 0 0 JsMap.empty JsMap.empty JsMap.empty)) as H.
  simpl in H. unfold JsMap.entries.
  match goal with |- sumZ (map ptSeconds (map _ ?m)) = _ =>
    assert (Hsum : sumZ (map ptSeconds
                      (map (fun '(id, data) =>
                              mkProjectTime id id (seconds data) (entries data))
                           m))
                   = sumZ (map (fun kb => seconds (snd kb)) m));
    [generalize m; intros m0; induction m0 as [|[k b] m0 IHm]; simpl;
       [reflexivity|now rewrite IHm]|]
  end.
  rewrite Hsum. lia.
Qed.

Lemma sumZ_perm (l l' : list Z) : Permutation l l' -> sumZ l = sumZ l'.
Proof.
  induction 1; simpl; lia.
Qed.

Lemma fold_sum_active (days : list DailySummary) :
  forall acc,
    fold_left (fun sum day => sum + activeSeconds day) days acc
    = acc + sumZ (map activeSeconds days).
Proof.
  induction days as [|d days IH]; intros acc; simpl; [lia|].
  rewrite IH. lia.
Qed.

Lemma mergeBucket_sum k sec ent (m : JsMap.t (K := string) (V := Bucket)) :
  sumZ (map (fun kb => seconds (snd kb))
            (Weekly.mergeBucket String.eqb k sec ent m))
  = sumZ (map (fun kb => seconds (snd kb)) m) + sec.
Proof.
  unfold Weekly.mergeBucket. rewrite JsMap_set_sum. simpl. lia.
Qed.

Lemma projectTotalsMap_sum (days : list DailySummary) :
  forall m,
    sumZ (map (fun kb => seconds (snd kb))
            (fold_left
               (fun m day =>
                  fold_left
                    (fun m project =>
                       Weekly.mergeBucket String.eqb (ptProjectId project)
                         (ptSeconds project) (ptEntries project) m)
                    (projectBreakdown day) m)
               days m))
    = sumZ (map (fun kb => seconds (snd kb)) m)
      + sumZ (map (fun day => sumZ (map ptSeconds (projectBreakdown day))) days).
Proof.
  induction days as [|d days IH]; intros m; simpl; [lia|].
  rewrite IH. clear IH.
  assert (H : forall ps m0,
             sumZ (map (fun kb => seconds (snd kb))
                     (fold_left
                        (fun m project =>
                           Weekly.mergeBucket String.eqb (ptProjectId project)
                             (ptSeconds project) (ptEntries project) m)
                        ps m0))
             = sumZ (map (fun kb => seconds (snd kb)) m0)
               + sumZ (map ptSeconds ps)).
  { induction ps as [|q ps IHp]; intros m0; simpl; [lia|].
    rewrite IHp, mergeBucket_sum. lia. }
  rewrite H. lia.
Qed.

Lemma projectTotalsMap_NoDup (days : list DailySummary) :
  NoDup (map fst (Weekly.projectTotalsMap days)).
Proof.
  unfold Weekly.projectTotalsMap.
  assert (H : forall m, NoDup (map fst m) ->
             NoDup (map fst
               (fold_left
                  (fun m day =>
                     fold_left
                       (fun m project =>
                          Weekly.mergeBucket String.eqb (ptProjectId project)
                            (ptSeconds project) (ptEntries project) m)
                       (projectBreakdown day) m)
                  days m))).
  { induction days as [|d days IH]; intros m Hm; simpl; [exact Hm|].
    apply IH. revert m Hm.
    induction (projectBreakdown d) as [|q ps IHp]; intros m Hm; simpl;
      [exact Hm|].
    apply IHp. unfold Weekly.mergeBucket. now apply JsMap_set_NoDup. }
  apply H. constructor.
Qed.

Lemma stableSort_descending {A} (f : A -> Z) (l : list A) :
  Sorted (fun a b => f b <= f a) (stableSort (fun a b => f b <=? f a) l).
Proof.
  assert (Hs : Sorted (fun a b => (f b <=? f a) = true)
                      (stableSort (fun a b => f b <=? f a) l)).
  { apply stableSort_sorted. intros a b.
    destruct (Z.le_ge_cases (f b) (f a)) as [H|H];
      [left|right]; apply Z.leb_le; lia. }
  induction Hs as [|a s Hs' IH Hhd]; constructor; auto.
  destruct Hhd; constructor. now apply Z.leb_le.
Qed.

Lemma mergeRows_get k (ps : list ProjectTime) :
  forall m,
    JsMap.get String.eqb k
      (fold_left
         (fun m project =>
            Weekly.mergeBucket String.eqb (ptProjectId project)
              (ptSeconds project) (ptEntries project) m)
         ps m)
    = match filter (fun pt => String.eqb (ptProjectId pt) k) ps with
      | [] => JsMap.get String.eqb k m
      | sel =>
          let b := nullish (JsMap.get String.eqb k m) (mkBucket 0 0) in
          Some (mkBucket (seconds b + sumZ (map ptSeconds sel))
                         (entries b + sumZ (map ptEntries sel)))
      end.
Proof.
  induction ps as [|q ps IH]; intros m; [reflexivity|].
  cbn [fold_left filter]. rewrite IH. clear IH.
  unfold Weekly.mergeBucket. rewrite JsMap_get_set.
  destruct (String.eqb (ptProjectId q) k) eqn:E.
  - apply String.eqb_eq in E. rewrite E.
    destruct (filter (fun pt => String.eqb (ptProjectId pt) k) ps)
      as [|q' sel]; cbn [nullish seconds entries map sumZ fold_right];
      f_equal; f_equal; lia.
  - reflexivity.
Qed.

Lemma projectTotalsMap_concat (days : list DailySummary) :
  forall m,
    fold_left
      (fun m day =>
         fold_left
           (fun m project =>
              Weekly.mergeBucket String.eqb (ptProjectId project)
                (ptSeconds project) (ptEntries project) m)
           (projectBreakdown day) m)
      days m
    = fold_left
        (fun m project =>
           Weekly.mergeBucket String.eqb (ptProjectId project)
             (ptSeconds project) (ptEntries project) m)
        (List.concat (map projectBreakdown days)) m.
Proof.
  induction days as [|d days IH]; intros m; [reflexivity|].
  cbn [fold_left map List.concat]. rewrite fold_left_app. apply IH.
Qed.

Lemma projectTotalsMap_get k (days : list DailySummary) :
  JsMap.get String.eqb k (Weekly.projectTotalsMap days)
  = match weekRowsOf k days with
    | [] => None
    | sel => Some (mkBucket (sumZ (map ptSeconds sel))
                            (sumZ (map ptEntries sel)))
    end.
Proof.
  unfold Weekly.projectTotalsMap, weekRowsOf.
  rewrite projectTotalsMap_concat, mergeRows_get.
  destruct (filter _ _); reflexivity.
Qed.

Lemma named_rows (name : string -> string)
    (m : JsMap.t (K := string) (V := Bucket)) :
  map ptSeconds
      (map (fun '(id, data) =>
              mkProjectTime id (name id) (seconds data) (entries data)) m)
  = map (fun kb => seconds (snd kb)) m
  /\ map ptProjectId
         (map (fun '(id, data) =>
                 mkProjectTime id (name id) (seconds data) (entries data)) m)
     = map fst m.
Proof.
  induction m as [|[k b] m [IH1 IH2]]; simpl; [split; reflexivity|].
  rewrite IH1, IH2. split; reflexivity.
Qed.

(** X25.  In a weekly report the total hours are the summed active
    seconds of its seven days over 3600.  The project totals list every
    project of every day's breakdown, each once, largest first; a
    project's row carries the sum of the seconds and the sum of the
    entries of that project's rows in the seven daily breakdowns, and
    takes the project's name from the configuration or else its id.
    The seconds of the rows add up to the summed active seconds. *)
Theorem weekly_totals_add_up
    (fuel : nat) (weekStartDate : option Z) (now : Z)
    (projects : list Project) (db : Database.t) (r : WeeklyReport) :
  Weekly.generateWeeklyReport fuel weekStartDate now projects db = Some r ->
  let weekSeconds := sumZ (map activeSeconds (dailySummaries r)) in
  (totalHours r * 3600 == inject_Z weekSeconds)%Q
  /\ sumZ (map ptSeconds (projectTotals r)) = weekSeconds
  /\ NoDup (map ptProjectId (projectTotals r))
  /\ Sorted (fun a b => ptSeconds b <= ptSeconds a) (projectTotals r)
  /\ (forall pt, In pt (projectTotals r) ->
        ptProjectName pt
        = match find (fun p => String.eqb (pId p) (ptProjectId pt))
                     (rev projects) with
          | Some p => pName p
          | None => ptProjectId pt
          end)
  /\ (forall day q,
        In day (dailySummaries r) -> In q (projectBreakdown day) ->
        In (ptProjectId q) (map ptProjectId (projectTotals r)))
  /\ (forall pt, In pt (projectTotals r) ->
        let rows := weekRowsOf (ptProjectId pt) (dailySummaries r) in
        rows <> []
        /\ ptSeconds pt = sumZ (map ptSeconds rows)
        /\ ptEntries pt = sumZ (map ptEntries rows)).
Proof.
  unfold Weekly.generateWeeklyReport.
  set (ws := nullish weekStartDate (Weekly.getWeekStart now)).
  rewrite weekly_loop.
  set (days := map (fun i => getDailySummary
                               (ws + Z.of_nat i * JsDate.msPerDay) db)
                   (seq 0 7)).
  assert (Hdays : sumZ (map (fun day =>
                               sumZ (map ptSeconds (projectBreakdown day)))
                            days)
                  = sumZ (map activeSeconds days)).
  { subst days. rewrite !map_map. f_equal. apply map_ext. intros i.
    apply projectBreakdown_sum. }
  clearbody days.
  destruct (7 <=? fuel)%nat; [|discriminate].
  intros H. injection H as Hr. rewrite <- Hr. clear Hr.
  cbn [totalHours dailySummaries projectTotals].
  assert (Hname : forall k b,
             ptProjectId
               (mkProjectTime k
                  (nullish
                     (option_map pName
                        (JsMap.get String.eqb k
                           (JsMap.ofList String.eqb
                              (map (fun p => (pId p, p)) projects)))) k)
                  (seconds b) (entries b)) = k) by reflexivity.
  split; [|split; [|split; [|split; [|split; [|split]]]]].
  - rewrite fold_sum_active. simpl Z.add.
    rewrite Qmult_comm. apply Qmult_div_r. discriminate.
  - rewrite (sumZ_perm _ _ (Permutation_map ptSeconds (stableSort_perm _ _))).
    unfold JsMap.entries.
    rewrite (proj1 (named_rows
               (fun id => nullish
                  (option_map pName
                     (JsMap.get String.eqb id
                        (JsMap.ofList String.eqb
                           (map (fun p => (pId p, p)) projects)))) id) _)).
    unfold Weekly.projectTotalsMap. rewrite projectTotalsMap_sum.
    simpl. exact Hdays.
  - eapply Permutation_NoDup.
    + apply Permutation_map. symmetry. apply stableSort_perm.
    + unfold JsMap.entries.
      rewrite (proj2 (named_rows
                 (fun id => nullish
                    (option_map pName
                       (JsMap.get String.eqb id
                          (JsMap.ofList String.eqb
                             (map (fun p => (pId p, p)) projects)))) id) _)).
      apply projectTotalsMap_NoDup.
  - apply stableSort_descending.
  - intros pt Hin.
    eapply Permutation_in in Hin; [|apply stableSort_perm].
    apply in_map_iff in Hin. destruct Hin as ([k b] & <- & _).
    cbn [ptProjectName ptProjectId].
    unfold JsMap.ofList. rewrite (JsMap_get_fold fst snd). simpl.
    rewrite <- map_rev.
    induction (rev projects) as [|q l IH]; simpl; [reflexivity|].
    destruct (String.eqb (pId q) k); [reflexivity|exact IH].
  - intros day q Hday Hq.
    eapply Permutation_in;
      [apply Permutation_map; symmetry; apply stableSort_perm|].
    unfold JsMap.entries.
    rewrite (proj2 (named_rows
               (fun id => nullish
                  (option_map pName
                     (JsMap.get String.eqb id
                        (JsMap.ofList String.eqb
                           (map (fun p => (pId p, p)) projects)))) id) _)).
    pose proof (projectTotalsMap_get (ptProjectId q) days) as Hget.
    assert (Hsel : In q (weekRowsOf (ptProjectId q) days)).
    { unfold weekRowsOf. apply filter_In. split.
      - apply in_concat. exists (projectBreakdown day). split; [|exact Hq].
        apply in_map. exact Hday.
      - apply String.eqb_refl. }
    destruct (weekRowsOf (ptProjectId q) days) as [|q0 sel]; [destruct Hsel|].
    apply JsMap_get_Some_In in Hget.
    apply (in_map fst) in Hget. exact Hget.
  - intros pt Hin.
    eapply Permutation_in in Hin; [|apply stableSort_perm].
    apply in_map_iff in Hin. destruct Hin as ([k b] & <- & Hkb).
    cbn [ptProjectId ptSeconds ptEntries].
    unfold JsMap.entries in Hkb.
    apply JsMap_get_In in Hkb; [|apply projectTotalsMap_NoDup].
    rewrite projectTotalsMap_get in Hkb.
    destruct (weekRowsOf k days) as [|q0 sel]; [discriminate|].
    injection Hkb as <-. cbn [seconds entries].
    repeat split. discriminate.
Qed.

Lemma weekly_totals_add_up_witness :
  let e i t p d := mkTimeEntry i t "App" "w" None None p None (Some d)
                     false None in
  let monday := 20101 * JsDate.msPerDay in
  let db := mkDb [e 1 (monday + 100) (Some "alpha"%string) 3600;
                  e 2 (monday + JsDate.msPerDay) None 1800;
                  e 3 (monday + 2 * JsDate.msPerDay) (Some "alpha"%string) 1800]
                 3 in
  let projects := [mkProject "alpha" "Alpha Ltd" [] "#fff" None None] in
  exists r,
    Weekly.generateWeeklyReport 7 (Some monday) 0 projects db = Some r
    /\ map (fun pt => (ptProjectName pt, ptSeconds pt)) (projectTotals r)
       = [("Alpha Ltd"%string, 5400); ("unassigned"%string, 1800)]
    /\ sumZ (map ptSeconds (projectTotals r))
       = sumZ (map activeSeconds (dailySummaries r)).
Proof.
  intros e monday db projects.
  destruct (Weekly.generateWeeklyReport 7 (Some monday) 0 projects db)
    as [r|] eqn:E; [|vm_compute in E; discriminate].
  exists r. split; [reflexivity|]. split.
  - pose proof E as E'. vm_compute in E'. injection E' as Hr.
    rewrite <- Hr. vm_compute. reflexivity.
  - exact (proj1 (proj2 (weekly_totals_add_up 7 (Some monday) 0 projects db
                           r E))).
Defined.

(* ================================================================== *)
(** * Further properties of the export and the settings *)

Lemma includes_char (s : string) (c : ascii) :
  Window.includes s (String c EmptyString) = hasChar c s.
Proof.
  induction s as [|x s IH]; [reflexivity|].
  cbn [Window.includes hasChar]. rewrite IH. f_equal.
  simpl. destruct (Ascii.ascii_dec c x) as [->|Hne].
  - rewrite Ascii.eqb_refl. destruct s; reflexivity.
  - destruct (Ascii.eqb_spec x c); [congruence|reflexivity].
Qed.

Lemma readQuoted_doubleQuotes (v : string) :
  readQuoted (ExportCsv.doubleQuotes v ++ String ExportCsv.quote EmptyString)
  = v.
Proof.
  induction v as [|c v IH]; [reflexivity|].
  cbn [ExportCsv.doubleQuotes].
  destruct (Ascii.eqb_spec c ExportCsv.quote) as [->|Hne].
  - cbn [String.append readQuoted]. rewrite Ascii.eqb_refl.
    now rewrite IH.
  - cbn [String.append readQuoted].
    destruct (Ascii.eqb_spec c ExportCsv.quote); [contradiction|].
    now rewrite IH.
Qed.

Lemma readCSVField_escapeCSV (v : string) :
  readCSVField (ExportCsv.escapeCSV v) = v.
Proof.
  unfold ExportCsv.escapeCSV. rewrite !includes_char.
  destruct (hasChar ExportCsv.comma v || hasChar ExportCsv.quote v
            || hasChar ExportCsv.newline v) eqn:E.
  - cbn [readCSVField]. rewrite Ascii.eqb_refl.
    apply readQuoted_doubleQuotes.
  - apply orb_false_iff in E. destruct E as [E _].
    apply orb_false_iff in E. destruct E as [_ E].
    destruct v as [|c v]; [reflexivity|].
    cbn [readCSVField]. simpl in E. apply orb_false_iff in E.
    destruct E as [E _]. now rewrite E.
Qed.

(** X26.  [escapeCSV] leaves a value without comma, double quote and
    line feed as it is and otherwise wraps it in double quotes with
    every inner double quote doubled.  The escaped text determines the
    value: two values with the same escaped text are equal, and reading
    the field back (a quoted field up to its closing quote, two quotes
    for one) gives the value. *)
Theorem escapeCSV_round_trip (value : string) :
  (hasChar ExportCsv.comma value = false ->
   hasChar ExportCsv.quote value = false ->
   hasChar ExportCsv.newline value = false ->
   ExportCsv.escapeCSV value = value)
  /\ (hasChar ExportCsv.comma value = true
      \/ hasChar ExportCsv.quote value = true
      \/ hasChar ExportCsv.newline value = true ->
      ExportCsv.escapeCSV value
      = String ExportCsv.quote
          (ExportCsv.doubleQuotes value ++ String ExportCsv.quote EmptyString))
  /\ readCSVField (ExportCsv.escapeCSV value) = value
  /\ (forall other,
        ExportCsv.escapeCSV other = ExportCsv.escapeCSV value ->
        other = value).
Proof.
  split; [|split; [|split]].
  - intros H1 H2 H3. unfold ExportCsv.escapeCSV.
    now rewrite !includes_char, H1, H2, H3.
  - intros H. unfold ExportCsv.escapeCSV. rewrite !includes_char.
    destruct H as [H | [H | H]]; rewrite H, ?orb_true_r; reflexivity.
  - apply readCSVField_escapeCSV.
  - intros other H.
    rewrite <- (readCSVField_escapeCSV other), H.
    apply readCSVField_escapeCSV.
Qed.

Lemma escapeCSV_round_trip_witness :
  let value := ("say " ++ quoted "hi" ++ ", twice")%string in
  ExportCsv.escapeCSV value
  = (String ExportCsv.quote "say " ++ quoted (quoted "hi") ++ ", twice"
     ++ String ExportCsv.quote EmptyString)%string
  /\ ExportCsv.escapeCSV "plain text" = "plain text"%string.
Proof.
  intros value. split; [reflexivity|].
  apply (proj1 (escapeCSV_round_trip "plain text")); reflexivity.
Defined.

(** ** Projects of the configuration *)

Lemma find_app_absent {A} (f : A -> bool) (l : list A) (x : A) :
  existsb f l = false -> find f (l ++ [x]) = if f x then Some x else None.
Proof.
  induction l as [|a l IH]; simpl; intros H; [reflexivity|].
  apply orb_false_iff in H. destruct H as [Ha Hl]. rewrite Ha. now apply IH.
Qed.

Lemma find_app_other {A} (f : A -> bool) (l : list A) (x : A) :
  f x = false -> find f (l ++ [x]) = find f l.
Proof.
  intros Hx. induction l as [|a l IH]; simpl; [now rewrite Hx|].
  destruct (f a); [reflexivity|exact IH].
Qed.

(** X27.  [addProject] throws exactly when a project with the same id is
    already configured; when it succeeds the project is appended, can be
    found by its id, the other ids find what they found before, and a
    list whose ids were distinct stays so.  [removeProject] keeps ids
    distinct, makes the id unknown to [getProject], leaves the other
    projects findable, and changes nothing when the id is not
    configured. *)
Theorem projects_add_remove_get
    (project : Project) (projects : list Project) (projectId : string) :
  (Settings.addProject project projects = Throw
   <-> exists p, In p projects /\ pId p = pId project)
  /\ (forall projects',
        Settings.addProject project projects = Ok projects' ->
        projects' = projects ++ [project]
        /\ Settings.getProject (pId project) projects' = Some project
        /\ (projectId <> pId project ->
            Settings.getProject projectId projects'
            = Settings.getProject projectId projects)
        /\ (NoDup (map pId projects) -> NoDup (map pId projects')))
  /\ Settings.getProject projectId (Settings.removeProject projectId projects)
     = None
  /\ (forall other, other <> projectId ->
        Settings.getProject other (Settings.removeProject projectId projects)
        = Settings.getProject other projects)
  /\ (NoDup (map pId projects) ->
      NoDup (map pId (Settings.removeProject projectId projects)))
  /\ ((forall p, In p projects -> pId p <> projectId) ->
      Settings.removeProject projectId projects = projects).
Proof.
  unfold Settings.addProject.
  split; [|split; [|split; [|split; [|split]]]].
  - destruct (existsb _ projects) eqn:E.
    + split; [intros _|reflexivity].
      apply existsb_exists in E. destruct E as (p & Hin & Hp).
      apply String.eqb_eq in Hp. eauto.
    + split; [discriminate|]. intros (p & Hin & Hp). exfalso.
      assert (existsb (fun q => String.eqb (pId q) (pId project)) projects
              = true).
      { apply existsb_exists. exists p. split; [exact Hin|].
        now apply String.eqb_eq. }
      congruence.
  - intros projects' H.
    destruct (existsb _ projects) eqn:E; [discriminate|].
    injection H as <-. split; [reflexivity|]. split; [|split].
    + unfold Settings.getProject. rewrite find_app_absent by exact E.
      now rewrite String.eqb_refl.
    + intros Hne. unfold Settings.getProject. apply find_app_other.
      apply String.eqb_neq. congruence.
    + intros Hnd. rewrite map_app. simpl.
      apply NoDup_app; [exact Hnd|repeat constructor; auto|].
      intros x Hx [Hk|[]]. subst x.
      apply in_map_iff in Hx. destruct Hx as (p & Hp & Hin).
      assert (existsb (fun q => String.eqb (pId q) (pId project)) projects
              = true).
      { apply existsb_exists. exists p. split; [exact Hin|].
        now apply String.eqb_eq. }
      congruence.
  - unfold Settings.getProject, Settings.removeProject.
    induction projects as [|p l IH]; simpl; [reflexivity|].
    destruct (String.eqb (pId p) projectId) eqn:E; simpl; [exact IH|].
    now rewrite E.
  - intros other Hne. unfold Settings.getProject, Settings.removeProject.
    induction projects as [|p l IH]; simpl; [reflexivity|].
    destruct (String.eqb_spec (pId p) projectId) as [E|E]; simpl.
    + destruct (String.eqb_spec (pId p) other); [congruence|exact IH].
    + destruct (String.eqb (pId p) other); [reflexivity|exact IH].
  - intros Hnd. unfold Settings.removeProject. now apply NoDup_map_filter.
  - intros Hall. unfold Settings.removeProject.
    induction projects as [|p l IH]; simpl; [reflexivity|].
    destruct (String.eqb_spec (pId p) projectId) as [E|E]; simpl.
    + exfalso. apply (Hall p); [now left|exact E].
    + f_equal. apply IH. intros q Hq. apply Hall. now right.
Qed.

Lemma projects_add_remove_get_witness :
  let a := mkProject "acme-1a2b" "ACME" [] "#3B82F6" None None in
  let b := mkProject "beta-9z8y" "Beta" [] "#3B82F6" None None in
  Settings.addProject b [a] = Ok [a; b]
  /\ Settings.getProject "beta-9z8y" [a; b] = Some b
  /\ Settings.addProject a [a; b] = Throw.
Proof.
  intros a b. split; [reflexivity|].
  pose proof (projects_add_remove_get b [a] "acme-1a2b") as (H1 & H2 & _).
  split.
  - exact (proj1 (proj2 (H2 [a; b] eq_refl))).
  - apply (proj1 (projects_add_remove_get a [a; b] "x")).
    exists a. split; [now left|reflexivity].
Defined.

Lemma jsLt_finite (x y : Q) :
  Settings.jsLt (Settings.Finite x) (Settings.Finite y) = false
  <-> (y <= x)%Q.
Proof.
  cbn [Settings.jsLt]. rewrite Qle_alt.
  rewrite <- (Qcompare_antisym x y).
  destruct (x ?= y)%Q; cbn [CompOpp]; split; congruence.
Qed.

Lemma outOfRange_spec (v : option Settings.JsNumber) (lo hi : Q) :
  Settings.outOfRange v lo hi = false
  <-> forall x, v = Some x -> passesRange lo hi x.
Proof.
  destruct v as [x|]; cbn [Settings.outOfRange].
  - rewrite orb_false_iff. split.
    + intros [H1 H2] y Hy. injection Hy as <-.
      destruct x as [q| | |]; cbn [passesRange];
        [|exact I|discriminate H2|discriminate H1].
      apply jsLt_finite in H1. apply jsLt_finite in H2. now split.
    + intros H. specialize (H x eq_refl).
      destruct x as [q| | |]; cbn [passesRange] in H;
        [|split; reflexivity|destruct H|destruct H].
      destruct H as [H1 H2]. split; now apply jsLt_finite.
  - split; [intros _ y Hy; discriminate|reflexivity].
Qed.

(** X28.  [validateConfig] reports nothing exactly when every value
    given is a finite number in its range (capture interval 1..60, idle
    threshold 30..3600, blur intensity 0..100) or is [NaN]: both
    comparisons with [NaN] are false, so a value that is not a number
    passes as a value in range does.  A value not given is not checked,
    an infinity is reported; each reported value adds one message, in
    that order, so there are at most three. *)
Theorem validateConfig_checks_ranges (config : Settings.PartialConfig) :
  (Settings.validateConfig config = []
   <-> (forall x, Settings.uCaptureIntervalMinutes config = Some x ->
                  passesRange 1 60 x)
       /\ (forall x, Settings.uIdleThresholdSeconds config = Some x ->
                     passesRange 30 3600 x)
       /\ (forall x, Settings.uBlurIntensity config = Some x ->
                     passesRange 0 100 x))
  /\ (List.length (Settings.validateConfig config) <= 3)%nat
  /\ Settings.validateConfig (Settings.mkPartialConfig None None None) = []
  /\ Settings.validateConfig
       (Settings.mkPartialConfig (Some Settings.NaN) (Some Settings.NaN)
          (Some Settings.NaN)) = [].
Proof.
  unfold Settings.validateConfig.
  split; [|split; [|split; reflexivity]].
  - rewrite <- !outOfRange_spec.
    destruct (Settings.outOfRange (Settings.uCaptureIntervalMinutes config) 1 60),
             (Settings.outOfRange (Settings.uIdleThresholdSeconds config) 30 3600),
             (Settings.outOfRange (Settings.uBlurIntensity config) 0 100);
      simpl; split; try discriminate; try tauto;
      intros (H1 & H2 & H3); discriminate.
  - destruct (Settings.outOfRange _ 1 60), (Settings.outOfRange _ 30 3600),
             (Settings.outOfRange _ 0 100); simpl; lia.
Qed.

Lemma validateConfig_checks_ranges_witness :
  Settings.validateConfig
    (Settings.mkPartialConfig (Some (Settings.Finite 5)) None
       (Some Settings.NaN)) = []
  /\ Settings.validateConfig
       (Settings.mkPartialConfig (Some (Settings.Finite (-5)))
          (Some (Settings.Finite 10)) None)
     = ["Capture interval must be between 1 and 60 minutes";
        "Idle threshold must be between 30 and 3600 seconds"]%string.
Proof.
  split; [|reflexivity].
  apply (proj1 (validateConfig_checks_ranges
                  (Settings.mkPartialConfig (Some (Settings.Finite 5)) None
                     (Some Settings.NaN)))).
  cbn [Settings.uCaptureIntervalMinutes Settings.uIdleThresholdSeconds
       Settings.uBlurIntensity].
  split; [|split]; intros x Hx; try discriminate; injection Hx as <-.
  - split; discriminate.
  - exact I.
Defined.

Lemma filter_split_and {A} (p q : A -> bool) (l : list A) :
  List.length (filter p l)
  = (List.length (filter (fun x => p x && q x) l)
     + List.length (filter (fun x => p x && negb (q x)) l))%nat.
Proof.
  induction l as [|a l IH]; simpl; [reflexivity|].
  destruct (p a), (q a); simpl; lia.
Qed.

(** X29.  [getTodayEntries] returns the entries whose timestamp falls on
    the day of the clock reading, while [getTodayEntryCount] counts every
    entry from that day's midnight on: the count is the number of today's
    entries plus the number of entries dated after today. *)
Theorem today_count_has_no_upper_bound (now : Z) (db : Database.t) :
  let tomorrow := (JsDate.Day now + 1) * JsDate.msPerDay in
  getTodayEntryCount now db
  = Z.of_nat (List.length (getTodayEntries now db))
    + Z.of_nat (List.length
                  (filter (fun r => tomorrow <=? timestamp r) (rows db)))
  /\ (forall r, In r (getTodayEntries now db)
                <-> In r (rows db)
                    /\ JsDate.Day (timestamp r) = JsDate.Day now).
Proof.
  intros tomorrow.
  assert (Ht : JsDate.setDate (JsDate.setHoursZero now)
                 (JsDate.getDate (JsDate.setHoursZero now) + 1) = tomorrow).
  { rewrite next_day_eq. subst tomorrow.
    unfold JsDate.setHoursZero. lia. }
  unfold getTodayEntryCount, getTodayEntries. rewrite Ht. split.
  - rewrite <- Nat2Z.inj_add. f_equal.
    rewrite (filter_split_and _ (fun r => timestamp r <? tomorrow)).
    f_equal.
    + unfold getTimeEntries.
      rewrite (Permutation_length (stableSort_perm _ _)).
      f_equal. apply filter_ext. intros r.
      unfold inRange, matchesProject. now rewrite andb_true_r.
    + f_equal. apply filter_ext. intros r. subst tomorrow.
      unfold JsDate.setHoursZero, JsDate.Day, JsDate.msPerDay.
      destruct (Z.leb_spec (now / 86400000 * 86400000) (timestamp r)),
               (Z.ltb_spec (timestamp r) ((now / 86400000 + 1) * 86400000)),
               (Z.leb_spec ((now / 86400000 + 1) * 86400000) (timestamp r));
        simpl; try reflexivity; lia.
  - intros r. rewrite getTimeEntries_In.
    unfold inRange, matchesProject.
    rewrite andb_true_r, andb_true_iff, Z.leb_le, Z.ltb_lt.
    subst tomorrow.
    unfold JsDate.setHoursZero, JsDate.Day, JsDate.msPerDay.
    split; intros [H1 H2]; (split; [exact H1|]);
      Z.to_euclidean_division_equations; lia.
Qed.
